(** * cam-face-buddy: the FaceDetectionAdvanced component and its faces table

    A shallow embedding of [src/components/FaceDetectionAdvanced.tsx] and of
    the migration that creates [public.faces] with its row-level policies.

    - JavaScript strings are sequences of UTF-16 code units, numbers are
      IEEE 754 binary64 values and the elements of a [Float32Array] are
      binary32 values, both taken from the Standard Library's [SpecFloat].
    - The hosted backend is a table of rows guarded by the four policies of
      the migration; a request is data (command, filters, values) and is
      executed under the identity of the caller.
    - The pretrained model library (face-api.js) is opaque: its entry points
      are variables of a section.
    - A handler is a function of the render it was created in (the values of
      the React state its closure captured) acting on the live world (state,
      refs, backend, media tracks), and it reports every call that leaves the
      component (toasts, console, canvas, library, backend) as an event. *)

From Stdlib Require Import ZArith NArith List String Ascii Bool Lia.
From Stdlib Require Import Floats.SpecFloat.
From Stdlib Require Import Sorting.Sorted Sorting.Permutation.
Import ListNotations.

Set Implicit Arguments.
Local Open Scope Z_scope.

(* ================================================================== *)
(** ** JavaScript values *)

Module JS.

(** A string, as its UTF-16 code units. *)
Definition jsstring := list N.

Definition str (s : string) : jsstring :=
  List.map N_of_ascii (list_ascii_of_string s).

Fixpoint jseqb (a b : jsstring) : bool :=
  match a, b with
  | [], [] => true
  | x :: a', y :: b' => N.eqb x y && jseqb a' b'
  | _, _ => false
  end.

(** ECMAScript WhiteSpace and LineTerminator code points, the ones
    [String.prototype.trim] strips. *)
Definition isWhiteSpace (c : N) : bool :=
  let c := Z.of_N c in
  (Z.eqb c 9 || Z.eqb c 10 || Z.eqb c 11 || Z.eqb c 12 || Z.eqb c 13
   || Z.eqb c 32 || Z.eqb c 160 || Z.eqb c 5760
   || (Z.leb 8192 c && Z.leb c 8202)
   || Z.eqb c 8232 || Z.eqb c 8233 || Z.eqb c 8239 || Z.eqb c 8287
   || Z.eqb c 12288 || Z.eqb c 65279)%bool.

Fixpoint trimStart (s : jsstring) : jsstring :=
  match s with
  | c :: s' => if isWhiteSpace c then trimStart s' else s
  | [] => []
  end.

Definition trimEnd (s : jsstring) : jsstring := rev (trimStart (rev s)).

Definition trim (s : jsstring) : jsstring := trimEnd (trimStart s).

(** Truthiness of a string: non-empty. *)
Definition truthy (s : jsstring) : bool :=
  match s with [] => false | _ => true end.

(** A number: binary64. *)
Definition number := spec_float.
Definition prec64 := 53.
Definition emax64 := 1024.

(** An element of a [Float32Array]: binary32. *)
Definition float32 := spec_float.
Definition prec32 := 24.
Definition emax32 := 128.

Definition is_number (x : number) : bool := valid_binary prec64 emax64 x.
Definition is_float32 (x : float32) : bool := valid_binary prec32 emax32 x.

(** Reading an element of a [Float32Array] gives the number of the same
    value: the binary32 value written in binary64. *)
Definition to_number (x : float32) : number :=
  match x with
  | S754_finite s m e => binary_round prec64 emax64 s m e
  | _ => x
  end.

(** Storing a number in a [Float32Array] rounds it to the nearest
    binary32 value, ties to even ([Math.fround]). *)
Definition fround (x : number) : float32 :=
  match x with
  | S754_finite s m e => binary_round prec32 emax32 s m e
  | _ => x
  end.

Definition Float32Array := list float32.

(** [Array.from(typedArray)] *)
Definition Array_from (a : Float32Array) : list number :=
  List.map to_number a.

(** [new Float32Array(array)] *)
Definition Float32Array_new (a : list number) : Float32Array :=
  List.map fround a.

(** A value of a JSON array of numbers: JSON has numbers and null. *)
Inductive json := jnull | jnum (x : number).

(** A number of a request body, as the JSONB column gives it back.
    [JSON.stringify] writes NaN and the infinities as null and minus zero
    as 0; every other number is written with digits that read back as the
    same number. *)
Definition to_json (x : number) : json :=
  match x with
  | S754_nan => jnull
  | S754_infinity _ => jnull
  | S754_zero _ => jnum (S754_zero false)
  | S754_finite _ _ _ => jnum x
  end.

(** ToNumber, which a typed array constructor applies to each element of
    the array it is given: null becomes +0. *)
Definition ToNumber (j : json) : number :=
  match j with
  | jnull => S754_zero false
  | jnum x => x
  end.

(** The elements that JSON gives back as they were: finite and not minus
    zero. *)
Definition survives_json (x : float32) : bool :=
  match x with
  | S754_finite _ _ _ => true
  | S754_zero false => true
  | _ => false
  end.

(** An element as a save and a reload give it back: NaN, the infinities
    and minus zero as +0, every other element as it was. *)
Definition reloaded (x : float32) : float32 :=
  if survives_json x then x else S754_zero false.

(** [a > b] on numbers: false when either is NaN. *)
Definition gt (a b : number) : bool := SFltb b a.

(** [a - b] and [a + b] on numbers. *)
Definition sub (a b : number) : number := SFsub prec64 emax64 a b.
Definition add (a b : number) : number := SFadd prec64 emax64 a b.

(** An integer literal, as a number. *)
Definition lit (z : Z) : number := binary_normalize prec64 emax64 z 0 false.

End JS.


(* ================================================================== *)
(** ** Authentication (supabase-js [Session]) *)

Module Auth.
Import JS.

Definition uuid := jsstring.

Record User := { id : uuid }.

(** Only [session.user.id] is read by the component. *)
Record Session := { user : User }.

(** [auth.uid()], as the backend evaluates it for a request: the id of the
    signed-in user, or NULL for an anonymous request. *)
Definition uid (s : option Session) : option uuid :=
  match s with
  | Some s => Some (id (user s))
  | None => None
  end.

End Auth.

(* ================================================================== *)
(** ** The faces table (supabase/migrations) *)

Module Backend.
Import JS.

Definition uuid := Auth.uuid.
Definition timestamptz := Z.

(** [CREATE TABLE public.faces]. The descriptor column is JSONB; the only
    value the component ever writes or reads there is an array written from
    numbers, which holds JSON numbers and nulls. [created_at] and
    [updated_at] are instants on the server's clock. *)
Record Row := {
  id : uuid;
  user_id : uuid;
  name : jsstring;
  descriptor : list json;
  image_url : option jsstring;
  created_at : timestamptz;
  updated_at : timestamptz
}.

Definition Table := list Row.

(** *** Row-level policies

    Each policy's expression is [auth.uid() = user_id]; with [auth.uid()]
    NULL the comparison is not true and the row is refused. *)
Definition uid_is_owner (uid : option uuid) (r : Row) : bool :=
  match uid with
  | Some u => jseqb u (user_id r)
  | None => false
  end.

(** "Users can view their own faces": FOR SELECT USING *)
Definition policy_select (uid : option uuid) (r : Row) : bool :=
  uid_is_owner uid r.

(** "Users can insert their own faces": FOR INSERT WITH CHECK *)
Definition policy_insert (uid : option uuid) (r : Row) : bool :=
  uid_is_owner uid r.

(** "Users can update their own faces": FOR UPDATE USING. The policy has
    no WITH CHECK, so its USING expression is also the check on the
    updated row. *)
Definition policy_update (uid : option uuid) (r : Row) : bool :=
  uid_is_owner uid r.

Definition policy_update_check (uid : option uuid) (r : Row) : bool :=
  policy_update uid r.

(** "Users can delete their own faces": FOR DELETE USING *)
Definition policy_delete (uid : option uuid) (r : Row) : bool :=
  uid_is_owner uid r.

(** *** Requests, as the client builds them *)

Inductive Column := col_id | col_user_id | col_name.

Definition column (c : Column) (r : Row) : jsstring :=
  match c with
  | col_id => id r
  | col_user_id => user_id r
  | col_name => name r
  end.

(** [.eq(column, value)] *)
Definition Filter := (Column * jsstring)%type.

Definition matches (fs : list Filter) (r : Row) : bool :=
  forallb (fun f => jseqb (column (fst f) r) (snd f)) fs.

(** The object passed to [.insert]: the other columns take their
    defaults. *)
Record Values := {
  v_user_id : uuid;
  v_name : jsstring;
  v_descriptor : list number
}.

(** The object passed to [.update]: the columns it sets. *)
Record Patch := {
  p_user_id : option uuid;
  p_name : option jsstring;
  p_descriptor : option (list number)
}.

Inductive Request :=
| Select (fs : list Filter) (order_created_at_ascending : option bool)
| Insert (v : Values)
| Update (p : Patch) (fs : list Filter)
| Delete (fs : list Filter).

Record Error := { message : jsstring }.

Record Response := { data : option (list Row); error : option Error }.

(** What the server supplies while it executes a request:
    [uuid_generate_v4()] and [NOW()]. *)
Record Server := { fresh_id : uuid; now : timestamptz }.

Definition quote : jsstring := [34%N].

Definition rls_violation : Error :=
  {| message := str "new row violates row-level security policy for table "
                ++ quote ++ str "faces" ++ quote |}.

Definition duplicate_key : Error :=
  {| message := str "duplicate key value violates unique constraint "
                ++ quote ++ str "faces_pkey" ++ quote |}.

(** ORDER BY created_at: a stable insertion sort. *)
Fixpoint insert_sorted (le : Row -> Row -> bool) (x : Row) (l : list Row) :=
  match l with
  | [] => [x]
  | y :: l' => if le x y then x :: l else y :: insert_sorted le x l'
  end.

Definition sort_rows (le : Row -> Row -> bool) (l : list Row) : list Row :=
  fold_right (insert_sorted le) [] l.

Definition order_by (o : option bool) (l : list Row) : list Row :=
  match o with
  | None => l
  | Some true => sort_rows (fun a b => created_at a <=? created_at b) l
  | Some false => sort_rows (fun a b => created_at b <=? created_at a) l
  end.

(** The array of numbers of a request body, as stored. *)
Definition jsonb (a : list number) : list json := List.map to_json a.

Definition new_row (srv : Server) (v : Values) : Row :=
  {| id := fresh_id srv;
     user_id := v_user_id v;
     name := v_name v;
     descriptor := jsonb (v_descriptor v);
     image_url := None;
     created_at := now srv;
     updated_at := now srv |}.

Definition or_else {A} (o : option A) (d : A) : A :=
  match o with Some a => a | None => d end.

(** The SET list, then the trigger [update_faces_updated_at]. *)
Definition patched (srv : Server) (p : Patch) (r : Row) : Row :=
  {| id := id r;
     user_id := or_else (p_user_id p) (user_id r);
     name := or_else (p_name p) (name r);
     descriptor := or_else (option_map jsonb (p_descriptor p)) (descriptor r);
     image_url := image_url r;
     created_at := created_at r;
     updated_at := now srv |}.

Definition ok (rows : option (list Row)) : Response :=
  {| data := rows; error := None |}.

Definition failed (e : Error) : Response :=
  {| data := None; error := Some e |}.

(** Execution of one request on the table with row-level security
    enabled, for the caller [uid]. A row that UPDATE or DELETE reaches
    through its WHERE clause must also be visible under the SELECT
    policy. *)
Definition exec (uid : option uuid) (srv : Server) (q : Request) (t : Table)
  : Table * Response :=
  match q with
  | Select fs o =>
      (t, ok (Some (order_by o
               (filter (fun r => policy_select uid r && matches fs r) t))))
  | Insert v =>
      let r := new_row srv v in
      if negb (policy_insert uid r) then (t, failed rls_violation)
      else if existsb (fun r' => jseqb (id r') (id r)) t
           then (t, failed duplicate_key)
           else (t ++ [r], ok None)
  | Update p fs =>
      let hit r := policy_select uid r && policy_update uid r && matches fs r in
      if forallb (fun r => negb (hit r) || policy_update_check uid (patched srv p r)) t
      then (List.map (fun r => if hit r then patched srv p r else r) t, ok None)
      else (t, failed rls_violation)
  | Delete fs =>
      (filter (fun r => negb (policy_select uid r && policy_delete uid r
                              && matches fs r)) t,
       ok None)
  end.

(** The same request with row-level security switched off: what its
    filters and values alone select. *)
Definition exec_unguarded (srv : Server) (q : Request) (t : Table)
  : Table * Response :=
  match q with
  | Select fs o => (t, ok (Some (order_by o (filter (matches fs) t))))
  | Insert v =>
      let r := new_row srv v in
      if existsb (fun r' => jseqb (id r') (id r)) t
      then (t, failed duplicate_key)
      else (t ++ [r], ok None)
  | Update p fs =>
      (List.map (fun r => if matches fs r then patched srv p r else r) t, ok None)
  | Delete fs => (filter (fun r => negb (matches fs r)) t, ok None)
  end.

(** What the hosted service contributes to one call: either an error of
    its own ([fault]: network, expired token, ...), which leaves the table
    untouched, or the execution of the request. *)
Record Service := { fault : option Error; server : Server }.

Definition call (svc : Service) (uid : option uuid) (q : Request) (t : Table)
  : Table * Response :=
  match fault svc with
  | Some e => (t, failed e)
  | None => exec uid (server svc) q t
  end.

(** The rows of [t] that belong to [u]. *)
Definition owned_by (u : uuid) (t : Table) : list Row :=
  filter (fun r => jseqb (user_id r) u) t.

(** Whether the request itself, before any policy, is restricted to the
    rows of [u]: a filter on [user_id] for the commands with a WHERE
    clause, the [user_id] value for an insert. *)
Definition scoped_to (u : uuid) (q : Request) : bool :=
  match q with
  | Select fs _ | Delete fs | Update _ fs =>
      existsb (fun f => match fst f with
                        | col_user_id => jseqb (snd f) u
                        | _ => false
                        end) fs
  | Insert v => jseqb (v_user_id v) u
  end.

End Backend.

(* ================================================================== *)
(** ** face-api.js: the types the component reads *)

Module FaceApi.
Import JS.

Record Box := { x : number; y : number; width : number; height : number }.

(** [FaceExpressions]: one probability per label, in the order of the
    object's keys. *)
Record FaceExpressions := {
  neutral : number;
  happy : number;
  sad : number;
  angry : number;
  fearful : number;
  disgusted : number;
  surprised : number
}.

(** One element of the array that
    [detectAllFaces(..).withFaceLandmarks().withFaceExpressions().withFaceDescriptors()]
    resolves to; the landmarks are never read. *)
Record Detection := {
  box : Box;
  expressions : FaceExpressions;
  descriptor : Float32Array
}.

Record LabeledFaceDescriptors := {
  label : jsstring;
  descriptors : list Float32Array
}.

Record FaceMatch := { match_label : jsstring; distance : number }.

Record Dimensions := { dim_width : Z; dim_height : Z }.

(** The contents of a video frame are the model's business only. *)
Definition Frame := N.

Inductive Net :=
  tinyFaceDetector | faceLandmark68Net | faceRecognitionNet | faceExpressionNet.

(** The types of the library's entry points: the detection chain on a
    frame, [resizeResults], and [FaceMatcher] construction followed by
    [findBestMatch]. *)
Definition Detect := Frame -> list Detection.
Definition Resize := list Detection -> Dimensions -> list Detection.
Definition Match :=
  list LabeledFaceDescriptors -> number -> Float32Array -> FaceMatch.

(** [Object.entries(expressions)], split into its first entry and the
    others. *)
Definition first_entry (e : FaceExpressions) : jsstring * number :=
  (str "neutral", neutral e).

Definition other_entries (e : FaceExpressions) : list (jsstring * number) :=
  [ (str "happy", happy e); (str "sad", sad e); (str "angry", angry e);
    (str "fearful", fearful e); (str "disgusted", disgusted e);
    (str "surprised", surprised e) ].

End FaceApi.

(* ================================================================== *)
(** ** The component *)

Module Component.
Import JS.
Export FaceApi.

Definition Session := Auth.Session.
Definition Row := Backend.Row.
Definition Error := Backend.Error.

(** [interface SavedFace]: the rows of [select('*')], of which the
    interface names four columns. *)
Definition SavedFace := Row.

(** The values of the [useState] cells, as one render sees them. *)
Record State := {
  isModelLoaded : bool;
  isCameraOn : bool;
  faceCount : nat;
  isDetecting : bool;
  currentEmotion : jsstring;
  matchedFace : jsstring;
  savedFaces : list SavedFace;
  faceName : jsstring;
  showSaveInput : bool;
  session : option Session
}.

Definition initialState : State :=
  {| isModelLoaded := false; isCameraOn := false; faceCount := 0;
     isDetecting := false; currentEmotion := []; matchedFace := [];
     savedFaces := []; faceName := []; showSaveInput := false;
     session := None |}.

(** A media stream is the list of its tracks; a track is known by a number,
    and the world records which tracks have been stopped. *)
Definition Track := N.
Definition MediaStream := list Track.

Record Video := {
  srcObject : option MediaStream;
  videoWidth : Z;
  videoHeight : Z;
  frame : Frame;
  (** the render whose [startDetection] the handler would call *)
  onloadedmetadata : option State
}.

Record Canvas := {
  (** whether [getContext('2d')] gives a context *)
  has2d : bool;
  canvas_width : Z;
  canvas_height : Z
}.

(** Everything a handler can read or change: the live state cells, the
    refs, the stopped tracks, the backend's table, the identity the
    supabase client sends, and the callbacks waiting for an animation frame
    (each a [detectFaces] closure, known by its render). *)
Record World := {
  state : State;
  videoRef : option Video;
  canvasRef : option Canvas;
  streamRef : option MediaStream;
  currentDescriptorRef : option Float32Array;
  ended : list Track;
  faces : Backend.Table;
  auth : option Session;
  raf : list State
}.

Inductive Variant := default | destructive.

Record ToastProps := {
  title : jsstring;
  description : jsstring;
  variant : Variant
}.

Inductive CanvasCmd :=
| clearRect (x y w h : number)
| strokeStyle (s : jsstring)
| lineWidth (n : number)
| strokeRect (x y w h : number)
| beginPath
| moveTo (x y : number)
| lineTo (x y : number)
| stroke.

(** Every call that leaves the component. *)
Inductive Event :=
| Toast (t : ToastProps)
| ConsoleError (what : jsstring) (e : Error)
| LoadFromUri (n : Net) (uri : jsstring)
| GetUserMedia
| TrackStop (t : Track)
| DetectAllFaces (f : Frame)
| MatchDimensions (d : Dimensions)
| FindBestMatch (inputs : list LabeledFaceDescriptors) (threshold : number)
                (query : Float32Array)
| Draw (c : CanvasCmd)
| RequestAnimationFrame
| Fetch (uid : option Auth.uuid) (q : Backend.Request).

(** *** State and event passing *)

Definition M (A : Type) : Type := World -> A * World * list Event.

Definition ret {A} (a : A) : M A := fun w => (a, w, []).

Definition bind {A B} (m : M A) (k : A -> M B) : M B :=
  fun w =>
    let '(a, w1, e1) := m w in
    let '(b, w2, e2) := k a w1 in
    (b, w2, e1 ++ e2).

Definition get : M World := fun w => (w, w, []).
Definition modify (f : World -> World) : M unit := fun w => (tt, f w, []).
Definition emit (e : Event) : M unit := fun w => (tt, w, [e]).

Notation "x <- m ;; k" := (bind m (fun x => k))
  (at level 61, m at next level, right associativity).
Notation "m ;; k" := (bind m (fun _ => k))
  (at level 61, right associativity).

Definition when (b : bool) (m : M unit) : M unit := if b then m else ret tt.

Fixpoint forEach {A} (l : list A) (f : A -> M unit) : M unit :=
  match l with
  | [] => ret tt
  | a :: l' => f a ;; forEach l' f
  end.

(** The result, the world and the events of a handler run in [w]. *)
Definition result_of {A} (m : M A) (w : World) : A := fst (fst (m w)).
Definition world_after {A} (m : M A) (w : World) : World := snd (fst (m w)).
Definition events_of {A} (m : M A) (w : World) : list Event := snd (m w).

(** *** Field updates *)

Definition with_state (s : State) (w : World) : World :=
  {| state := s; videoRef := videoRef w; canvasRef := canvasRef w;
     streamRef := streamRef w; currentDescriptorRef := currentDescriptorRef w;
     ended := ended w; faces := faces w; auth := auth w; raf := raf w |}.

Definition with_videoRef (v : option Video) (w : World) : World :=
  {| state := state w; videoRef := v; canvasRef := canvasRef w;
     streamRef := streamRef w; currentDescriptorRef := currentDescriptorRef w;
     ended := ended w; faces := faces w; auth := auth w; raf := raf w |}.

Definition with_canvasRef (c : option Canvas) (w : World) : World :=
  {| state := state w; videoRef := videoRef w; canvasRef := c;
     streamRef := streamRef w; currentDescriptorRef := currentDescriptorRef w;
     ended := ended w; faces := faces w; auth := auth w; raf := raf w |}.

Definition with_streamRef (s : option MediaStream) (w : World) : World :=
  {| state := state w; videoRef := videoRef w; canvasRef := canvasRef w;
     streamRef := s; currentDescriptorRef := currentDescriptorRef w;
     ended := ended w; faces := faces w; auth := auth w; raf := raf w |}.

Definition with_currentDescriptorRef (d : option Float32Array) (w : World)
  : World :=
  {| state := state w; videoRef := videoRef w; canvasRef := canvasRef w;
     streamRef := streamRef w; currentDescriptorRef := d;
     ended := ended w; faces := faces w; auth := auth w; raf := raf w |}.

Definition with_ended (e : list Track) (w : World) : World :=
  {| state := state w; videoRef := videoRef w; canvasRef := canvasRef w;
     streamRef := streamRef w; currentDescriptorRef := currentDescriptorRef w;
     ended := e; faces := faces w; auth := auth w; raf := raf w |}.

Definition with_faces (t : Backend.Table) (w : World) : World :=
  {| state := state w; videoRef := videoRef w; canvasRef := canvasRef w;
     streamRef := streamRef w; currentDescriptorRef := currentDescriptorRef w;
     ended := ended w; faces := t; auth := auth w; raf := raf w |}.

Definition with_auth (a : option Session) (w : World) : World :=
  {| state := state w; videoRef := videoRef w; canvasRef := canvasRef w;
     streamRef := streamRef w; currentDescriptorRef := currentDescriptorRef w;
     ended := ended w; faces := faces w; auth := a; raf := raf w |}.

Definition with_raf (q : list State) (w : World) : World :=
  {| state := state w; videoRef := videoRef w; canvasRef := canvasRef w;
     streamRef := streamRef w; currentDescriptorRef := currentDescriptorRef w;
     ended := ended w; faces := faces w; auth := auth w; raf := q |}.

Definition setState (f : State -> State) : M unit :=
  modify (fun w => with_state (f (state w)) w).

Definition setIsModelLoaded (b : bool) : M unit :=
  setState (fun s =>
    {| isModelLoaded := b; isCameraOn := isCameraOn s;
       faceCount := faceCount s; isDetecting := isDetecting s;
       currentEmotion := currentEmotion s; matchedFace := matchedFace s;
       savedFaces := savedFaces s; faceName := faceName s;
       showSaveInput := showSaveInput s; session := session s |}).

Definition setIsCameraOn (b : bool) : M unit :=
  setState (fun s =>
    {| isModelLoaded := isModelLoaded s; isCameraOn := b;
       faceCount := faceCount s; isDetecting := isDetecting s;
       currentEmotion := currentEmotion s; matchedFace := matchedFace s;
       savedFaces := savedFaces s; faceName := faceName s;
       showSaveInput := showSaveInput s; session := session s |}).

Definition setFaceCount (n : nat) : M unit :=
  setState (fun s =>
    {| isModelLoaded := isModelLoaded s; isCameraOn := isCameraOn s;
       faceCount := n; isDetecting := isDetecting s;
       currentEmotion := currentEmotion s; matchedFace := matchedFace s;
       savedFaces := savedFaces s; faceName := faceName s;
       showSaveInput := showSaveInput s; session := session s |}).

Definition setIsDetecting (b : bool) : M unit :=
  setState (fun s =>
    {| isModelLoaded := isModelLoaded s; isCameraOn := isCameraOn s;
       faceCount := faceCount s; isDetecting := b;
       currentEmotion := currentEmotion s; matchedFace := matchedFace s;
       savedFaces := savedFaces s; faceName := faceName s;
       showSaveInput := showSaveInput s; session := session s |}).

Definition setCurrentEmotion (e : jsstring) : M unit :=
  setState (fun s =>
    {| isModelLoaded := isModelLoaded s; isCameraOn := isCameraOn s;
       faceCount := faceCount s; isDetecting := isDetecting s;
       currentEmotion := e; matchedFace := matchedFace s;
       savedFaces := savedFaces s; faceName := faceName s;
       showSaveInput := showSaveInput s; session := session s |}).

Definition setMatchedFace (m : jsstring) : M unit :=
  setState (fun s =>
    {| isModelLoaded := isModelLoaded s; isCameraOn := isCameraOn s;
       faceCount := faceCount s; isDetecting := isDetecting s;
       currentEmotion := currentEmotion s; matchedFace := m;
       savedFaces := savedFaces s; faceName := faceName s;
       showSaveInput := showSaveInput s; session := session s |}).

Definition setSavedFaces (l : list SavedFace) : M unit :=
  setState (fun s =>
    {| isModelLoaded := isModelLoaded s; isCameraOn := isCameraOn s;
       faceCount := faceCount s; isDetecting := isDetecting s;
       currentEmotion := currentEmotion s; matchedFace := matchedFace s;
       savedFaces := l; faceName := faceName s;
       showSaveInput := showSaveInput s; session := session s |}).

Definition setFaceName (n : jsstring) : M unit :=
  setState (fun s =>
    {| isModelLoaded := isModelLoaded s; isCameraOn := isCameraOn s;
       faceCount := faceCount s; isDetecting := isDetecting s;
       currentEmotion := currentEmotion s; matchedFace := matchedFace s;
       savedFaces := savedFaces s; faceName := n;
       showSaveInput := showSaveInput s; session := session s |}).

Definition setShowSaveInput (b : bool) : M unit :=
  setState (fun s =>
    {| isModelLoaded := isModelLoaded s; isCameraOn := isCameraOn s;
       faceCount := faceCount s; isDetecting := isDetecting s;
       currentEmotion := currentEmotion s; matchedFace := matchedFace s;
       savedFaces := savedFaces s; faceName := faceName s;
       showSaveInput := b; session := session s |}).

Definition setSession (x : option Session) : M unit :=
  setState (fun s =>
    {| isModelLoaded := isModelLoaded s; isCameraOn := isCameraOn s;
       faceCount := faceCount s; isDetecting := isDetecting s;
       currentEmotion := currentEmotion s; matchedFace := matchedFace s;
       savedFaces := savedFaces s; faceName := faceName s;
       showSaveInput := showSaveInput s; session := x |}).

(** A render that differs from [s] in its face name only. *)
Definition with_faceName_of (n : jsstring) (s : State) : State :=
  {| isModelLoaded := isModelLoaded s; isCameraOn := isCameraOn s;
     faceCount := faceCount s; isDetecting := isDetecting s;
     currentEmotion := currentEmotion s; matchedFace := matchedFace s;
     savedFaces := savedFaces s; faceName := n;
     showSaveInput := showSaveInput s; session := session s |}.

Definition toast (t : ToastProps) : M unit := emit (Toast t).

Definition console_error (what : jsstring) (e : Error) : M unit :=
  emit (ConsoleError what e).

(** [await supabase.from('faces')...]: the request goes out under the
    client's identity and the backend answers. *)
Definition supabase (svc : Backend.Service) (q : Backend.Request)
  : M Backend.Response :=
  w <- get ;;
  emit (Fetch (Auth.uid (auth w)) q) ;;
  let '(t, resp) := Backend.call svc (Auth.uid (auth w)) q (faces w) in
  modify (with_faces t) ;;
  ret resp.

(** U+2713 CHECK MARK *)
Definition check_mark : jsstring := [10003%N].

(** *** Handlers *)

Definition with_srcObject (o : option MediaStream) (v : Video) : Video :=
  {| srcObject := o; videoWidth := videoWidth v; videoHeight := videoHeight v;
     frame := frame v; onloadedmetadata := onloadedmetadata v |}.

Definition with_onloadedmetadata (h : option State) (v : Video) : Video :=
  {| srcObject := srcObject v; videoWidth := videoWidth v;
     videoHeight := videoHeight v; frame := frame v; onloadedmetadata := h |}.

Definition with_frame (f : Frame) (v : Video) : Video :=
  {| srcObject := srcObject v; videoWidth := videoWidth v;
     videoHeight := videoHeight v; frame := f;
     onloadedmetadata := onloadedmetadata v |}.

(** [faceapi.matchDimensions(canvas, displaySize)] sets the canvas to the
    given size. *)
Definition matchDimensions (c : Canvas) (d : Dimensions) : Canvas :=
  {| has2d := has2d c; canvas_width := dim_width d;
     canvas_height := dim_height d |}.

Definition MODEL_URL : jsstring := str "/models".

Definition loadModels (thrown : option Error) : M unit :=
  forEach [tinyFaceDetector; faceLandmark68Net; faceRecognitionNet;
           faceExpressionNet]
          (fun n => emit (LoadFromUri n MODEL_URL)) ;;
  match thrown with
  | None =>
      setIsModelLoaded true ;;
      toast {| title := check_mark ++ str " AI Model Loaded";
               description := str "Face detection ready with emotion & recognition";
               variant := default |}
  | Some error =>
      console_error (str "Error loading models:") error ;;
      toast {| title := str "Model Loading Failed";
               description := str "Please refresh the page";
               variant := destructive |}
  end.

(** [{ ...face, descriptor: face.descriptor as number[] }] *)
Definition as_saved_face (face : Row) : SavedFace :=
  {| Backend.id := Backend.id face;
     Backend.user_id := Backend.user_id face;
     Backend.name := Backend.name face;
     Backend.descriptor := Backend.descriptor face;
     Backend.image_url := Backend.image_url face;
     Backend.created_at := Backend.created_at face;
     Backend.updated_at := Backend.updated_at face |}.

Definition select_faces (s : Session) : Backend.Request :=
  Backend.Select [(Backend.col_user_id, Auth.id (Auth.user s))] (Some false).

Definition loadSavedFaces (r : State) (svc : Backend.Service) : M unit :=
  match session r with
  | None => ret tt
  | Some s =>
      resp <- supabase svc (select_faces s) ;;
      match Backend.error resp with
      | Some error => console_error (str "Error loading faces:") error
      | None =>
          match Backend.data resp with
          | Some data => setSavedFaces (List.map as_saved_face data)
          | None => ret tt
          end
      end
  end.

Definition stopCamera : M unit :=
  w <- get ;;
  match streamRef w with
  | Some stream =>
      forEach stream (fun track =>
        emit (TrackStop track) ;;
        modify (fun w => with_ended (track :: ended w) w)) ;;
      modify (with_streamRef None)
  | None => ret tt
  end ;;
  w <- get ;;
  match videoRef w with
  | Some video => modify (with_videoRef (Some (with_srcObject None video)))
  | None => ret tt
  end ;;
  setIsCameraOn false ;;
  setIsDetecting false ;;
  setFaceCount 0 ;;
  setCurrentEmotion [] ;;
  setMatchedFace [].

(** The distance threshold [0.6]. *)
Definition threshold : number :=
  Eval cbv in SFdiv prec64 emax64 (lit 6) (lit 10).

(** The reducer of [Object.entries(expressions).reduce(...)]. *)
Definition larger (a b : jsstring * number) : jsstring * number :=
  if gt (snd a) (snd b) then a else b.

Definition maxExpression (e : FaceExpressions) : jsstring * number :=
  fold_left larger (other_entries e) (first_entry e).

(** [savedFaces.map(face => new LabeledFaceDescriptors(face.name,
    [new Float32Array(face.descriptor)]))]: the constructor converts each
    element of the array read from the column with ToNumber. *)
Definition labeled (l : list SavedFace) : list LabeledFaceDescriptors :=
  List.map (fun face =>
         {| label := Backend.name face;
            descriptors :=
              [Float32Array_new (List.map ToNumber (Backend.descriptor face))]
         |}) l.

(** The canvas calls that draw one detection. *)
Definition draw_box (b : Box) : list CanvasCmd :=
  let cornerSize := lit 20 in
  [ strokeStyle (str "rgba(34, 211, 238, 0.3)");
    lineWidth (lit 8);
    strokeRect (sub (x b) (lit 4)) (sub (y b) (lit 4))
               (add (width b) (lit 8)) (add (height b) (lit 8));
    strokeStyle (str "#22d3ee");
    lineWidth (lit 2);
    strokeRect (x b) (y b) (width b) (height b);
    strokeStyle (str "#a855f7");
    lineWidth (lit 3);
    beginPath;
    moveTo (x b) (add (y b) cornerSize);
    lineTo (x b) (y b);
    lineTo (add (x b) cornerSize) (y b);
    stroke;
    beginPath;
    moveTo (sub (add (x b) (width b)) cornerSize) (y b);
    lineTo (add (x b) (width b)) (y b);
    lineTo (add (x b) (width b)) (add (y b) cornerSize);
    stroke;
    beginPath;
    moveTo (x b) (sub (add (y b) (height b)) cornerSize);
    lineTo (x b) (add (y b) (height b));
    lineTo (add (x b) cornerSize) (add (y b) (height b));
    stroke;
    beginPath;
    moveTo (sub (add (x b) (width b)) cornerSize) (add (y b) (height b));
    lineTo (add (x b) (width b)) (add (y b) (height b));
    lineTo (add (x b) (width b)) (sub (add (y b) (height b)) cornerSize);
    stroke ].

(** The events of one processed frame, phase by phase: clearing the
    canvas, matching the first detection, drawing every detection. *)
Definition displaySize (video : Video) : Dimensions :=
  {| dim_width := videoWidth video; dim_height := videoHeight video |}.

Definition clear_events (ctx : bool) (d : Dimensions) : list Event :=
  if ctx
  then [Draw (clearRect (lit 0) (lit 0) (lit (dim_width d)) (lit (dim_height d)))]
  else [].

Definition match_events (r : State) (resized : list Detection) : list Event :=
  match resized, savedFaces r, session r with
  | detection :: _, _ :: _, Some _ =>
      [FindBestMatch (labeled (savedFaces r)) threshold (descriptor detection)]
  | _, _, _ => []
  end.

Definition draw_events (ctx : bool) (resized : list Detection) : list Event :=
  if ctx
  then flat_map (fun detection => List.map Draw (draw_box (box detection))) resized
  else [].

Section Handlers.

(** The entry points of the model library. *)
Variable detectAllFaces : Detect.
Variable resizeResults : Resize.
Variable findBestMatch : Match.

(** "Process emotions and face matching": the block on the first resized
    detection, with the [savedFaces] and [session] of render [r]. *)
Definition processFirstDetection (r : State)
           (resizedDetections : list Detection) : M unit :=
  match resizedDetections with
  | detection :: _ =>
      setCurrentEmotion (fst (maxExpression (expressions detection))) ;;
      modify (with_currentDescriptorRef (Some (descriptor detection))) ;;
      match savedFaces r, session r with
      | _ :: _, Some _ =>
          let inputs := labeled (savedFaces r) in
          emit (FindBestMatch inputs threshold (descriptor detection)) ;;
          let m := findBestMatch inputs threshold (descriptor detection) in
          setMatchedFace
            (if negb (jseqb (match_label m) (str "unknown"))
             then match_label m else [])
      | _, _ => ret tt
      end
  | [] =>
      setCurrentEmotion [] ;;
      setMatchedFace [] ;;
      modify (with_currentDescriptorRef None)
  end.

(** "Draw detection boxes": [ctx] tells whether the canvas gave a 2D
    context. *)
Definition drawDetectionBoxes (ctx : bool)
           (resizedDetections : list Detection) : M unit :=
  forEach resizedDetections (fun detection =>
    when ctx (forEach (draw_box (box detection)) (fun c => emit (Draw c)))).

(** One run of the [detectFaces] closure created in render [r]. The refs
    are read live; [isCameraOn], [savedFaces] and [session] are the values
    the closure captured. *)
Definition detectFaces (r : State) : M unit :=
  w <- get ;;
  match videoRef w, canvasRef w with
  | Some video, Some canvas =>
      if negb (isCameraOn r) then ret tt
      else
        emit (DetectAllFaces (frame video)) ;;
        let detections := detectAllFaces (frame video) in
        let displaySize := displaySize video in
        emit (MatchDimensions displaySize) ;;
        let canvas := matchDimensions canvas displaySize in
        modify (with_canvasRef (Some canvas)) ;;
        let ctx := has2d canvas in
        when ctx
          (emit (Draw (clearRect (lit 0) (lit 0) (lit (canvas_width canvas))
                                 (lit (canvas_height canvas))))) ;;
        let resizedDetections := resizeResults detections displaySize in
        processFirstDetection r resizedDetections ;;
        drawDetectionBoxes ctx resizedDetections ;;
        setFaceCount (List.length detections) ;;
        when (isCameraOn r)
          (emit RequestAnimationFrame ;;
           modify (fun w => with_raf (raf w ++ [r]) w))
  | _, _ => ret tt
  end.

Definition startDetection (r : State) : M unit :=
  w <- get ;;
  match videoRef w, canvasRef w with
  | Some _, Some _ =>
      if negb (isModelLoaded r) then ret tt
      else setIsDetecting true ;; detectFaces r
  | _, _ => ret tt
  end.

(** [granted] is what [getUserMedia] settles to. *)
Definition startCamera (r : State) (granted : Error + MediaStream) : M unit :=
  emit GetUserMedia ;;
  match granted with
  | inr stream =>
      w <- get ;;
      match videoRef w with
      | Some video =>
          modify (with_videoRef (Some (with_srcObject (Some stream) video))) ;;
          modify (with_streamRef (Some stream)) ;;
          setIsCameraOn true ;;
          modify (fun w =>
            with_videoRef
              (option_map (with_onloadedmetadata (Some r)) (videoRef w)) w)
      | None => ret tt
      end
  | inl error =>
      console_error (str "Error accessing camera:") error ;;
      toast {| title := str "Camera Access Denied";
               description := str "Please allow camera access";
               variant := destructive |}
  end.

Definition toggleCamera (r : State) (granted : Error + MediaStream) : M unit :=
  if isCameraOn r then stopCamera else startCamera r granted.

Definition insert_face (s : Session) (n : jsstring) (d : Float32Array)
  : Backend.Request :=
  Backend.Insert {| Backend.v_user_id := Auth.id (Auth.user s);
                    Backend.v_name := n;
                    Backend.v_descriptor := Array_from d |}.

(** [ins] answers the insert, [sel] the select of the [loadSavedFaces]
    that follows it. *)
Definition handleSaveFace (r : State) (ins sel : Backend.Service) : M unit :=
  match session r with
  | None =>
      toast {| title := str "Authentication Required";
               description := str "Please sign in to save faces";
               variant := destructive |}
  | Some s =>
      w <- get ;;
      match currentDescriptorRef w with
      | None =>
          toast {| title := str "No Face Detected";
                   description :=
                     str "Please position your face in front of the camera";
                   variant := destructive |}
      | Some current =>
          if negb (truthy (trim (faceName r))) then
            toast {| title := str "Name Required";
                     description := str "Please enter a name for this face";
                     variant := destructive |}
          else
            resp <- supabase ins (insert_face s (faceName r) current) ;;
            match Backend.error resp with
            | Some error =>
                console_error (str "Error saving face:") error ;;
                toast {| title := str "Save Failed";
                         description := Backend.message error;
                         variant := destructive |}
            | None =>
                toast {| title := check_mark ++ str " Face Saved";
                         description :=
                           faceName r ++ str " has been saved successfully";
                         variant := default |} ;;
                setFaceName [] ;;
                setShowSaveInput false ;;
                loadSavedFaces r sel
            end
      end
  end.

Definition delete_face (id : jsstring) : Backend.Request :=
  Backend.Delete [(Backend.col_id, id)].

Definition handleDeleteFace (r : State) (id : jsstring)
           (del sel : Backend.Service) : M unit :=
  resp <- supabase del (delete_face id) ;;
  match Backend.error resp with
  | Some error =>
      console_error (str "Error deleting face:") error ;;
      toast {| title := str "Delete Failed";
               description := Backend.message error;
               variant := destructive |}
  | None =>
      toast {| title := check_mark ++ str " Face Deleted";
               description := str "Face removed successfully";
               variant := default |} ;;
      loadSavedFaces r sel
  end.

(** *** The component as a machine

    What can happen to the mounted component. A click runs the handler of
    the latest render; the [onloadedmetadata] handler and the animation
    frame callbacks run the closures they were given. Buttons that are not
    rendered, or are disabled, do nothing. *)
Inductive Action :=
| AuthStateChange (s : option Session) (sel : Backend.Service)
| ModelsSettled (thrown : option Error)
| ClickCamera (granted : Error + MediaStream)
| LoadedMetadata
| AnimationFrame
| VideoFrame (f : Frame)
| ChangeFaceName (n : jsstring)
| ClickSaveFace
| ClickSave (ins sel : Backend.Service)
| ClickDelete (id : jsstring) (del sel : Backend.Service).

Definition isSome {A} (o : option A) : bool :=
  match o with Some _ => true | None => false end.

Definition step (a : Action) : M unit :=
  w <- get ;;
  let r := state w in
  match a with
  | AuthStateChange s sel =>
      modify (with_auth s) ;;
      setSession s ;;
      w' <- get ;;
      loadSavedFaces (state w') sel
  | ModelsSettled thrown => loadModels thrown
  | ClickCamera granted =>
      when (isModelLoaded r) (toggleCamera r granted)
  | LoadedMetadata =>
      match videoRef w with
      | Some video =>
          match onloadedmetadata video with
          | Some r' => startDetection r'
          | None => ret tt
          end
      | None => ret tt
      end
  | AnimationFrame =>
      match raf w with
      | r' :: q => modify (with_raf q) ;; detectFaces r'
      | [] => ret tt
      end
  | VideoFrame f =>
      modify (fun w => with_videoRef (option_map (with_frame f) (videoRef w)) w)
  | ChangeFaceName n => when (showSaveInput r) (setFaceName n)
  | ClickSaveFace =>
      when (isCameraOn r && isSome (session r)
            && isSome (currentDescriptorRef w))
           (setShowSaveInput (negb (showSaveInput r)))
  | ClickSave ins sel => when (showSaveInput r) (handleSaveFace r ins sel)
  | ClickDelete id del sel =>
      when (isSome (session r)
            && existsb (fun face => jseqb (Backend.id face) id) (savedFaces r))
           (handleDeleteFace r id del sel)
  end.

Definition run (l : list Action) : M unit := forEach l step.

End Handlers.

(** The component just mounted on a page with the given video and canvas
    elements, against the given table. *)
Definition mounted (v : Video) (c : Canvas) (t : Backend.Table) : World :=
  {| state := initialState; videoRef := Some v; canvasRef := Some c;
     streamRef := None; currentDescriptorRef := None; ended := [];
     faces := t; auth := None; raf := [] |}.

End Component.

(* ================================================================== *)
(** ** A page to run the component on

    Two users, a model that sees the same single face in every frame, and
    a matcher that answers with the label of its first input. *)

Module Sample.
Import JS Component.

Definition alice : Session := {| Auth.user := {| Auth.id := str "alice" |} |}.
Definition bob : Session := {| Auth.user := {| Auth.id := str "bob" |} |}.

(** 1.0 and 0.5 as binary32 values. *)
Definition one32 : float32 := S754_finite false 8388608 (-23).
Definition half32 : float32 := S754_finite false 8388608 (-24).

Definition descriptor0 : Float32Array := [one32; half32; S754_zero false].

(** A descriptor with NaN, minus zero and an infinity among its elements. *)
Definition descriptor1 : Float32Array :=
  [S754_nan; S754_zero true; S754_infinity false; one32].

Definition face0 : Detection :=
  {| box := {| x := lit 10; y := lit 20; width := lit 100; height := lit 120 |};
     expressions := {| neutral := lit 0; happy := lit 1; sad := lit 0;
                       angry := lit 0; fearful := lit 0; disgusted := lit 0;
                       surprised := lit 0 |};
     descriptor := descriptor0 |}.

Definition detectAllFaces (_ : Frame) : list Detection := [face0].

Definition resizeResults (l : list Detection) (_ : Dimensions)
  : list Detection := l.

Definition findBestMatch (inputs : list LabeledFaceDescriptors)
           (_ : number) (_ : Float32Array) : FaceMatch :=
  match inputs with
  | i :: _ => {| match_label := label i; distance := lit 0 |}
  | [] => {| match_label := str "unknown"; distance := lit 1 |}
  end.

Definition video : Video :=
  {| srcObject := None; videoWidth := 1280; videoHeight := 720; frame := 0%N;
     onloadedmetadata := None |}.

Definition canvas : Canvas :=
  {| has2d := true; canvas_width := 300; canvas_height := 150 |}.

Definition page : World := mounted video canvas [].

Definition srv (id : string) (t : Z) : Backend.Service :=
  {| Backend.fault := None;
     Backend.server := {| Backend.fresh_id := str id; Backend.now := t |} |}.

Definition down (msg : string) : Backend.Service :=
  {| Backend.fault := Some {| Backend.message := str msg |};
     Backend.server := {| Backend.fresh_id := []; Backend.now := 0 |} |}.

Definition row (id owner : string) : Backend.Row :=
  {| Backend.id := str id; Backend.user_id := str owner;
     Backend.name := str "Ann";
     Backend.descriptor := Backend.jsonb (Array_from descriptor0);
     Backend.image_url := None; Backend.created_at := 5;
     Backend.updated_at := 5 |}.

(** A render with the camera on. *)
Definition cameraOn (s : option Session) (saved : list SavedFace) : State :=
  {| isModelLoaded := true; isCameraOn := true; faceCount := 0;
     isDetecting := true; currentEmotion := []; matchedFace := [];
     savedFaces := saved; faceName := []; showSaveInput := false;
     session := s |}.

(** The page with Alice signed in, a face in front of the camera and the
    name "Ann" typed in. *)
Definition aliceReady : World :=
  with_auth (Some alice)
    (with_currentDescriptorRef (Some descriptor0) page).

Definition namingAnn : State :=
  with_faceName_of (str "Ann") (cameraOn (Some alice) []).

(** Alice about to save the face in front of the camera as "Ann". *)
Definition aliceSaving : World :=
  with_state
    {| isModelLoaded := true; isCameraOn := true; faceCount := 1;
       isDetecting := true; currentEmotion := str "happy";
       matchedFace := []; savedFaces := []; faceName := str "Ann";
       showSaveInput := true; session := Some alice |}
    aliceReady.

(** Alice signed in, on a table that also holds a row of Bob. *)
Definition aliceAndBob : World :=
  with_faces [row "f1" "alice"; row "f2" "bob"] aliceReady.

Definition boom : Error := {| Backend.message := str "boom" |}.

(** The page after Alice signed in. *)
Definition aliceSignedIn : World :=
  world_after (run detectAllFaces resizeResults findBestMatch
                   [AuthStateChange (Some alice) (srv "f0" 1)])
              page.

End Sample.

(* ================================================================== *)
(** ** What handlers maintain *)

Module Maintained.
Import JS Component.

Section Keeps.

(** A property [I] of the world that handlers maintain and a property [P]
    of the events they produce; [Q] is what is known of the result. *)
Variable I : World -> Prop.
Variable P : Event -> Prop.

Definition keeps {A} (m : M A) (Q : A -> Prop) : Prop :=
  forall w, I w ->
    I (snd (fst (m w))) /\ Forall P (snd (m w)) /\ Q (fst (fst (m w))).

End Keeps.

Section Descriptors.

(** A property of descriptors as typed arrays and the matching property
    of descriptors as stored arrays of numbers. *)
Variable okF : Float32Array -> Prop.
Variable okN : list number -> Prop.

(** A stored array is judged by the numbers its elements convert to. *)
Definition row_ok (r : Row) : Prop :=
  okN (List.map ToNumber (Backend.descriptor r)).

Definition render_ok (r : State) : Prop := Forall row_ok (savedFaces r).

Definition option_ok {A} (ok : A -> Prop) (o : option A) : Prop :=
  match o with Some a => ok a | None => True end.

Definition video_ok (v : Video) : Prop :=
  option_ok render_ok (onloadedmetadata v).

Definition Inv (w : World) : Prop :=
  Forall row_ok (faces w) /\
  render_ok (state w) /\
  option_ok okF (currentDescriptorRef w) /\
  Forall render_ok (raf w) /\
  option_ok video_ok (videoRef w).

(** The requests the component builds: a select of one user's rows, newest
    first; an insert; a delete by row id. *)
Definition request_ok (q : Backend.Request) : Prop :=
  match q with
  | Backend.Select [(Backend.col_user_id, _)] (Some false) => True
  | Backend.Insert v => okN (Backend.v_descriptor v)
  | Backend.Delete [(Backend.col_id, _)] => True
  | _ => False
  end.

Definition event_ok (e : Event) : Prop :=
  match e with
  | FindBestMatch inputs _ query =>
      Forall (fun i => Forall okF (descriptors i)) inputs /\ okF query
  | Fetch _ q => request_ok q
  | _ => True
  end.

End Descriptors.

(** The three shapes of request above, whatever the descriptor. *)
Definition client_operation (q : Backend.Request) : Prop :=
  request_ok (fun _ => True) q.

Definition only_client_operations (e : Event) : Prop :=
  match e with
  | Fetch _ q => client_operation q
  | _ => True
  end.

(** The tracks of the stream a ref holds. *)
Definition tracks_of (o : option MediaStream) : list Track :=
  match o with Some stream => stream | None => [] end.

End Maintained.

(* ================================================================== *)
(** ** The sign-in page ([src/pages/Auth.tsx]) and the sign-out button *)

Module AuthPage.
Import JS.

Record State := {
  email : jsstring;
  password : jsstring;
  isLogin : bool;
  loading : bool
}.

Definition initialState : State :=
  {| email := []; password := []; isLogin := true; loading := false |}.

Definition setLoading (b : bool) (s : State) : State :=
  {| email := email s; password := password s; isLogin := isLogin s;
     loading := b |}.

(** Whatever the auth call returned as [error] or threw: the page reads its
    [message] only, which a thrown value need not have. *)
Record AuthError := { message : option jsstring }.

Inductive Event :=
| Toast (t : Component.ToastProps)
| SignInWithPassword (email password : jsstring)
| SignUp (email password emailRedirectTo : jsstring)
| SignOut
| Navigate (path : jsstring).

(** [error.message || "An error occurred"] *)
Definition shown_message (e : AuthError) : jsstring :=
  match message e with
  | Some m => if truthy m then m else str "An error occurred"
  | None => str "An error occurred"
  end.

(** [origin] is [window.location.origin]; [reply] is the error the auth
    service answers (or the call throws), if any. *)
Definition handleAuth (origin : jsstring) (reply : option AuthError)
           (s : State) : State * list Event :=
  if negb (truthy (email s)) || negb (truthy (password s)) then
    (s, [Toast {| Component.title := str "Error";
                  Component.description := str "Please fill in all fields";
                  Component.variant := Component.destructive |}])
  else
    let s1 := setLoading true s in
    let call :=
      if isLogin s
      then SignInWithPassword (email s) (password s)
      else SignUp (email s) (password s) (origin ++ str "/") in
    let shown :=
      match reply with
      | Some error =>
          {| Component.title := str "Error";
             Component.description := shown_message error;
             Component.variant := Component.destructive |}
      | None =>
          {| Component.title := str "Success";
             Component.description :=
               if isLogin s then str "Logged in successfully"
               else str "Account created successfully";
             Component.variant := Component.default |}
      end in
    (setLoading false s1, [call; Toast shown]).

Definition contacts_service (e : Event) : bool :=
  match e with
  | SignInWithPassword _ _ | SignUp _ _ _ | SignOut => true
  | _ => false
  end.

Definition is_toast (e : Event) : bool :=
  match e with Toast _ => true | _ => false end.

(** The callback of [onAuthStateChange] on the sign-in page. *)
Definition onAuthStateChange (event : jsstring) (session : option Auth.Session)
  : list Event :=
  match session with
  | Some _ => if jseqb event (str "SIGNED_IN") then [Navigate (str "/")] else []
  | None => []
  end.

(** [handleLogout] of the index page: the result of [signOut] is not
    looked at. *)
Definition handleLogout (reply : option AuthError) : list Event :=
  [SignOut; Navigate (str "/auth")].

End AuthPage.

(* ================================================================== *)
(** ** Notions used to state further properties *)

Module Notions.
Import JS Component Maintained.

(** The closure of a render in which the camera is off. *)
Definition closure_off (r : State) : Prop := isCameraOn r = false.

(** The component before any frame has been processed: nothing waits for
    an animation frame, no descriptor is captured, the video element shows
    the stream the ref holds and its metadata handler, if set, belongs to a
    render with the camera off, the camera flag tells whether a stream is
    held, and what the overlay displays is still initial. *)
Definition Idle (w : World) : Prop :=
  raf w = [] /\
  currentDescriptorRef w = None /\
  (exists v, videoRef w = Some v /\ srcObject v = streamRef w /\
             option_ok closure_off (onloadedmetadata v)) /\
  isCameraOn (state w) = isSome (streamRef w) /\
  faceCount (state w) = 0%nat /\
  currentEmotion (state w) = [] /\
  matchedFace (state w) = [] /\
  showSaveInput (state w) = false /\
  faceName (state w) = [].

(** Events of the detection loop. *)
Definition detection_event (e : Event) : bool :=
  match e with
  | DetectAllFaces _ | MatchDimensions _ | FindBestMatch _ _ _ | Draw _
  | RequestAnimationFrame => true
  | _ => false
  end.

Definition insert_event (e : Event) : bool :=
  match e with
  | Fetch _ (Backend.Insert _) => true
  | _ => false
  end.

Definition quiet (e : Event) : Prop :=
  detection_event e = false /\ insert_event e = false.

(** The same, on a table that holds no row beyond those of [t]. *)
Definition IdleOn (t : Backend.Table) (w : World) : Prop :=
  Idle w /\ incl (faces w) t.

(** Events that reach the user or the backend. *)
Definition outward_event (e : Event) : bool :=
  match e with
  | Toast _ | ConsoleError _ _ | Fetch _ _ | GetUserMedia | TrackStop _
  | LoadFromUri _ _ => true
  | _ => false
  end.

(** Requests that add or change no row. *)
Definition removes_only (q : Backend.Request) : Prop :=
  match q with
  | Backend.Select _ _ | Backend.Delete _ => True
  | _ => False
  end.

Definition is_nan (x : number) : bool :=
  match x with S754_nan => true | _ => false end.

(** A key on which the order of non-NaN numbers is lexicographic. *)
Definition rank (x : number) : Z * Z * Z :=
  match x with
  | S754_nan => (0, 0, 0)
  | S754_zero _ => (0, 0, 0)
  | S754_infinity true => (-2, 0, 0)
  | S754_infinity false => (2, 0, 0)
  | S754_finite true m e => (-1, - e, Zneg m)
  | S754_finite false m e => (1, e, Zpos m)
  end.

Definition lex_lt (a b : Z * Z * Z) : Prop :=
  let '(a1, a2, a3) := a in
  let '(b1, b2, b3) := b in
  a1 < b1 \/ (a1 = b1 /\ (a2 < b2 \/ (a2 = b2 /\ a3 < b3))).

(** [Object.entries(expressions)] *)
Definition entries (e : FaceExpressions) : list (jsstring * number) :=
  first_entry e :: other_entries e.

(** Newest first. *)
Definition newer_or_equal (a b : Backend.Row) : Prop :=
  Backend.created_at b <= Backend.created_at a.

Definition ids (t : Backend.Table) : list jsstring := List.map Backend.id t.

End Notions.

(* ================================================================== *)
(** ** Facts about JavaScript values *)

Module JSFacts.
Import JS.

Lemma jseqb_eq (a b : jsstring) : jseqb a b = true <-> a = b.
Proof.
  revert b; induction a as [|x a IH]; intros [|y b]; simpl;
    try (split; [discriminate | discriminate]); try tauto.
  rewrite andb_true_iff, N.eqb_eq, IH.
  split; [intros [-> ->]; reflexivity | intros H; inversion H; auto].
Qed.

Lemma jseqb_refl (a : jsstring) : jseqb a a = true.
Proof. apply jseqb_eq; reflexivity. Qed.

Lemma jseqb_neq (a b : jsstring) : a <> b -> jseqb a b = false.
Proof.
  intros H; destruct (jseqb a b) eqn:E; [|reflexivity].
  apply jseqb_eq in E; contradiction.
Qed.

(** *** binary32 -> binary64 -> binary32 *)

Lemma iter_pos_iter {A} (f : A -> A) (p : positive) (x : A) :
  iter_pos f p x = Pos.iter f x p.
Proof.
  revert x; induction p as [p IH|p IH|]; intros x; simpl.
  - rewrite !IH, <- !Pos.iter_swap. reflexivity.
  - rewrite !IH. reflexivity.
  - reflexivity.
Qed.

Lemma digits2_shift (m k : positive) :
  Zpos (digits2_pos (Pos.iter xO m k)) = Zpos (digits2_pos m) + Zpos k.
Proof.
  induction k using Pos.peano_ind.
  - simpl. lia.
  - rewrite Pos.iter_succ. simpl digits2_pos. lia.
Qed.

Lemma shr_1_xO (m : positive) :
  shr_1 (Build_shr_record (Zpos (xO m)) false false)
  = Build_shr_record (Zpos m) false false.
Proof. reflexivity. Qed.

Lemma shr_shift (m k : positive) :
  Pos.iter shr_1 (Build_shr_record (Zpos (Pos.iter xO m k)) false false) k
  = Build_shr_record (Zpos m) false false.
Proof.
  induction k using Pos.peano_ind.
  - reflexivity.
  - rewrite Pos.iter_succ_r, Pos.iter_succ, shr_1_xO. exact IHk.
Qed.

(** A mantissa that is canonical at its exponent goes through
    [binary_round_aux] untouched. *)
Lemma binary_round_aux_canonical prec emax s m e :
  bounded prec emax m e = true ->
  binary_round_aux prec emax s (Zpos m) e loc_Exact = S754_finite s m e.
Proof.
  unfold bounded, canonical_mantissa. intros H.
  apply andb_true_iff in H. destruct H as [Hc He].
  apply Z.eqb_eq in Hc.
  unfold binary_round_aux, shr_fexp. simpl Zdigits2.
  rewrite Hc, Z.sub_diag.
  cbn [shr shr_record_of_loc shr_m loc_of_shr_record round_nearest_even Zdigits2].
  rewrite Hc, Z.sub_diag.
  cbn [shr shr_record_of_loc shr_m].
  rewrite He. reflexivity.
Qed.

Lemma to_number_finite s m e :
  bounded prec32 emax32 m e = true ->
  exists m' e',
    to_number (S754_finite s m e) = S754_finite s m' e' /\
    bounded prec64 emax64 m' e' = true /\
    exists k, m' = Pos.iter xO m k /\ e = e' + Zpos k.
Proof.
  intros H. unfold bounded, canonical_mantissa in H.
  apply andb_true_iff in H. destruct H as [Hc He].
  apply Z.eqb_eq in Hc. apply Z.leb_le in He.
  unfold fexp, emin, prec32, emax32 in *.
  pose proof (Pos2Z.is_pos (digits2_pos m)) as Hd.
  unfold to_number, binary_round, shl_align.
  set (d := Zpos (digits2_pos m)) in *.
  assert (Hf : fexp prec64 emax64 (d + e) = d + e - 53)
    by (unfold fexp, emin, prec64, emax64; lia).
  rewrite Hf.
  destruct (d + e - 53 - e) eqn:Ek; try lia.
  exists (Pos.iter xO m p), (d + e - 53).
  assert (Hb : bounded prec64 emax64 (Pos.iter xO m p) (d + e - 53) = true).
  { unfold bounded, canonical_mantissa.
    rewrite digits2_shift. fold d.
    apply andb_true_iff; split.
    - apply Z.eqb_eq. unfold fexp, emin, prec64, emax64. lia.
    - apply Z.leb_le. unfold prec64, emax64. lia. }
  split; [apply binary_round_aux_canonical; exact Hb|].
  split; [exact Hb|].
  exists p. split; [reflexivity | lia].
Qed.

Lemma fround_shifted s m e k :
  bounded prec32 emax32 m e = true ->
  fround (S754_finite s (Pos.iter xO m k) (e - Zpos k)) = S754_finite s m e.
Proof.
  intros H. pose proof H as Hb.
  unfold bounded, canonical_mantissa in H.
  apply andb_true_iff in H. destruct H as [Hc He].
  apply Z.eqb_eq in Hc.
  unfold fround, binary_round, shl_align.
  rewrite digits2_shift.
  replace (Zpos (digits2_pos m) + Zpos k + (e - Zpos k))
    with (Zpos (digits2_pos m) + e) by lia.
  rewrite Hc.
  destruct (e - (e - Zpos k)) eqn:Ek; try lia.
  unfold binary_round_aux at 1, shr_fexp at 1. simpl Zdigits2.
  rewrite digits2_shift.
  replace (Zpos (digits2_pos m) + Zpos k + (e - Zpos k))
    with (Zpos (digits2_pos m) + e) by lia.
  rewrite Hc, Ek. unfold shr, shr_record_of_loc.
  rewrite iter_pos_iter.
  assert (p = k) by lia. subst p.
  rewrite shr_shift. simpl shr_m. simpl loc_of_shr_record.
  simpl round_nearest_even.
  replace (e - Zpos k + Zpos k) with e by lia.
  unfold shr_fexp. simpl Zdigits2. rewrite Hc, Z.sub_diag.
  cbn [shr shr_record_of_loc shr_m]. rewrite He. reflexivity.
Qed.

Lemma fround_to_number (x : float32) :
  is_float32 x = true -> fround (to_number x) = x.
Proof.
  destruct x as [s|s| |s m e]; try reflexivity.
  intros H. unfold is_float32, valid_binary in H.
  destruct (@to_number_finite s _ _ H) as (m' & e' & -> & _ & (k & -> & ->)).
  replace e' with (e' + Zpos k - Zpos k) at 1 by lia.
  apply fround_shifted. exact H.
Qed.

Lemma to_number_valid (x : float32) :
  is_float32 x = true -> is_number (to_number x) = true.
Proof.
  destruct x as [s|s| |s m e]; try reflexivity.
  intros H. unfold is_float32, valid_binary in H.
  destruct (@to_number_finite s _ _ H) as (m' & e' & -> & Hb & _). exact Hb.
Qed.

Lemma Float32Array_new_from (d : Float32Array) :
  forallb is_float32 d = true -> Float32Array_new (Array_from d) = d.
Proof.
  unfold Float32Array_new, Array_from.
  induction d as [|x d IH]; simpl; [reflexivity|].
  intros H. apply andb_true_iff in H. destruct H as [Hx Hd].
  rewrite (fround_to_number _ Hx), (IH Hd). reflexivity.
Qed.

(** *** Float32Array -> number[] -> JSON -> Float32Array *)

Lemma fround_through_json (x : float32) :
  is_float32 x = true ->
  fround (ToNumber (to_json (to_number x))) = reloaded x.
Proof.
  destruct x as [s|s| |s m e]; try (destruct s; reflexivity); try reflexivity.
  intros H. unfold is_float32, valid_binary in H.
  pose proof (@fround_to_number (S754_finite s m e) H) as Hr.
  destruct (@to_number_finite s _ _ H) as (m' & e' & Hn & _).
  rewrite Hn in *. exact Hr.
Qed.

Lemma Float32Array_new_through_json (d : Float32Array) :
  forallb is_float32 d = true ->
  Float32Array_new (List.map ToNumber (List.map to_json (Array_from d)))
  = List.map reloaded d.
Proof.
  unfold Float32Array_new, Array_from.
  induction d as [|x d IH]; simpl; [reflexivity|].
  intros H. apply andb_true_iff in H. destruct H as [Hx Hd].
  rewrite (fround_through_json _ Hx), (IH Hd). reflexivity.
Qed.

Lemma reloaded_same (x : float32) :
  reloaded x = x <-> survives_json x = true.
Proof.
  unfold reloaded.
  destruct x as [[|]|s| |s m e]; cbn; split; intros H;
    try reflexivity; discriminate H.
Qed.

Lemma map_reloaded_same (d : Float32Array) :
  List.map reloaded d = d <-> forallb survives_json d = true.
Proof.
  induction d as [|x d IH]; simpl; [split; reflexivity|].
  rewrite andb_true_iff, <- IH, <- reloaded_same. split.
  - intros H. injection H as Hx Hd. split; assumption.
  - intros [Hx Hd]. rewrite Hx, Hd. reflexivity.
Qed.

Lemma through_json_length (a : list number) :
  List.length (List.map ToNumber (List.map to_json a)) = List.length a.
Proof. rewrite !length_map. reflexivity. Qed.

Lemma Array_from_length (d : Float32Array) :
  List.length (Array_from d) = List.length d.
Proof. apply length_map. Qed.

Lemma Float32Array_new_length (a : list number) :
  List.length (Float32Array_new a) = List.length a.
Proof. apply length_map. Qed.

End JSFacts.

(* ================================================================== *)
(** ** Facts about the backend *)

Module BackendFacts.
Import JS JSFacts Backend.

Lemma uid_is_owner_iff (u : uuid) (r : Row) :
  uid_is_owner (Some u) r = true <-> user_id r = u.
Proof.
  simpl. rewrite jseqb_eq. split; congruence.
Qed.

Lemma uid_is_owner_other (u v : uuid) (r : Row) :
  u <> v -> uid_is_owner (Some u) r = true -> jseqb (user_id r) v = false.
Proof.
  intros Huv H. apply uid_is_owner_iff in H. apply jseqb_neq. congruence.
Qed.

Lemma In_insert_sorted le x y l :
  In y (insert_sorted le x l) <-> y = x \/ In y l.
Proof.
  induction l as [|z l IH]; simpl.
  - intuition.
  - destruct (le x z); simpl; rewrite ?IH; intuition.
Qed.

Lemma In_sort_rows le y l : In y (sort_rows le l) <-> In y l.
Proof.
  induction l as [|x l IH]; simpl; [tauto|].
  rewrite In_insert_sorted, IH. intuition.
Qed.

Lemma In_order_by o y l : In y (order_by o l) <-> In y l.
Proof.
  destruct o as [[|]|]; simpl; try apply In_sort_rows; tauto.
Qed.

(** What a SELECT returns to [uid] are rows of the table that pass the
    SELECT policy and the filters. *)
Lemma select_rows uid srv fs o t rows y :
  data (snd (exec uid srv (Select fs o) t)) = Some rows ->
  In y rows <-> (In y t /\ policy_select uid y = true /\ matches fs y = true).
Proof.
  simpl. intros H. inversion H; subst rows; clear H.
  rewrite In_order_by, filter_In, andb_true_iff. tauto.
Qed.

(** Rows that are not the caller's come out of UPDATE untouched. *)
Lemma update_keeps_others (u v : uuid) srv p fs (t : Table) :
  u <> v ->
  forallb (fun r =>
    negb (policy_select (Some u) r && policy_update (Some u) r && matches fs r)
    || policy_update_check (Some u) (patched srv p r)) t = true ->
  owned_by v
    (List.map (fun r =>
       if policy_select (Some u) r && policy_update (Some u) r && matches fs r
       then patched srv p r else r) t)
  = owned_by v t.
Proof.
  intros Huv. unfold owned_by.
  induction t as [|r t IH]; cbn [List.map filter forallb]; [reflexivity|].
  intros H. apply andb_true_iff in H. destruct H as [Hr Ht].
  rewrite (IH Ht). clear IH Ht.
  destruct (policy_select (Some u) r && policy_update (Some u) r && matches fs r)
    eqn:Hit; cbn [negb orb] in Hr.
  - apply andb_true_iff in Hit. destruct Hit as [Hit _].
    apply andb_true_iff in Hit. destruct Hit as [Hsel _].
    rewrite (@uid_is_owner_other u v _ Huv Hr), (@uid_is_owner_other u v _ Huv Hsel).
    reflexivity.
  - reflexivity.
Qed.

Lemma delete_keeps_others (u v : uuid) fs (t : Table) :
  u <> v ->
  owned_by v
    (filter (fun r =>
       negb (policy_select (Some u) r && policy_delete (Some u) r
             && matches fs r)) t)
  = owned_by v t.
Proof.
  intros Huv. unfold owned_by.
  induction t as [|r t IH]; cbn [filter]; [reflexivity|].
  destruct (policy_select (Some u) r && policy_delete (Some u) r && matches fs r)
    eqn:Hit; cbn [negb filter]; rewrite IH.
  - apply andb_true_iff in Hit. destruct Hit as [Hit _].
    apply andb_true_iff in Hit. destruct Hit as [Hsel _].
    rewrite (@uid_is_owner_other u v _ Huv Hsel). reflexivity.
  - reflexivity.
Qed.

Lemma exec_keeps_others (u v : uuid) srv q (t : Table) :
  u <> v -> owned_by v (fst (exec (Some u) srv q t)) = owned_by v t.
Proof.
  intros Huv. destruct q as [fs o|vals|p fs|fs]; unfold exec.
  - reflexivity.
  - destruct (policy_insert (Some u) (new_row srv vals)) eqn:Hp;
      cbn [negb fst]; [|reflexivity].
    destruct (existsb _ t); cbn [fst]; [reflexivity|].
    unfold owned_by. rewrite filter_app. cbn [filter].
    rewrite (@uid_is_owner_other u v _ Huv Hp). apply app_nil_r.
  - match goal with |- context [if ?b then _ else _] => destruct b eqn:Hall end;
      cbn [fst]; [|reflexivity].
    apply update_keeps_others; assumption.
  - apply delete_keeps_others; assumption.
Qed.

Lemma exec_reads_own (u : uuid) srv q (t : Table) rows :
  data (snd (exec (Some u) srv q t)) = Some rows ->
  Forall (fun r => user_id r = u) rows.
Proof.
  destruct q as [fs o|vals|p fs|fs]; unfold exec.
  - intros H. apply Forall_forall. intros y Hy.
    apply (@select_rows (Some u) srv fs o t rows y H) in Hy.
    destruct Hy as (_ & Hp & _). apply uid_is_owner_iff. exact Hp.
  - destruct (negb _); [discriminate|]. destruct (existsb _ _); discriminate.
  - match goal with |- context [if ?b then _ else _] => destruct b end;
      discriminate.
  - discriminate.
Qed.

(** Under the DELETE policy, rows that are not the caller's stay. *)
Lemma delete_keeps_foreign (u : uuid) fs (t : Table) :
  filter (fun r => negb (jseqb (user_id r) u))
         (fst (exec (Some u) {| fresh_id := []; now := 0 |} (Delete fs) t))
  = filter (fun r => negb (jseqb (user_id r) u)) t.
Proof.
  unfold exec. cbn [fst].
  induction t as [|r t IH]; cbn [filter]; [reflexivity|].
  destruct (policy_select (Some u) r && policy_delete (Some u) r && matches fs r)
    eqn:Hit; cbn [negb filter]; rewrite IH.
  - apply andb_true_iff in Hit. destruct Hit as [Hit _].
    apply andb_true_iff in Hit. destruct Hit as [Hsel _].
    apply uid_is_owner_iff in Hsel. rewrite Hsel, jseqb_refl. reflexivity.
  - reflexivity.
Qed.

End BackendFacts.

(* ================================================================== *)
(** ** Reasoning about handlers *)

Module Triples.
Import JS Component Maintained.

Section Keeps.

Variable I : World -> Prop.
Variable P : Event -> Prop.

Local Abbreviation keeps := (keeps I P).

Lemma keeps_ret {A} (a : A) (Q : A -> Prop) : Q a -> keeps (ret a) Q.
Proof. intros Ha w Hw. simpl. auto. Qed.

Lemma keeps_bind {A B} (m : M A) (k : A -> M B) Q R :
  keeps m Q -> (forall a, Q a -> keeps (k a) R) -> keeps (bind m k) R.
Proof.
  intros Hm Hk w Hw. unfold bind.
  specialize (Hm w Hw). destruct (m w) as [[a w1] e1]. simpl in Hm.
  destruct Hm as (H1 & He1 & Ha).
  specialize (Hk a Ha w1 H1). destruct (k a w1) as [[b w2] e2]. simpl in *.
  destruct Hk as (H2 & He2 & Hb).
  repeat split; auto. apply Forall_app; auto.
Qed.

Lemma keeps_then {A B} (m : M A) (k : M B) R :
  keeps m (fun _ => True) -> keeps k R -> keeps (bind m (fun _ => k)) R.
Proof.
  intros Hm Hk. eapply keeps_bind; [exact Hm|]. intros _ _. exact Hk.
Qed.

Lemma keeps_get : keeps get I.
Proof. intros w Hw. simpl. auto. Qed.

Lemma keeps_modify (f : World -> World) (Q : unit -> Prop) :
  (forall w, I w -> I (f w)) -> Q tt -> keeps (modify f) Q.
Proof. intros Hf Hq w Hw. simpl. auto. Qed.

Lemma keeps_emit (e : Event) (Q : unit -> Prop) :
  P e -> Q tt -> keeps (emit e) Q.
Proof. intros He Hq w Hw. simpl. auto. Qed.

Lemma keeps_when (b : bool) (m : M unit) :
  keeps m (fun _ => True) -> keeps (when b m) (fun _ => True).
Proof.
  intros Hm. destruct b; simpl; [exact Hm | apply keeps_ret; exact Logic.I].
Qed.

Lemma keeps_forEach {A} (l : list A) (f : A -> M unit) :
  (forall a, In a l -> keeps (f a) (fun _ => True)) ->
  keeps (forEach l f) (fun _ => True).
Proof.
  induction l as [|a l IH]; intros H; simpl.
  - apply keeps_ret; exact Logic.I.
  - apply keeps_then.
    + apply H. left; reflexivity.
    + apply IH. intros b Hb. apply H. right; exact Hb.
Qed.

End Keeps.

End Triples.

(* ================================================================== *)
(** ** What the component maintains about descriptors and requests *)

Module Invariant.
Import JS JSFacts Component Maintained Triples.

Section Descriptors.

Variable detectAllFaces : Detect.
Variable resizeResults : Resize.
Variable findBestMatch : Match.

Variable okF : Float32Array -> Prop.
Variable okN : list number -> Prop.

Hypothesis okN_Array_from : forall d, okF d -> okN (Array_from d).
Hypothesis okN_json :
  forall a, okN a -> okN (List.map ToNumber (Backend.jsonb a)).
Hypothesis okF_Float32Array_new : forall a, okN a -> okF (Float32Array_new a).
Hypothesis okF_model :
  forall f dims,
    Forall (fun d => okF (descriptor d)) (resizeResults (detectAllFaces f) dims).

Local Abbreviation row_ok := (row_ok okN).
Local Abbreviation render_ok := (render_ok okN).
Local Abbreviation video_ok := (video_ok okN).
Local Abbreviation Inv := (Inv okF okN).
Local Abbreviation request_ok := (request_ok okN).
Local Abbreviation event_ok := (event_ok okF okN).
Local Abbreviation keeps := (keeps Inv event_ok).

Lemma Forall_filter {A} (Q : A -> Prop) f (l : list A) :
  Forall Q l -> Forall Q (filter f l).
Proof.
  intros H. apply Forall_forall. intros a Ha. apply filter_In in Ha.
  destruct Ha as [Ha _]. revert a Ha. apply Forall_forall. exact H.
Qed.

Lemma exec_rows_ok uid srv q t :
  request_ok q -> Forall row_ok t ->
  Forall row_ok (fst (Backend.exec uid srv q t)) /\
  option_ok (Forall row_ok) (Backend.data (snd (Backend.exec uid srv q t))).
Proof.
  intros Hq Ht. destruct q as [fs o|v|p fs|fs]; unfold Backend.exec.
  - split; [exact Ht|]. cbn [snd Backend.ok Backend.data option_ok].
    apply Forall_forall. intros y Hy.
    apply BackendFacts.In_order_by, filter_In in Hy. destruct Hy as [Hy _].
    revert y Hy. apply Forall_forall. exact Ht.
  - repeat match goal with
           | |- context [if ?b then _ else _] =>
               destruct b; [split; [exact Ht | exact Logic.I]|]
           end.
    split; [|exact Logic.I]. cbn [fst]. apply Forall_app. split; [exact Ht|].
    constructor; [apply okN_json; exact Hq | constructor].
  - destruct Hq.
  - split; [|exact Logic.I]. cbn [fst]. apply Forall_filter. exact Ht.
Qed.

Lemma call_rows_ok svc uid q t :
  request_ok q -> Forall row_ok t ->
  Forall row_ok (fst (Backend.call svc uid q t)) /\
  option_ok (Forall row_ok) (Backend.data (snd (Backend.call svc uid q t))).
Proof.
  intros Hq Ht. unfold Backend.call. destruct (Backend.fault svc).
  - split; [exact Ht | exact Logic.I].
  - apply exec_rows_ok; assumption.
Qed.

Lemma keeps_supabase svc q :
  request_ok q ->
  keeps (supabase svc q)
        (fun resp => option_ok (Forall row_ok) (Backend.data resp)).
Proof.
  intros Hq w Hw. unfold supabase, bind, get, emit, modify, ret.
  destruct Hw as (Hf & Hs & Hd & Hr & Hv).
  destruct (call_rows_ok svc (Auth.uid (auth w)) q Hq Hf) as [Ht Hdata].
  destruct (Backend.call svc (Auth.uid (auth w)) q (faces w)) as [t resp].
  cbn in *. repeat split; auto.
Qed.

Lemma keeps_setState (f : State -> State) :
  (forall s, render_ok s -> render_ok (f s)) ->
  keeps (setState f) (fun _ => True).
Proof.
  intros Hf. apply keeps_modify; [|exact Logic.I].
  intros w (H1 & H2 & H3 & H4 & H5). repeat split; auto.
  apply Hf. exact H2.
Qed.

Ltac set_state :=
  apply keeps_setState;
  let s := fresh "s" in let Hs := fresh "Hs" in intros s Hs; exact Hs.

Lemma keeps_toast t : keeps (toast t) (fun _ => True).
Proof. apply keeps_emit; exact Logic.I. Qed.

Lemma keeps_console_error what e : keeps (console_error what e) (fun _ => True).
Proof. apply keeps_emit; exact Logic.I. Qed.

Lemma keeps_unit : keeps (ret tt) (fun _ => True).
Proof. apply keeps_ret. exact Logic.I. Qed.

Lemma keeps_loadModels thrown : keeps (loadModels thrown) (fun _ => True).
Proof.
  unfold loadModels. apply keeps_then.
  - apply keeps_forEach. intros n _. apply keeps_emit; exact Logic.I.
  - destruct thrown.
    + apply keeps_then; [apply keeps_console_error | apply keeps_toast].
    + apply keeps_then; [unfold setIsModelLoaded; set_state | apply keeps_toast].
Qed.

Lemma keeps_loadSavedFaces r svc : keeps (loadSavedFaces r svc) (fun _ => True).
Proof.
  unfold loadSavedFaces. destruct (session r) as [s|]; [|apply keeps_unit].
  eapply keeps_bind; [apply keeps_supabase; exact Logic.I|].
  intros [data error] Hresp. cbn [Backend.error Backend.data] in *.
  destruct error.
  - apply keeps_console_error.
  - destruct data as [rows|]; [|apply keeps_unit].
    cbn [option_ok] in Hresp.
    apply keeps_setState. intros s0 _. unfold render_ok. cbn [savedFaces].
    apply Forall_forall. intros y Hy. apply in_map_iff in Hy.
    destruct Hy as (x & <- & Hx). unfold row_ok, as_saved_face.
    cbn [Backend.descriptor].
    rewrite Forall_forall in Hresp. apply Hresp. exact Hx.
Qed.

Lemma keeps_stopCamera : keeps stopCamera (fun _ => True).
Proof.
  unfold stopCamera.
  eapply keeps_bind; [apply keeps_get|]. intros w Hw.
  apply keeps_then.
  { destruct (streamRef w); [|apply keeps_unit].
    apply keeps_then.
    - apply keeps_forEach. intros t _.
      apply keeps_then; [apply keeps_emit; exact Logic.I|].
      apply keeps_modify; [|exact Logic.I].
      intros w0 H0. exact H0.
    - apply keeps_modify; [|exact Logic.I].
      intros w0 H0. exact H0. }
  eapply keeps_bind; [apply keeps_get|]. intros w1 Hw1.
  apply keeps_then.
  { destruct (videoRef w1) as [video|] eqn:Ev; [|apply keeps_unit].
    apply keeps_modify; [|exact Logic.I].
    intros w0 (H1 & H2 & H3 & H4 & H5). repeat split; auto.
    destruct Hw1 as (_ & _ & _ & _ & Hv). rewrite Ev in Hv. exact Hv. }
  apply keeps_then; [unfold setIsCameraOn; set_state|].
  apply keeps_then; [unfold setIsDetecting; set_state|].
  apply keeps_then; [unfold setFaceCount; set_state|].
  apply keeps_then; [unfold setCurrentEmotion; set_state|].
  unfold setMatchedFace; set_state.
Qed.

Ltac k_emit := apply keeps_emit; [exact Logic.I | exact Logic.I].

Ltac k_modify :=
  apply keeps_modify;
  [ let w0 := fresh "w" in
    intros w0 (?H & ?H & ?H & ?H & ?H); repeat split; auto
  | exact Logic.I ].

Lemma labeled_ok (l : list SavedFace) :
  Forall row_ok l -> Forall (fun i => Forall okF (descriptors i)) (labeled l).
Proof.
  intros H. unfold labeled. apply Forall_forall. intros i Hi.
  apply in_map_iff in Hi. destruct Hi as (face & <- & Hface).
  cbn [descriptors]. constructor; [|constructor].
  apply okF_Float32Array_new. revert face Hface. apply Forall_forall. exact H.
Qed.

Lemma keeps_processFirstDetection r resized :
  render_ok r -> Forall (fun d => okF (descriptor d)) resized ->
  keeps (processFirstDetection findBestMatch r resized) (fun _ => True).
Proof.
  intros Hr Hm. unfold processFirstDetection.
  destruct resized as [|detection rest].
  - apply keeps_then; [unfold setCurrentEmotion; set_state|].
    apply keeps_then; [unfold setMatchedFace; set_state|].
    k_modify.
  - apply Forall_cons_iff in Hm. destruct Hm as [Hd _].
    apply keeps_then; [unfold setCurrentEmotion; set_state|].
    apply keeps_then; [k_modify|].
    destruct (savedFaces r) as [|face saved] eqn:Es; [apply keeps_unit|].
    destruct (session r); [|apply keeps_unit].
    apply keeps_then.
    + apply keeps_emit; [|exact Logic.I]. split; [|exact Hd].
      apply labeled_ok. rewrite <- Es. exact Hr.
    + unfold setMatchedFace; set_state.
Qed.

Lemma keeps_detectFaces r :
  render_ok r ->
  keeps (detectFaces detectAllFaces resizeResults findBestMatch r)
        (fun _ => True).
Proof.
  intros Hr. unfold detectFaces.
  eapply keeps_bind; [apply keeps_get|]. intros w Hw.
  destruct (videoRef w) as [video|]; [|apply keeps_unit].
  destruct (canvasRef w) as [canvas|]; [|apply keeps_unit].
  destruct (negb (isCameraOn r)); [apply keeps_unit|].
  apply keeps_then; [k_emit|].
  apply keeps_then; [k_emit|].
  apply keeps_then; [k_modify|].
  apply keeps_then; [apply keeps_when; k_emit|].
  apply keeps_then.
  { apply keeps_processFirstDetection; [exact Hr | apply okF_model]. }
  apply keeps_then.
  { apply keeps_forEach. intros d _. apply keeps_when.
    apply keeps_forEach. intros c _. k_emit. }
  apply keeps_then; [unfold setFaceCount; set_state|].
  apply keeps_when. apply keeps_then; [k_emit|].
  apply keeps_modify; [|exact Logic.I].
  intros w0 (H1 & H2 & H3 & H4 & H5). repeat split; auto.
  cbn [raf with_raf]. apply Forall_app. split; [exact H4|].
  constructor; [exact Hr | constructor].
Qed.

Lemma keeps_startDetection r :
  render_ok r ->
  keeps (startDetection detectAllFaces resizeResults findBestMatch r)
        (fun _ => True).
Proof.
  intros Hr. unfold startDetection.
  eapply keeps_bind; [apply keeps_get|]. intros w Hw.
  destruct (videoRef w); [|apply keeps_unit].
  destruct (canvasRef w); [|apply keeps_unit].
  destruct (negb (isModelLoaded r)); [apply keeps_unit|].
  apply keeps_then; [unfold setIsDetecting; set_state|].
  apply keeps_detectFaces. exact Hr.
Qed.

Lemma keeps_startCamera r granted :
  render_ok r -> keeps (startCamera r granted) (fun _ => True).
Proof.
  intros Hr. unfold startCamera. apply keeps_then; [k_emit|].
  destruct granted as [error|stream].
  - apply keeps_then; [apply keeps_console_error | apply keeps_toast].
  - eapply keeps_bind; [apply keeps_get|]. intros w Hw.
    destruct (videoRef w) as [video|] eqn:Ev; [|apply keeps_unit].
    apply keeps_then.
    { apply keeps_modify; [|exact Logic.I].
      intros w0 (H1 & H2 & H3 & H4 & H5). repeat split; auto.
      destruct Hw as (_ & _ & _ & _ & Hv). rewrite Ev in Hv. exact Hv. }
    apply keeps_then; [k_modify|].
    apply keeps_then; [unfold setIsCameraOn; set_state|].
    apply keeps_modify; [|exact Logic.I].
    intros w0 (H1 & H2 & H3 & H4 & H5). repeat split; auto.
    cbn [videoRef with_videoRef]. destruct (videoRef w0); [|exact Logic.I].
    exact Hr.
Qed.

Lemma keeps_toggleCamera r granted :
  render_ok r -> keeps (toggleCamera r granted) (fun _ => True).
Proof.
  intros Hr. unfold toggleCamera. destruct (isCameraOn r).
  - apply keeps_stopCamera.
  - apply keeps_startCamera. exact Hr.
Qed.

Lemma keeps_handleSaveFace r ins sel :
  keeps (handleSaveFace r ins sel) (fun _ => True).
Proof.
  unfold handleSaveFace. destruct (session r) as [s|]; [|apply keeps_toast].
  eapply keeps_bind; [apply keeps_get|]. intros w Hw.
  destruct Hw as (_ & _ & Hd & _ & _).
  destruct (currentDescriptorRef w) as [current|]; [|apply keeps_toast].
  destruct (negb (truthy (trim (faceName r)))); [apply keeps_toast|].
  eapply keeps_bind.
  { apply keeps_supabase. apply okN_Array_from. exact Hd. }
  intros resp _. destruct (Backend.error resp).
  - apply keeps_then; [apply keeps_console_error | apply keeps_toast].
  - apply keeps_then; [apply keeps_toast|].
    apply keeps_then; [unfold setFaceName; set_state|].
    apply keeps_then; [unfold setShowSaveInput; set_state|].
    apply keeps_loadSavedFaces.
Qed.

Lemma keeps_handleDeleteFace r id del sel :
  keeps (handleDeleteFace r id del sel) (fun _ => True).
Proof.
  unfold handleDeleteFace. eapply keeps_bind.
  { apply keeps_supabase. exact Logic.I. }
  intros resp _. destruct (Backend.error resp).
  - apply keeps_then; [apply keeps_console_error | apply keeps_toast].
  - apply keeps_then; [apply keeps_toast | apply keeps_loadSavedFaces].
Qed.

Lemma keeps_step a :
  keeps (step detectAllFaces resizeResults findBestMatch a) (fun _ => True).
Proof.
  unfold step. eapply keeps_bind; [apply keeps_get|]. intros w Hw.
  pose proof Hw as (_ & Hs & _ & Hq & Hv).
  destruct a.
  - apply keeps_then; [k_modify|].
    apply keeps_then; [unfold setSession; set_state|].
    eapply keeps_bind; [apply keeps_get|]. intros w' _.
    apply keeps_loadSavedFaces.
  - apply keeps_loadModels.
  - apply keeps_when. apply keeps_toggleCamera. exact Hs.
  - destruct (videoRef w) as [video|]; [|apply keeps_unit].
    cbn [option_ok] in Hv. unfold video_ok in Hv.
    destruct (onloadedmetadata video) as [r'|]; [|apply keeps_unit].
    apply keeps_startDetection. exact Hv.
  - destruct (raf w) as [|r' q]; [apply keeps_unit|].
    apply Forall_cons_iff in Hq. destruct Hq as [Hr' Hq'].
    apply keeps_then; [|apply keeps_detectFaces; exact Hr'].
    apply keeps_modify; [|exact Logic.I].
    intros w0 (H1 & H2 & H3 & H4 & H5). repeat split; auto.
  - apply keeps_modify; [|exact Logic.I].
    intros w0 (H1 & H2 & H3 & H4 & H5). repeat split; auto.
    cbn [videoRef with_videoRef]. destruct (videoRef w0); exact H5.
  - apply keeps_when. unfold setFaceName; set_state.
  - apply keeps_when. unfold setShowSaveInput; set_state.
  - apply keeps_when. apply keeps_handleSaveFace.
  - apply keeps_when. apply keeps_handleDeleteFace.
Qed.

Lemma keeps_run l :
  keeps (run detectAllFaces resizeResults findBestMatch l) (fun _ => True).
Proof.
  unfold run. apply keeps_forEach. intros a _. apply keeps_step.
Qed.

End Descriptors.

Lemma Forall_True {A} (l : list A) : Forall (fun _ => True) l.
Proof. induction l; constructor; auto. Qed.

Lemma Inv_trivial (w : World) : Inv (fun _ => True) (fun _ => True) w.
Proof.
  unfold Inv, render_ok, row_ok, option_ok, video_ok.
  repeat split.
  - apply Forall_True.
  - apply Forall_True.
  - destruct (currentDescriptorRef w); exact Logic.I.
  - apply Forall_forall. intros r _. apply Forall_True.
  - destruct (videoRef w) as [v|]; [|exact Logic.I].
    unfold option_ok. destruct (onloadedmetadata v); [|exact Logic.I].
    apply Forall_True.
Qed.

Lemma run_only_client_operations
      (detectAllFaces : Detect) (resizeResults : Resize)
      (findBestMatch : Match) (l : list Action) (w : World) :
  Forall only_client_operations
         (events_of (run detectAllFaces resizeResults findBestMatch l) w).
Proof.
  assert (H := @keeps_run detectAllFaces resizeResults findBestMatch
                 (fun _ => True) (fun _ => True)
                 (fun _ _ => Logic.I) (fun _ _ => Logic.I) (fun _ _ => Logic.I)
                 (fun _ _ => Forall_True _) l w (Inv_trivial w)).
  destruct H as (_ & H & _).
  revert H. apply Forall_impl. intros e He.
  destruct e; try exact Logic.I. exact He.
Qed.

End Invariant.

(* ================================================================== *)
(** ** Running handlers step by step *)

Module Run.
Import JS Component.

Lemma events_bind {A B} (m : M A) (k : A -> M B) w :
  events_of (bind m k) w
  = events_of m w ++ events_of (k (result_of m w)) (world_after m w).
Proof.
  unfold events_of, result_of, world_after, bind.
  destruct (m w) as [[a w1] e1]. simpl. destruct (k a w1) as [[b w2] e2].
  reflexivity.
Qed.

Lemma world_bind {A B} (m : M A) (k : A -> M B) w :
  world_after (bind m k) w
  = world_after (k (result_of m w)) (world_after m w).
Proof.
  unfold events_of, result_of, world_after, bind.
  destruct (m w) as [[a w1] e1]. simpl. destruct (k a w1) as [[b w2] e2].
  reflexivity.
Qed.

Lemma result_bind {A B} (m : M A) (k : A -> M B) w :
  result_of (bind m k) w
  = result_of (k (result_of m w)) (world_after m w).
Proof.
  unfold events_of, result_of, world_after, bind.
  destruct (m w) as [[a w1] e1]. simpl. destruct (k a w1) as [[b w2] e2].
  reflexivity.
Qed.

Lemma events_ret {A} (a : A) w : events_of (ret a) w = [].
Proof. reflexivity. Qed.

Lemma world_ret {A} (a : A) w : world_after (ret a) w = w.
Proof. reflexivity. Qed.

Lemma result_ret {A} (a : A) w : result_of (ret a) w = a.
Proof. reflexivity. Qed.

Lemma events_get w : events_of get w = [].
Proof. reflexivity. Qed.

Lemma world_get w : world_after get w = w.
Proof. reflexivity. Qed.

Lemma result_get w : result_of get w = w.
Proof. reflexivity. Qed.

Lemma events_emit e w : events_of (emit e) w = [e].
Proof. reflexivity. Qed.

Lemma world_emit e w : world_after (emit e) w = w.
Proof. reflexivity. Qed.

Lemma events_modify f w : events_of (modify f) w = [].
Proof. reflexivity. Qed.

Lemma world_modify f w : world_after (modify f) w = f w.
Proof. reflexivity. Qed.

Lemma events_setState f w : events_of (setState f) w = [].
Proof. reflexivity. Qed.

Lemma world_setState f w :
  world_after (setState f) w = with_state (f (state w)) w.
Proof. reflexivity. Qed.

Lemma events_toast t w : events_of (toast t) w = [Toast t].
Proof. reflexivity. Qed.

Lemma world_toast t w : world_after (toast t) w = w.
Proof. reflexivity. Qed.

Lemma events_console_error what e w :
  events_of (console_error what e) w = [ConsoleError what e].
Proof. reflexivity. Qed.

Lemma world_console_error what e w : world_after (console_error what e) w = w.
Proof. reflexivity. Qed.

Lemma events_supabase svc q w :
  events_of (supabase svc q) w = [Fetch (Auth.uid (auth w)) q].
Proof.
  unfold supabase, events_of, bind, get, emit, modify, ret.
  destruct (Backend.call _ _ _ _). reflexivity.
Qed.

Lemma world_supabase svc q w :
  world_after (supabase svc q) w
  = with_faces (fst (Backend.call svc (Auth.uid (auth w)) q (faces w))) w.
Proof.
  unfold supabase, world_after, bind, get, emit, modify, ret.
  destruct (Backend.call _ _ _ _). reflexivity.
Qed.

Lemma result_supabase svc q w :
  result_of (supabase svc q) w
  = snd (Backend.call svc (Auth.uid (auth w)) q (faces w)).
Proof.
  unfold supabase, result_of, bind, get, emit, modify, ret.
  destruct (Backend.call _ _ _ _). reflexivity.
Qed.

(** A loop whose body only reports events. *)
Lemma forEach_emits {A} (l : list A) (f : A -> M unit) (g : A -> list Event) w :
  (forall a w, world_after (f a) w = w) ->
  (forall a w, events_of (f a) w = g a) ->
  world_after (forEach l f) w = w /\ events_of (forEach l f) w = flat_map g l.
Proof.
  intros Hw He. induction l as [|a l [IHw IHe]]; simpl.
  - split; reflexivity.
  - rewrite world_bind, events_bind, Hw, He, IHw, IHe. split; reflexivity.
Qed.

Create Rewrite HintDb run.

#[export] Hint Rewrite
  @events_bind @world_bind @result_bind @events_ret @world_ret @result_ret
  events_get world_get result_get events_emit world_emit
  events_modify world_modify events_setState world_setState
  events_toast world_toast events_console_error world_console_error
  events_supabase world_supabase result_supabase : run.

End Run.

(* ================================================================== *)
(** ** Facts about the handlers *)

Module HandlerFacts.
Import JS JSFacts Component Maintained Run.

Lemma draw_all (l : list CanvasCmd) w :
  world_after (forEach l (fun c => emit (Draw c))) w = w /\
  events_of (forEach l (fun c => emit (Draw c))) w = List.map Draw l.
Proof.
  induction l as [|c l [IHw IHe]]; simpl.
  - split; reflexivity.
  - rewrite world_bind, events_bind, world_emit, events_emit, IHw, IHe.
    split; reflexivity.
Qed.

Lemma draw_loop (ctx : bool) (resized : list Detection) w :
  world_after (drawDetectionBoxes ctx resized) w = w /\
  events_of (drawDetectionBoxes ctx resized) w = draw_events ctx resized.
Proof.
  unfold draw_events, drawDetectionBoxes. destruct ctx; cbn [when].
  - apply forEach_emits; intros d w0; apply draw_all.
  - replace (@nil Event) with (flat_map (fun _ : Detection => @nil Event) resized)
      by (induction resized; simpl; auto).
    apply forEach_emits; reflexivity.
Qed.

Lemma world_drawDetectionBoxes ctx resized w :
  world_after (drawDetectionBoxes ctx resized) w = w.
Proof. apply draw_loop. Qed.

Lemma events_drawDetectionBoxes ctx resized w :
  events_of (drawDetectionBoxes ctx resized) w = draw_events ctx resized.
Proof. apply draw_loop. Qed.

Lemma stop_all (stream : MediaStream) w :
  world_after
    (forEach stream (fun track =>
       emit (TrackStop track) ;;
       modify (fun w => with_ended (track :: ended w) w))) w
  = with_ended (rev stream ++ ended w) w /\
  events_of
    (forEach stream (fun track =>
       emit (TrackStop track) ;;
       modify (fun w => with_ended (track :: ended w) w))) w
  = List.map TrackStop stream.
Proof.
  revert w. induction stream as [|t stream IH]; intros w.
  - destruct w; split; reflexivity.
  - cbn [forEach]. rewrite world_bind, events_bind.
    destruct (IH (with_ended (t :: ended w) w)) as [IHw IHe].
    autorewrite with run. rewrite IHw, IHe. split; [|reflexivity].
    cbn [rev ended with_ended]. rewrite <- app_assoc. reflexivity.
Qed.

Lemma stopCamera_world w :
  world_after stopCamera w
  = let w1 := match streamRef w with
              | Some stream =>
                  with_streamRef None (with_ended (rev stream ++ ended w) w)
              | None => w
              end in
    let w2 := match videoRef w1 with
              | Some video =>
                  with_videoRef (Some (with_srcObject None video)) w1
              | None => w1
              end in
    world_after
      (setIsCameraOn false ;; setIsDetecting false ;; setFaceCount 0 ;;
       setCurrentEmotion [] ;; setMatchedFace []) w2.
Proof.
  unfold stopCamera.
  rewrite world_bind, result_get, world_get, world_bind.
  assert (H1 : world_after
            match streamRef w with
            | Some stream =>
                forEach stream (fun track =>
                  emit (TrackStop track) ;;
                  modify (fun w => with_ended (track :: ended w) w)) ;;
                modify (with_streamRef None)
            | None => ret tt
            end w
          = match streamRef w with
            | Some stream =>
                with_streamRef None (with_ended (rev stream ++ ended w) w)
            | None => w
            end).
  { destruct (streamRef w) as [stream|]; [|reflexivity].
    rewrite world_bind, world_modify. destruct (stop_all stream w) as [-> _].
    reflexivity. }
  rewrite H1. cbv zeta.
  rewrite world_bind, result_get, world_get, world_bind.
  destruct (videoRef _); reflexivity.
Qed.

Lemma stopCamera_events w :
  events_of stopCamera w = List.map TrackStop (tracks_of (streamRef w)).
Proof.
  unfold stopCamera.
  rewrite events_bind, result_get, world_get, events_get, events_bind.
  cbn [app].
  assert (H1 : events_of
            match streamRef w with
            | Some stream =>
                forEach stream (fun track =>
                  emit (TrackStop track) ;;
                  modify (fun w => with_ended (track :: ended w) w)) ;;
                modify (with_streamRef None)
            | None => ret tt
            end w
          = List.map TrackStop (tracks_of (streamRef w))).
  { destruct (streamRef w) as [stream|]; [|reflexivity].
    rewrite events_bind, events_modify. destruct (stop_all stream w) as [_ ->].
    apply app_nil_r. }
  rewrite H1.
  rewrite events_bind, result_get, events_get, world_get, events_bind.
  cbn [app].
  match goal with
  | |- _ ++ events_of ?m ?w0 ++ ?rest = _ =>
      assert (H2 : events_of m w0 = []) by (destruct (videoRef w0); reflexivity);
      rewrite H2
  end.
  cbn [app]. autorewrite with run. cbn [app]. apply app_nil_r.
Qed.

Section WithModel.

Variable detectAllFaces : Detect.
Variable resizeResults : Resize.
Variable findBestMatch : Match.

Local Abbreviation detectFaces :=
  (detectFaces detectAllFaces resizeResults findBestMatch).

Local Abbreviation processFirstDetection :=
  (processFirstDetection findBestMatch).

Lemma events_processFirstDetection r resized w :
  events_of (processFirstDetection r resized) w = match_events r resized.
Proof.
  unfold Component.processFirstDetection, match_events.
  destruct resized as [|detection rest]; [reflexivity|].
  destruct (savedFaces r) as [|face saved]; [reflexivity|].
  destruct (session r); reflexivity.
Qed.

Lemma detectFaces_events r w video canvas :
  videoRef w = Some video -> canvasRef w = Some canvas ->
  isCameraOn r = true ->
  events_of (detectFaces r) w
  = [DetectAllFaces (frame video); MatchDimensions (displaySize video)]
    ++ clear_events (has2d canvas) (displaySize video)
    ++ match_events r (resizeResults (detectAllFaces (frame video))
                                     (displaySize video))
    ++ draw_events (has2d canvas)
                   (resizeResults (detectAllFaces (frame video))
                                  (displaySize video))
    ++ [RequestAnimationFrame].
Proof.
  intros Hv Hc Hon. unfold Component.detectFaces.
  rewrite events_bind, result_get, world_get, events_get, Hv, Hc, Hon.
  cbn [negb app when].
  autorewrite with run.
  rewrite events_processFirstDetection, events_drawDetectionBoxes.
  unfold clear_events. cbn [has2d matchDimensions canvas_width canvas_height].
  destruct (has2d canvas); reflexivity.
Qed.

Lemma detectFaces_idle r w :
  videoRef w = None \/ canvasRef w = None \/ isCameraOn r = false ->
  detectFaces r w = (tt, w, []).
Proof.
  unfold Component.detectFaces, bind, get.
  intros [H|[H|H]]; rewrite ?H.
  - reflexivity.
  - destruct (videoRef w); reflexivity.
  - destruct (videoRef w); [|reflexivity]. destruct (canvasRef w); reflexivity.
Qed.

Lemma detectFaces_world r w video canvas :
  videoRef w = Some video -> canvasRef w = Some canvas ->
  isCameraOn r = true ->
  world_after (detectFaces r) w
  = world_after
      (setFaceCount (List.length (detectAllFaces (frame video))) ;;
       modify (fun w => with_raf (raf w ++ [r]) w))
      (world_after
         (processFirstDetection r
            (resizeResults (detectAllFaces (frame video)) (displaySize video)))
         (with_canvasRef
            (Some (matchDimensions canvas (displaySize video))) w)).
Proof.
  intros Hv Hc Hon. unfold Component.detectFaces.
  rewrite world_bind, result_get, world_get, Hv, Hc, Hon.
  cbn [negb when].
  autorewrite with run.
  rewrite world_drawDetectionBoxes.
  destruct (has2d (matchDimensions canvas (displaySize video))); reflexivity.
Qed.

Local Abbreviation run := (run detectAllFaces resizeResults findBestMatch).

Lemma run_app l1 l2 w :
  run (l1 ++ l2) w
  = (tt, world_after (run l2) (world_after (run l1) w),
     events_of (run l1) w ++ events_of (run l2) (world_after (run l1) w)).
Proof.
  unfold Component.run, world_after, events_of.
  revert w. induction l1 as [|a l1 IH]; intros w; cbn [app forEach].
  - unfold ret. cbn [fst snd app].
    destruct (forEach l2 _ w) as [[[] w2] e2]. reflexivity.
  - unfold bind.
    destruct (step _ _ _ a w) as [[[] w1] e1].
    rewrite IH.
    destruct (forEach l1 _ w1) as [[[] w2] e2]. cbn [fst snd].
    rewrite app_assoc. reflexivity.
Qed.

(** With no callback waiting, animation frames run nothing. *)
Lemma run_animation_frames (n : nat) w :
  raf w = [] -> run (repeat AnimationFrame n) w = (tt, w, []).
Proof.
  intros Hw. unfold Component.run.
  induction n as [|n IH]; cbn [repeat forEach]; [reflexivity|].
  unfold bind at 1. unfold step at 1. unfold bind at 1, get.
  rewrite Hw. unfold ret at 1. rewrite IH. reflexivity.
Qed.

End WithModel.

End HandlerFacts.

(* ================================================================== *)
(** ** The specification's claims *)

Import JS JSFacts Component Maintained Run HandlerFacts.

(** C1. Every one of the four policies on [public.faces] lets an
    authenticated user [u] act on a row exactly when the row's [user_id] is
    [u]; hence whatever request [u] sends, the rows it reads are rows of
    [u], and the rows of any other user [v] are the same after it as
    before. *)
Theorem faces_policies_restrict_to_owner
        (u v : Auth.uuid) (r : Backend.Row) (srv : Backend.Server)
        (q : Backend.Request) (t : Backend.Table) :
  u <> v ->
  (Backend.policy_select (Some u) r = true <-> Backend.user_id r = u) /\
  (Backend.policy_insert (Some u) r = true <-> Backend.user_id r = u) /\
  (Backend.policy_update (Some u) r = true <-> Backend.user_id r = u) /\
  (Backend.policy_update_check (Some u) r = true <-> Backend.user_id r = u) /\
  (Backend.policy_delete (Some u) r = true <-> Backend.user_id r = u) /\
  Forall (fun x => Backend.user_id x = u)
         (Backend.or_else (Backend.data (snd (Backend.exec (Some u) srv q t))) [])
  /\
  Backend.owned_by v (fst (Backend.exec (Some u) srv q t)) = Backend.owned_by v t.
Proof.
  intros Huv.
  repeat (split; [apply BackendFacts.uid_is_owner_iff|]).
  split.
  - destruct (Backend.data (snd (Backend.exec (Some u) srv q t))) as [rows|] eqn:E.
    + exact (BackendFacts.exec_reads_own u srv q t E).
    + constructor.
  - apply BackendFacts.exec_keeps_others. exact Huv.
Qed.

Lemma faces_policies_restrict_to_owner_witness :
  str "alice" <> str "bob" /\
  Backend.owned_by (str "bob")
    (fst (Backend.exec (Some (str "alice"))
            {| Backend.fresh_id := str "f3"; Backend.now := 9 |}
            (Backend.Delete [(Backend.col_id, str "f2")])
            [Sample.row "f1" "alice"; Sample.row "f2" "bob"]))
  = [Sample.row "f2" "bob"].
Proof.
  split; [discriminate|].
  exact (proj2 (proj2 (proj2 (proj2 (proj2 (proj2
    (@faces_policies_restrict_to_owner
       (str "alice") (str "bob") (Sample.row "f1" "alice")
       {| Backend.fresh_id := str "f3"; Backend.now := 9 |}
       (Backend.Delete [(Backend.col_id, str "f2")])
       [Sample.row "f1" "alice"; Sample.row "f2" "bob"]
       ltac:(discriminate)))))))).
Defined.

(** C10. [stopCamera] stops every track of the stream held by
    [streamRef] and drops the stream, puts [isCameraOn], [isDetecting],
    [faceCount], [currentEmotion] and [matchedFace] back to their initial
    values, and leaves [savedFaces], [session], [faceName],
    [showSaveInput] and [currentDescriptorRef] as they were. *)
Theorem stopCamera_resets_camera_state_only (w : World) :
  Forall (fun t => In t (ended (world_after stopCamera w)))
         (tracks_of (streamRef w)) /\
  events_of stopCamera w = List.map TrackStop (tracks_of (streamRef w)) /\
  streamRef (world_after stopCamera w) = None /\
  isCameraOn (state (world_after stopCamera w)) = isCameraOn initialState /\
  isDetecting (state (world_after stopCamera w)) = isDetecting initialState /\
  faceCount (state (world_after stopCamera w)) = faceCount initialState /\
  currentEmotion (state (world_after stopCamera w))
    = currentEmotion initialState /\
  matchedFace (state (world_after stopCamera w)) = matchedFace initialState /\
  savedFaces (state (world_after stopCamera w)) = savedFaces (state w) /\
  session (state (world_after stopCamera w)) = session (state w) /\
  faceName (state (world_after stopCamera w)) = faceName (state w) /\
  showSaveInput (state (world_after stopCamera w)) = showSaveInput (state w) /\
  currentDescriptorRef (world_after stopCamera w) = currentDescriptorRef w.
Proof.
  rewrite stopCamera_events, stopCamera_world.
  destruct (streamRef w) as [stream|] eqn:Es;
    cbv zeta; cbn [tracks_of videoRef with_streamRef with_ended];
    destruct (videoRef w) as [video|];
    (split; [|repeat split; try reflexivity; try exact Es]).
  - apply Forall_forall. intros t Ht. cbn. apply in_or_app. left.
    apply in_rev in Ht. exact Ht.
  - apply Forall_forall. intros t Ht. cbn. apply in_or_app. left.
    apply in_rev in Ht. exact Ht.
  - constructor.
  - constructor.
Qed.

(** C8. Unless there is a session, a captured descriptor and a face name
    that is non-empty once trimmed, [handleSaveFace] changes nothing: the
    world after it is the world before it (state, refs and table alike) and
    its only event is the toast of the first precondition that fails, so no
    request reaches the backend. *)
Theorem handleSaveFace_does_nothing_unless_ready
        (r : State) (w : World) (ins sel : Backend.Service) :
  session r = None \/ currentDescriptorRef w = None \/ trim (faceName r) = [] ->
  world_after (handleSaveFace r ins sel) w = w /\
  events_of (handleSaveFace r ins sel) w
  = [Toast
       match session r, currentDescriptorRef w with
       | None, _ =>
           {| title := str "Authentication Required";
              description := str "Please sign in to save faces";
              variant := destructive |}
       | Some _, None =>
           {| title := str "No Face Detected";
              description :=
                str "Please position your face in front of the camera";
              variant := destructive |}
       | Some _, Some _ =>
           {| title := str "Name Required";
              description := str "Please enter a name for this face";
              variant := destructive |}
       end].
Proof.
  intros H. unfold handleSaveFace.
  destruct (session r) as [s|]; [|split; reflexivity].
  rewrite world_bind, events_bind, result_get, world_get, events_get.
  destruct (currentDescriptorRef w) as [d|]; [|split; reflexivity].
  destruct H as [H|[H|H]]; try discriminate.
  rewrite H. split; reflexivity.
Qed.

Lemma handleSaveFace_does_nothing_unless_ready_witness :
  trim (faceName (Sample.cameraOn (Some Sample.alice) [])) = [] /\
  world_after
    (handleSaveFace (Sample.cameraOn (Some Sample.alice) [])
                    (Sample.srv "f1" 1) (Sample.srv "f1" 1))
    (with_currentDescriptorRef (Some Sample.descriptor0) Sample.page)
  = with_currentDescriptorRef (Some Sample.descriptor0) Sample.page.
Proof.
  split; [reflexivity|].
  exact (proj1 (@handleSaveFace_does_nothing_unless_ready
                  (Sample.cameraOn (Some Sample.alice) [])
                  (with_currentDescriptorRef (Some Sample.descriptor0) Sample.page)
                  (Sample.srv "f1" 1) (Sample.srv "f1" 1)
                  (or_intror (or_intror eq_refl)))).
Defined.

(** C2. Saving and matching need a session: without one in its render,
    [handleSaveFace] reports "Authentication Required", sends nothing to
    the backend and leaves the table as it is, and no frame processed by
    [detectFaces] calls the matcher. *)
Theorem no_session_no_save_no_match
        (detectAllFaces : Detect) (resizeResults : Resize)
        (findBestMatch : Match)
        (r : State) (w : World) (ins sel : Backend.Service) :
  session r = None ->
  handleSaveFace r ins sel w
  = (tt, w, [Toast {| title := str "Authentication Required";
                      description := str "Please sign in to save faces";
                      variant := destructive |}]) /\
  faces (world_after (handleSaveFace r ins sel) w) = faces w /\
  Forall (fun e => match e with
                   | FindBestMatch _ _ _ => False
                   | _ => True
                   end)
         (events_of (detectFaces detectAllFaces resizeResults findBestMatch r) w).
Proof.
  intros Hs. unfold handleSaveFace. rewrite Hs.
  split; [reflexivity|]. split; [reflexivity|].
  destruct (videoRef w) as [video|] eqn:Hv;
    [|unfold events_of; rewrite detectFaces_idle by (left; exact Hv);
      constructor].
  destruct (canvasRef w) as [canvas|] eqn:Hc;
    [|unfold events_of; rewrite detectFaces_idle by (right; left; exact Hc);
      constructor].
  destruct (isCameraOn r) eqn:Hon;
    [|unfold events_of; rewrite detectFaces_idle by (right; right; exact Hon);
      constructor].
  rewrite (detectFaces_events detectAllFaces resizeResults findBestMatch
             r w Hv Hc Hon).
  repeat (apply Forall_app; split); repeat constructor.
  - unfold clear_events. destruct (has2d canvas); repeat constructor.
  - unfold match_events. rewrite Hs.
    destruct (resizeResults _ _); [constructor|].
    destruct (savedFaces r); constructor.
  - unfold draw_events. destruct (has2d canvas); [|constructor].
    apply Forall_forall. intros e He. apply in_flat_map in He.
    destruct He as (d & _ & He). apply in_map_iff in He.
    destruct He as (c & <- & _). exact Logic.I.
Qed.

Lemma no_session_no_save_no_match_witness :
  session (Sample.cameraOn None [Sample.row "f1" "alice"]) = None /\
  events_of
    (detectFaces Sample.detectAllFaces Sample.resizeResults
                 Sample.findBestMatch
                 (Sample.cameraOn None [Sample.row "f1" "alice"]))
    Sample.page
  = [DetectAllFaces 0%N; MatchDimensions (displaySize Sample.video)]
    ++ clear_events true (displaySize Sample.video)
    ++ draw_events true [Sample.face0]
    ++ [RequestAnimationFrame] /\
  faces
    (world_after
       (handleSaveFace (Sample.cameraOn None [Sample.row "f1" "alice"])
                       (Sample.srv "f2" 7) (Sample.srv "f2" 7))
       Sample.page)
  = [].
Proof.
  split; [reflexivity|]. split; [reflexivity|].
  exact (proj1 (proj2
    (@no_session_no_save_no_match
       Sample.detectAllFaces Sample.resizeResults Sample.findBestMatch
       (Sample.cameraOn None [Sample.row "f1" "alice"]) Sample.page
       (Sample.srv "f2" 7) (Sample.srv "f2" 7) eq_refl))).
Defined.

(** An iteration of the loop whose guard passes (video and canvas
    mounted, camera on in the closure's render) calls the model library
    once on the current frame, then, when the canvas gives a 2D context,
    clears the canvas and draws every resized detection, its bounding box
    at the resized coordinates among the strokes, and last asks for an
    animation frame for the same closure; an iteration whose guard fails
    does nothing at all. *)
Lemma detectFaces_iteration
        (detectAllFaces : Detect) (resizeResults : Resize)
        (findBestMatch : Match) (r : State) (w : World) :
  match videoRef w, canvasRef w, isCameraOn r with
  | Some video, Some canvas, true =>
      let resized :=
        resizeResults (detectAllFaces (frame video)) (displaySize video) in
      events_of (detectFaces detectAllFaces resizeResults findBestMatch r) w
      = [DetectAllFaces (frame video); MatchDimensions (displaySize video)]
        ++ clear_events (has2d canvas) (displaySize video)
        ++ match_events r resized
        ++ draw_events (has2d canvas) resized
        ++ [RequestAnimationFrame] /\
      raf (world_after
             (detectFaces detectAllFaces resizeResults findBestMatch r) w)
      = raf w ++ [r] /\
      Forall (fun d =>
                In (Draw (strokeRect (x (box d)) (y (box d))
                                     (width (box d)) (height (box d))))
                   (draw_events true resized))
             resized
  | _, _, _ =>
      detectFaces detectAllFaces resizeResults findBestMatch r w = (tt, w, [])
  end.
Proof.
  destruct (videoRef w) as [video|] eqn:Hv;
    [|apply detectFaces_idle; left; exact Hv].
  destruct (canvasRef w) as [canvas|] eqn:Hc;
    [|apply detectFaces_idle; right; left; exact Hc].
  destruct (isCameraOn r) eqn:Hon;
    [|apply detectFaces_idle; right; right; exact Hon].
  cbv zeta. split; [|split].
  - apply detectFaces_events; assumption.
  - rewrite (detectFaces_world detectAllFaces resizeResults findBestMatch
               r w Hv Hc Hon).
    autorewrite with run. cbn [raf with_raf with_state].
    f_equal. unfold processFirstDetection.
    destruct (resizeResults _ _) as [|detection rest]; [reflexivity|].
    destruct (savedFaces r); [reflexivity|].
    destruct (session r); reflexivity.
  - apply Forall_forall. intros d Hd. unfold draw_events.
    apply in_flat_map. exists d. split; [exact Hd|].
    apply in_map. unfold draw_box. cbn. tauto.
Qed.

(** C5. The detect-and-draw loop of the program performs none of the
    three steps. On a freshly mounted page, whatever the video, the canvas,
    the table, the model and the stream: once the models are loaded, the
    user clicks "Start Camera", access is granted, the video reports its
    metadata and any number of animation frames pass, the events are the
    four model loads, the "AI Model Loaded" toast and [getUserMedia], with
    no call into the model library, no canvas call and no animation frame
    request. The camera is on and [isDetecting] is true, but the metadata
    handler holds the [startDetection] of the render of the click, in
    which [isCameraOn] is false, and the [detectFaces] of that render
    returns at its guard, with no callback left waiting. *)
Theorem started_camera_detects_nothing
        (detectAllFaces : Detect) (resizeResults : Resize)
        (findBestMatch : Match)
        (v : Video) (c : Canvas) (t : Backend.Table) (stream : MediaStream)
        (frames : nat) :
  let acts := [ModelsSettled None; ClickCamera (inr stream); LoadedMetadata]
              ++ repeat AnimationFrame frames in
  let w := world_after (run detectAllFaces resizeResults findBestMatch acts)
                       (mounted v c t) in
  let clicked := world_after (loadModels None) (mounted v c t) in
  events_of (run detectAllFaces resizeResults findBestMatch acts)
            (mounted v c t)
  = [LoadFromUri tinyFaceDetector MODEL_URL;
     LoadFromUri faceLandmark68Net MODEL_URL;
     LoadFromUri faceRecognitionNet MODEL_URL;
     LoadFromUri faceExpressionNet MODEL_URL;
     Toast {| title := check_mark ++ str " AI Model Loaded";
              description :=
                str "Face detection ready with emotion & recognition";
              variant := default |};
     GetUserMedia] /\
  isCameraOn (state w) = true /\
  isDetecting (state w) = true /\
  streamRef w = Some stream /\
  option_map onloadedmetadata (videoRef w) = Some (Some (state clicked)) /\
  isModelLoaded (state clicked) = true /\
  isCameraOn (state clicked) = false /\
  detectFaces detectAllFaces resizeResults findBestMatch (state clicked) w
  = (tt, w, []) /\
  raf w = [].
Proof.
  intros acts w clicked.
  set (w3 := world_after
               (run detectAllFaces resizeResults findBestMatch
                    [ModelsSettled None; ClickCamera (inr stream);
                     LoadedMetadata])
               (mounted v c t)).
  assert (Hraf : raf w3 = []) by reflexivity.
  assert (Hw : w = w3).
  { unfold w, acts, world_after at 1. rewrite run_app. cbn [fst snd].
    fold w3. unfold world_after. rewrite (run_animation_frames _ _ _ _ _ Hraf).
    reflexivity. }
  assert (He : events_of (run detectAllFaces resizeResults findBestMatch acts)
                         (mounted v c t)
               = events_of
                   (run detectAllFaces resizeResults findBestMatch
                        [ModelsSettled None; ClickCamera (inr stream);
                         LoadedMetadata])
                   (mounted v c t)).
  { unfold acts, events_of at 1. rewrite run_app. cbn [fst snd].
    fold w3. unfold events_of at 2.
    rewrite (run_animation_frames _ _ _ _ _ Hraf).
    cbn [snd]. apply app_nil_r. }
  rewrite He, Hw.
  split; [reflexivity|]. split; [reflexivity|]. split; [reflexivity|].
  split; [reflexivity|]. split; [reflexivity|]. split; [reflexivity|].
  split; [reflexivity|]. split; [|exact Hraf].
  apply detectFaces_idle. right. right. reflexivity.
Qed.


(** C6, as the code has it. Each part under its own conditions only.
    When the backend answers a save with an error, the user is shown that
    error's own message; the same holds for a delete, whatever the render
    and the world; an error of loading the saved faces is written to the
    console and shown to nobody; an error of loading the models is written
    to the console and the user is shown the fixed text "Please refresh
    the page". *)
Theorem errors_shown_for_save_and_delete_only
        (r : State) (w : World) (id : jsstring)
        (ins sel del : Backend.Service) (thrown : Error) :
  (forall s d e,
      session r = Some s ->
      currentDescriptorRef w = Some d ->
      truthy (trim (faceName r)) = true ->
      Backend.error (snd (Backend.call ins (Auth.uid (auth w))
                            (insert_face s (faceName r) d) (faces w)))
      = Some e ->
      events_of (handleSaveFace r ins sel) w
      = [Fetch (Auth.uid (auth w)) (insert_face s (faceName r) d);
         ConsoleError (str "Error saving face:") e;
         Toast {| title := str "Save Failed";
                  description := Backend.message e;
                  variant := destructive |}]) /\
  (forall e,
      Backend.error (snd (Backend.call del (Auth.uid (auth w))
                            (delete_face id) (faces w)))
      = Some e ->
      events_of (handleDeleteFace r id del sel) w
      = [Fetch (Auth.uid (auth w)) (delete_face id);
         ConsoleError (str "Error deleting face:") e;
         Toast {| title := str "Delete Failed";
                  description := Backend.message e;
                  variant := destructive |}]) /\
  (forall s e,
      session r = Some s ->
      Backend.error (snd (Backend.call sel (Auth.uid (auth w))
                            (select_faces s) (faces w)))
      = Some e ->
      events_of (loadSavedFaces r sel) w
      = [Fetch (Auth.uid (auth w)) (select_faces s);
         ConsoleError (str "Error loading faces:") e]) /\
  events_of (loadModels (Some thrown)) w
  = [LoadFromUri tinyFaceDetector MODEL_URL;
     LoadFromUri faceLandmark68Net MODEL_URL;
     LoadFromUri faceRecognitionNet MODEL_URL;
     LoadFromUri faceExpressionNet MODEL_URL;
     ConsoleError (str "Error loading models:") thrown;
     Toast {| title := str "Model Loading Failed";
              description := str "Please refresh the page";
              variant := destructive |}].
Proof.
  split; [|split; [|split]].
  - intros s d e Hs Hd Hn Hins.
    unfold handleSaveFace. rewrite Hs.
    rewrite events_bind, result_get, world_get, events_get, Hd, Hn.
    cbn [negb app]. rewrite events_bind, result_supabase, events_supabase, Hins.
    reflexivity.
  - intros e Hdel. unfold handleDeleteFace.
    rewrite events_bind, result_supabase, events_supabase, Hdel. reflexivity.
  - intros s e Hs Hsel. unfold loadSavedFaces. rewrite Hs.
    rewrite events_bind, result_supabase, events_supabase, Hsel. reflexivity.
  - reflexivity.
Qed.

Lemma errors_shown_for_save_and_delete_only_witness :
  truthy (trim (str " Ann ")) = true /\
  events_of
    (handleSaveFace
       (with_faceName_of (str " Ann ") (Sample.cameraOn (Some Sample.alice) []))
       (Sample.down "offline") (Sample.down "offline"))
    (with_currentDescriptorRef (Some Sample.descriptor0) Sample.page)
  = [Fetch None (insert_face Sample.alice (str " Ann ") Sample.descriptor0);
     ConsoleError (str "Error saving face:")
                  {| Backend.message := str "offline" |};
     Toast {| title := str "Save Failed";
              description := str "offline";
              variant := destructive |}] /\
  events_of
    (handleDeleteFace (state Sample.aliceSignedIn) (str "f1")
                      (Sample.down "offline") (Sample.down "offline"))
    Sample.aliceSignedIn
  = [Fetch (Some (str "alice")) (delete_face (str "f1"));
     ConsoleError (str "Error deleting face:")
                  {| Backend.message := str "offline" |};
     Toast {| title := str "Delete Failed";
              description := str "offline";
              variant := destructive |}] /\
  events_of
    (loadSavedFaces (state Sample.aliceSignedIn) (Sample.down "offline"))
    Sample.aliceSignedIn
  = [Fetch (Some (str "alice")) (select_faces Sample.alice);
     ConsoleError (str "Error loading faces:")
                  {| Backend.message := str "offline" |}].
Proof.
  split; [reflexivity|]. split; [|split].
  - exact (proj1
      (@errors_shown_for_save_and_delete_only
         (with_faceName_of (str " Ann ")
                           (Sample.cameraOn (Some Sample.alice) []))
         (with_currentDescriptorRef (Some Sample.descriptor0) Sample.page)
         (str "f1")
         (Sample.down "offline") (Sample.down "offline") (Sample.down "offline")
         Sample.boom)
      Sample.alice Sample.descriptor0 {| Backend.message := str "offline" |}
      eq_refl eq_refl eq_refl eq_refl).
  - exact (proj1 (proj2
      (@errors_shown_for_save_and_delete_only
         (state Sample.aliceSignedIn) Sample.aliceSignedIn (str "f1")
         (Sample.down "offline") (Sample.down "offline") (Sample.down "offline")
         Sample.boom))
      {| Backend.message := str "offline" |} eq_refl).
  - exact (proj1 (proj2 (proj2
      (@errors_shown_for_save_and_delete_only
         (state Sample.aliceSignedIn) Sample.aliceSignedIn (str "f1")
         (Sample.down "offline") (Sample.down "offline") (Sample.down "offline")
         Sample.boom)))
      Sample.alice {| Backend.message := str "offline" |} eq_refl eq_refl).
Defined.

(** C6, as the claim states it, fails: the message "boom" of a model
    loading error is replaced by a fixed text, and the message "boom" of an
    error of loading the saved faces reaches the console only. *)
Lemma load_errors_not_shown_verbatim :
  events_of (loadModels (Some Sample.boom)) Sample.page
  = [LoadFromUri tinyFaceDetector MODEL_URL;
     LoadFromUri faceLandmark68Net MODEL_URL;
     LoadFromUri faceRecognitionNet MODEL_URL;
     LoadFromUri faceExpressionNet MODEL_URL;
     ConsoleError (str "Error loading models:") Sample.boom;
     Toast {| title := str "Model Loading Failed";
              description := str "Please refresh the page";
              variant := destructive |}] /\
  events_of
    (loadSavedFaces (Sample.cameraOn (Some Sample.alice) []) (Sample.down "boom"))
    Sample.page
  = [Fetch None (select_faces Sample.alice);
     ConsoleError (str "Error loading faces:") Sample.boom].
Proof. split; reflexivity. Qed.

(** C4, as the code has it. When [handleSaveFace] succeeds for a
    signed-in user, the row it adds holds the JSON array written from
    [Array.from] of the captured [Float32Array]; the reload that follows
    puts that row among the saved faces; and the matcher input built from
    it holds the captured vector with every NaN, infinite and minus zero
    element replaced by +0 and every other element as it was. That vector
    is the captured one exactly when all its elements are finite and none
    is minus zero. *)
Theorem saved_descriptor_round_trip
        (r : State) (w : World) (s : Session) (d : Float32Array)
        (ins sel : Backend.Service) :
  session r = Some s ->
  auth w = Some s ->
  currentDescriptorRef w = Some d ->
  forallb is_float32 d = true ->
  truthy (trim (faceName r)) = true ->
  Backend.fault ins = None ->
  Backend.fault sel = None ->
  existsb (fun row => jseqb (Backend.id row)
                            (Backend.fresh_id (Backend.server ins)))
          (faces w) = false ->
  let stored :=
    Backend.new_row (Backend.server ins)
      {| Backend.v_user_id := Auth.id (Auth.user s);
         Backend.v_name := faceName r;
         Backend.v_descriptor := Array_from d |} in
  faces (world_after (handleSaveFace r ins sel) w) = faces w ++ [stored] /\
  Backend.descriptor stored = List.map to_json (Array_from d) /\
  In stored (savedFaces (state (world_after (handleSaveFace r ins sel) w))) /\
  In {| label := faceName r; descriptors := [List.map reloaded d] |}
     (labeled (savedFaces (state (world_after (handleSaveFace r ins sel) w)))) /\
  (List.map reloaded d = d <-> forallb survives_json d = true).
Proof.
  intros Hs Ha Hd Hok Hn Hfi Hfs Hfresh stored.
  assert (Hrt : Float32Array_new
                  (List.map ToNumber (List.map to_json (Array_from d)))
                = List.map reloaded d)
    by (apply Float32Array_new_through_json; exact Hok).
  assert (Hcall : Backend.call ins (Auth.uid (auth w))
                    (insert_face s (faceName r) d) (faces w)
                  = (faces w ++ [stored], Backend.ok None)).
  { unfold Backend.call, insert_face, Backend.exec. rewrite Hfi, Ha.
    fold stored. unfold Backend.policy_insert, Backend.uid_is_owner, Auth.uid.
    replace (Backend.user_id stored) with (Auth.id (Auth.user s)) by reflexivity.
    rewrite jseqb_refl. cbn [negb].
    replace (Backend.id stored) with (Backend.fresh_id (Backend.server ins))
      by reflexivity.
    rewrite Hfresh. reflexivity. }
  assert (Hw : world_after (handleSaveFace r ins sel) w
               = world_after (loadSavedFaces r sel)
                   (world_after (setFaceName [] ;; setShowSaveInput false)
                      (with_faces (faces w ++ [stored]) w))).
  { unfold handleSaveFace. rewrite Hs.
    rewrite world_bind, result_get, world_get, Hd, Hn. cbn [negb].
    rewrite world_bind, result_supabase, world_supabase, Hcall.
    cbn [snd fst Backend.error Backend.ok].
    autorewrite with run. reflexivity. }
  assert (Hsaved : In stored
            (savedFaces (state (world_after (handleSaveFace r ins sel) w)))).
  { rewrite Hw. unfold loadSavedFaces. rewrite Hs.
    rewrite world_bind, result_supabase, world_supabase.
    unfold setFaceName, setShowSaveInput. autorewrite with run.
    cbn [auth faces with_faces with_state state].
    unfold Backend.call. rewrite Hfs, Ha.
    cbn [Backend.exec select_faces snd fst Backend.ok Backend.error Backend.data].
    unfold setSavedFaces. rewrite world_setState.
    cbn [state with_state savedFaces].
    apply in_map_iff. exists stored. split; [reflexivity|].
    apply BackendFacts.In_order_by, filter_In. split.
    - apply in_or_app. right. left. reflexivity.
    - unfold Backend.policy_select, Backend.uid_is_owner, Auth.uid,
        Backend.matches.
      cbn [forallb fst snd Backend.column].
      replace (Backend.user_id stored) with (Auth.id (Auth.user s))
        by reflexivity.
      rewrite jseqb_refl. reflexivity. }
  split; [|split; [reflexivity|split; [exact Hsaved|split]]].
  - rewrite Hw. unfold loadSavedFaces. rewrite Hs.
    rewrite world_bind, result_supabase, world_supabase.
    unfold setFaceName, setShowSaveInput. autorewrite with run.
    cbn [auth faces with_faces with_state state].
    unfold Backend.call. rewrite Hfs.
    cbn [Backend.exec select_faces snd fst Backend.ok Backend.error Backend.data].
    unfold setSavedFaces. rewrite world_setState. reflexivity.
  - unfold labeled. apply in_map_iff. exists stored. split; [|exact Hsaved].
    cbn [Backend.name Backend.descriptor stored Backend.new_row
         Backend.v_name Backend.v_descriptor].
    unfold Backend.jsonb. rewrite Hrt. reflexivity.
  - apply map_reloaded_same.
Qed.

Lemma saved_descriptor_round_trip_witness :
  forallb is_float32 Sample.descriptor0 = true /\
  forallb survives_json Sample.descriptor0 = true /\
  In {| label := str "Ann"; descriptors := [Sample.descriptor0] |}
     (labeled
        (savedFaces
           (state (world_after
                     (handleSaveFace Sample.namingAnn
                                     (Sample.srv "f1" 1) (Sample.srv "f9" 2))
                     Sample.aliceReady)))).
Proof.
  split; [reflexivity|]. split; [reflexivity|].
  exact (proj1 (proj2 (proj2 (proj2
    (@saved_descriptor_round_trip
       Sample.namingAnn Sample.aliceReady Sample.alice Sample.descriptor0
       (Sample.srv "f1" 1) (Sample.srv "f9" 2)
       eq_refl eq_refl eq_refl eq_refl eq_refl eq_refl eq_refl eq_refl))))).
Defined.

(** C4, as the claim states it, fails. The descriptor [NaN, -0, +Infinity,
    1] is a [Float32Array]; Alice's insert of it is accepted and stores
    the JSON array [null, 0, null, 1]; her reload returns that row; and
    the [Float32Array] the matcher is given for it is [0, 0, 0, 1], not
    the vector that was saved. *)
Lemma descriptor_not_restored_by_reload :
  forallb is_float32 Sample.descriptor1 = true /\
  List.map Backend.descriptor
    (fst (Backend.call (Sample.srv "f1" 1) (Some (str "alice"))
            (insert_face Sample.alice (str "Ann") Sample.descriptor1) []))
  = [[jnull; jnum (S754_zero false); jnull; jnum (to_number Sample.one32)]] /\
  option_map (fun data => labeled (List.map as_saved_face data))
    (Backend.data
       (snd (Backend.call (Sample.srv "f9" 2) (Some (str "alice"))
               (select_faces Sample.alice)
               (fst (Backend.call (Sample.srv "f1" 1) (Some (str "alice"))
                       (insert_face Sample.alice (str "Ann")
                                    Sample.descriptor1) [])))))
  = Some [{| label := str "Ann";
             descriptors := [[S754_zero false; S754_zero false;
                              S754_zero false; Sample.one32]] |}] /\
  [S754_zero false; S754_zero false; S754_zero false; Sample.one32]
  <> Sample.descriptor1.
Proof.
  split; [reflexivity|]. split; [reflexivity|]. split; [reflexivity|].
  discriminate.
Qed.

(** C7. Every descriptor the program handles has one and the same
    length. Given that the model's descriptors all have length [L], the
    component maintains, through every run of its handlers, that all rows
    of the table, all saved faces of the live state and of every pending
    closure, and the captured descriptor hold vectors of length [L]; and
    every descriptor it sends to the backend or hands to the matcher has
    length [L]. *)
Theorem descriptors_keep_one_length
        (detectAllFaces : Detect) (resizeResults : Resize)
        (findBestMatch : Match)
        (L : nat) (acts : list Action) (w : World) :
  (forall f dims,
      Forall (fun d => List.length (descriptor d) = L)
             (resizeResults (detectAllFaces f) dims)) ->
  Inv (fun d => List.length d = L) (fun a => List.length a = L) w ->
  Inv (fun d => List.length d = L) (fun a => List.length a = L)
      (world_after (run detectAllFaces resizeResults findBestMatch acts) w) /\
  Forall (event_ok (fun d => List.length d = L) (fun a => List.length a = L))
         (events_of (run detectAllFaces resizeResults findBestMatch acts) w).
Proof.
  intros Hmodel Hw.
  assert (H := @Invariant.keeps_run detectAllFaces resizeResults findBestMatch
                 (fun d => List.length d = L) (fun a => List.length a = L)).
  specialize (H (fun d Hd => eq_trans (Array_from_length d) Hd)).
  specialize (H (fun a Ha => eq_trans (through_json_length a) Ha)).
  specialize (H (fun a Ha => eq_trans (Float32Array_new_length a) Ha)).
  specialize (H Hmodel acts w Hw).
  destruct H as (H1 & H2 & _). split; [exact H1 | exact H2].
Qed.

Lemma descriptors_keep_one_length_witness :
  Inv (fun d => List.length d = 3%nat) (fun a => List.length a = 3%nat)
      Sample.aliceSaving /\
  List.map Backend.descriptor
    (faces (world_after
              (run Sample.detectAllFaces Sample.resizeResults
                   Sample.findBestMatch
                   [ClickSave (Sample.srv "f1" 1) (Sample.srv "f1" 2)])
              Sample.aliceSaving))
  = [Backend.jsonb (Array_from Sample.descriptor0)] /\
  Inv (fun d => List.length d = 3%nat) (fun a => List.length a = 3%nat)
      (world_after
         (run Sample.detectAllFaces Sample.resizeResults Sample.findBestMatch
              [ClickSave (Sample.srv "f1" 1) (Sample.srv "f1" 2)])
         Sample.aliceSaving).
Proof.
  assert (Hw : Inv (fun d => List.length d = 3%nat)
                   (fun a => List.length a = 3%nat) Sample.aliceSaving).
  { unfold Inv, render_ok, option_ok, video_ok. cbn.
    repeat split; constructor. }
  split; [exact Hw|]. split; [reflexivity|].
  exact (proj1
    (@descriptors_keep_one_length
       Sample.detectAllFaces Sample.resizeResults Sample.findBestMatch
       3%nat [ClickSave (Sample.srv "f1" 1) (Sample.srv "f1" 2)]
       Sample.aliceSaving
       ltac:(intros f dims; repeat constructor)
       Hw)).
Defined.

(** C3, as the code has it. The component sends the backend three kinds
    of request and no other: a select of one user's rows, an insert, and a
    delete by row id. The select is filtered by the session user's id and
    the insert carries it; the delete is filtered by row id alone, and it
    is the backend's DELETE policy that keeps it from the rows of other
    users. *)
Theorem persistence_layer_operations
        (detectAllFaces : Detect) (resizeResults : Resize)
        (findBestMatch : Match)
        (acts : list Action) (w : World)
        (s : Session) (n : jsstring) (d : Float32Array) (id : jsstring)
        (t : Backend.Table) :
  Forall only_client_operations
         (events_of (run detectAllFaces resizeResults findBestMatch acts) w) /\
  client_operation (select_faces s) /\
  client_operation (insert_face s n d) /\
  client_operation (delete_face id) /\
  Backend.scoped_to (Auth.id (Auth.user s)) (select_faces s) = true /\
  Backend.scoped_to (Auth.id (Auth.user s)) (insert_face s n d) = true /\
  Backend.scoped_to (Auth.id (Auth.user s)) (delete_face id) = false /\
  filter (fun row => negb (jseqb (Backend.user_id row) (Auth.id (Auth.user s))))
         (fst (Backend.exec (Some (Auth.id (Auth.user s)))
                 {| Backend.fresh_id := []; Backend.now := 0 |}
                 (delete_face id) t))
  = filter (fun row => negb (jseqb (Backend.user_id row) (Auth.id (Auth.user s))))
           t.
Proof.
  split; [apply Invariant.run_only_client_operations|].
  repeat (split; [exact Logic.I|]).
  unfold Backend.scoped_to, select_faces, insert_face, delete_face.
  cbn [existsb fst snd Backend.v_user_id orb].
  rewrite jseqb_refl. repeat (split; [reflexivity|]).
  apply BackendFacts.delete_keeps_foreign.
Qed.

(** C3, as the claim states it, fails: the delete that Alice's client
    sends for row "f2" names no owner, so that its filter alone selects
    Bob's row; only the policy keeps the row in the table. *)
Lemma delete_request_names_no_owner :
  events_of
    (handleDeleteFace (Sample.cameraOn (Some Sample.alice) []) (str "f2")
                      (Sample.srv "f3" 8) (Sample.srv "f3" 9))
    Sample.aliceAndBob
  = [Fetch (Some (str "alice")) (Backend.Delete [(Backend.col_id, str "f2")]);
     Toast {| title := check_mark ++ str " Face Deleted";
              description := str "Face removed successfully";
              variant := default |};
     Fetch (Some (str "alice")) (select_faces Sample.alice)] /\
  Backend.scoped_to (str "alice") (delete_face (str "f2")) = false /\
  fst (Backend.exec_unguarded
         {| Backend.fresh_id := str "f3"; Backend.now := 8 |}
         (delete_face (str "f2")) (faces Sample.aliceAndBob))
  = [Sample.row "f1" "alice"] /\
  faces (world_after
           (handleDeleteFace (Sample.cameraOn (Some Sample.alice) []) (str "f2")
                             (Sample.srv "f3" 8) (Sample.srv "f3" 9))
           Sample.aliceAndBob)
  = [Sample.row "f1" "alice"; Sample.row "f2" "bob"].
Proof. repeat split; reflexivity. Qed.

(* ================================================================== *)
(** ** Further facts about the backend *)

Module TableFacts.
Import JS JSFacts Backend Notions.

Lemma jseqb_sym (a b : jsstring) : jseqb a b = jseqb b a.
Proof.
  destruct (jseqb a b) eqn:E.
  - apply jseqb_eq in E. subst. symmetry. apply jseqb_refl.
  - destruct (jseqb b a) eqn:E'; [|reflexivity].
    apply jseqb_eq in E'. subst. rewrite jseqb_refl in E. discriminate.
Qed.

Lemma filter_none {A} (f : A -> bool) (l : list A) :
  (forall a, f a = false) -> filter f l = [].
Proof.
  intros H. induction l as [|a l IH]; simpl; [reflexivity|].
  rewrite H. exact IH.
Qed.

Lemma filter_all {A} (f : A -> bool) (l : list A) :
  (forall a, f a = true) -> filter f l = l.
Proof.
  intros H. induction l as [|a l IH]; simpl; [reflexivity|].
  rewrite H, IH. reflexivity.
Qed.

Lemma order_by_nil o : order_by o [] = [].
Proof. destruct o as [[|]|]; reflexivity. Qed.

(** *** Sorting *)

Section Sorting.

Variable le : Row -> Row -> bool.
Hypothesis le_total : forall a b, le a b = false -> le b a = true.
Hypothesis le_trans : forall a b c, le a b = true -> le b c = true -> le a c = true.

Lemma insert_sorted_perm x l : Permutation (insert_sorted le x l) (x :: l).
Proof.
  induction l as [|y l IH]; simpl; [reflexivity|].
  destruct (le x y); [reflexivity|].
  rewrite IH. apply perm_swap.
Qed.

Lemma sort_rows_perm l : Permutation (sort_rows le l) l.
Proof.
  induction l as [|x l IH]; simpl; [reflexivity|].
  rewrite insert_sorted_perm. constructor. exact IH.
Qed.

Lemma insert_sorted_sorted x l :
  StronglySorted (fun a b => le a b = true) l ->
  StronglySorted (fun a b => le a b = true) (insert_sorted le x l).
Proof.
  induction l as [|y l IH]; intros Hs; simpl.
  - constructor; constructor.
  - inversion Hs as [|? ? Hl Hy]; subst.
    destruct (le x y) eqn:E.
    + constructor; [exact Hs|]. constructor; [exact E|].
      revert Hy. apply Forall_impl. intros z Hz.
      eapply le_trans; eassumption.
    + constructor; [apply IH; exact Hl|].
      apply Forall_forall. intros z Hz.
      apply BackendFacts.In_insert_sorted in Hz. destruct Hz as [->|Hz].
      * apply le_total. exact E.
      * revert z Hz. apply Forall_forall. exact Hy.
Qed.

Lemma sort_rows_sorted l :
  StronglySorted (fun a b => le a b = true) (sort_rows le l).
Proof.
  induction l as [|x l IH]; simpl; [constructor|].
  apply insert_sorted_sorted. exact IH.
Qed.

End Sorting.

Lemma newest_first_sorted (l : list Row) :
  StronglySorted newer_or_equal (order_by (Some false) l).
Proof.
  cbn [order_by].
  assert (H := sort_rows_sorted (fun a b => created_at b <=? created_at a)).
  specialize (H ltac:(intros a b E; apply Z.leb_gt in E; apply Z.leb_le; lia)).
  specialize (H ltac:(intros a b c E1 E2; apply Z.leb_le in E1, E2;
                      apply Z.leb_le; lia)).
  specialize (H l). revert H.
  generalize (sort_rows (fun a b => created_at b <=? created_at a) l).
  intros l' H. induction H as [|a l0 Hl IH Ha]; constructor; [exact IH|].
  revert Ha. apply Forall_impl. intros b Hb. apply Z.leb_le in Hb. exact Hb.
Qed.

Lemma order_by_perm o (l : list Row) : Permutation (order_by o l) l.
Proof.
  destruct o as [[|]|]; cbn [order_by]; try apply sort_rows_perm. reflexivity.
Qed.

(** The rows that a select of [u]'s rows sent by [u] passes. *)
Lemma own_select_filter (u : uuid) (t : Table) :
  filter (fun r => policy_select (Some u) r && matches [(col_user_id, u)] r) t
  = owned_by u t.
Proof.
  unfold owned_by. apply filter_ext. intros r.
  unfold policy_select, uid_is_owner, matches. cbn [forallb fst snd column].
  rewrite (jseqb_sym u (user_id r)), andb_true_r.
  destruct (jseqb (user_id r) u); reflexivity.
Qed.

(** *** Primary key *)

Lemma ids_filter_incl (f : Row -> bool) (t : Table) x :
  In x (ids (filter f t)) -> In x (ids t).
Proof.
  unfold ids. intros H. apply in_map_iff in H. destruct H as (r & <- & Hr).
  apply filter_In in Hr. apply in_map. tauto.
Qed.

Lemma NoDup_ids_filter (f : Row -> bool) (t : Table) :
  NoDup (ids t) -> NoDup (ids (filter f t)).
Proof.
  unfold ids. induction t as [|r t IH]; simpl; intros H; [constructor|].
  inversion H as [|? ? Hr Ht]; subst.
  destruct (f r); simpl; [|apply IH; exact Ht].
  constructor; [|apply IH; exact Ht].
  intros Hin. apply Hr. exact (ids_filter_incl f t _ Hin).
Qed.

Lemma existsb_id_false (t : Table) (i : uuid) :
  existsb (fun r' => jseqb (id r') i) t = false -> ~ In i (ids t).
Proof.
  unfold ids. intros H Hin. apply in_map_iff in Hin.
  destruct Hin as (r & <- & Hr).
  assert (E : existsb (fun r' => jseqb (id r') (id r)) t = true).
  { apply existsb_exists. exists r. split; [exact Hr | apply jseqb_refl]. }
  rewrite E in H. discriminate.
Qed.

End TableFacts.

(* ================================================================== *)
(** ** Further properties: the table and its policies *)

Import TableFacts Notions.

(** X1. An anonymous request, for which [auth.uid()] is NULL, reads no row
    and changes no row, whatever the command, filters and values. *)
Theorem anonymous_request_is_inert
        (srv : Backend.Server) (q : Backend.Request) (t : Backend.Table) :
  fst (Backend.exec None srv q t) = t /\
  Backend.or_else (Backend.data (snd (Backend.exec None srv q t))) [] = [].
Proof.
  destruct q as [fs o|v|p fs|fs]; unfold Backend.exec;
    cbn [Backend.policy_select Backend.policy_insert Backend.policy_update
         Backend.policy_delete Backend.uid_is_owner andb negb orb fst snd].
  - split; [reflexivity|].
    rewrite (filter_none (fun _ : Backend.Row => false) t (fun _ => eq_refl)).
    rewrite order_by_nil. reflexivity.
  - split; reflexivity.
  - replace (forallb (fun _ : Backend.Row => true) t) with true
      by (induction t; simpl; auto).
    split; [|reflexivity]. cbn [fst]. apply map_id.
  - split; [|reflexivity]. cbn [fst].
    apply (filter_all (fun _ : Backend.Row => true)). reflexivity.
Qed.

(** X2. The primary key stays a key: if no two rows of the table share an
    id, no request of any caller makes two rows share one. *)
Theorem primary_key_stays_unique
        (uid : option Auth.uuid) (srv : Backend.Server)
        (q : Backend.Request) (t : Backend.Table) :
  NoDup (ids t) -> NoDup (ids (fst (Backend.exec uid srv q t))).
Proof.
  intros H. destruct q as [fs o|v|p fs|fs]; unfold Backend.exec.
  - exact H.
  - destruct (negb _); [exact H|].
    destruct (existsb _ t) eqn:E; [exact H|]. cbn [fst].
    unfold ids. rewrite map_app. cbn [List.map].
    apply NoDup_app; [exact H | constructor; [intros []|constructor] |].
    intros x Hx [<-|[]]. exact (existsb_id_false t _ E Hx).
  - match goal with |- context [if ?b then _ else _] => destruct b end;
      [|exact H].
    cbn [fst]. unfold ids. rewrite map_map.
    erewrite map_ext; [exact H|].
    intros r. destruct (_ && _); reflexivity.
  - cbn [fst]. apply NoDup_ids_filter. exact H.
Qed.

Lemma primary_key_stays_unique_witness :
  NoDup (ids [Sample.row "f1" "alice"]) /\
  NoDup (ids (fst (Backend.exec (Some (str "bob"))
                     {| Backend.fresh_id := str "f2"; Backend.now := 7 |}
                     (Backend.Insert
                        {| Backend.v_user_id := str "bob";
                           Backend.v_name := str "Bo";
                           Backend.v_descriptor := [] |})
                     [Sample.row "f1" "alice"]))).
Proof.
  assert (H : NoDup (ids [Sample.row "f1" "alice"]))
    by (constructor; [intros []|constructor]).
  split; [exact H|].
  exact (@primary_key_stays_unique
           (Some (str "bob"))
           {| Backend.fresh_id := str "f2"; Backend.now := 7 |}
           (Backend.Insert {| Backend.v_user_id := str "bob";
                              Backend.v_name := str "Bo";
                              Backend.v_descriptor := [] |})
           [Sample.row "f1" "alice"] H).
Defined.

(** X3. A row cannot be given away: an UPDATE by [u] that sets [user_id]
    to another user [v] and reaches at least one row is refused with the
    row-level security error and leaves the whole table as it was. *)
Theorem update_cannot_give_row_away
        (u v : Auth.uuid) (srv : Backend.Server) (p : Backend.Patch)
        (fs : list Backend.Filter) (t : Backend.Table) :
  u <> v ->
  Backend.p_user_id p = Some v ->
  existsb (fun r => Backend.policy_select (Some u) r
                    && Backend.policy_update (Some u) r
                    && Backend.matches fs r) t = true ->
  Backend.exec (Some u) srv (Backend.Update p fs) t
  = (t, Backend.failed Backend.rls_violation).
Proof.
  intros Huv Hp Hex. unfold Backend.exec.
  match goal with |- (if ?b then _ else _) = _ => destruct b eqn:Hall end;
    [|reflexivity].
  exfalso. apply existsb_exists in Hex. destruct Hex as (r & Hr & Hhit).
  rewrite forallb_forall in Hall. specialize (Hall r Hr).
  rewrite Hhit in Hall. cbn [negb orb] in Hall.
  unfold Backend.policy_update_check, Backend.policy_update,
    Backend.uid_is_owner, Backend.patched in Hall.
  cbn [Backend.user_id] in Hall. rewrite Hp in Hall.
  cbn [Backend.or_else] in Hall. apply jseqb_eq in Hall. contradiction.
Qed.

Lemma update_cannot_give_row_away_witness :
  str "alice" <> str "bob" /\
  Backend.exec (Some (str "alice"))
    {| Backend.fresh_id := []; Backend.now := 9 |}
    (Backend.Update {| Backend.p_user_id := Some (str "bob");
                       Backend.p_name := None;
                       Backend.p_descriptor := None |}
                    [(Backend.col_id, str "f1")])
    [Sample.row "f1" "alice"; Sample.row "f2" "bob"]
  = ([Sample.row "f1" "alice"; Sample.row "f2" "bob"],
     Backend.failed Backend.rls_violation).
Proof.
  split; [discriminate|].
  exact (@update_cannot_give_row_away
           (str "alice") (str "bob")
           {| Backend.fresh_id := []; Backend.now := 9 |}
           {| Backend.p_user_id := Some (str "bob");
              Backend.p_name := None; Backend.p_descriptor := None |}
           [(Backend.col_id, str "f1")]
           [Sample.row "f1" "alice"; Sample.row "f2" "bob"]
           ltac:(discriminate) eq_refl eq_refl).
Defined.

(* ================================================================== *)
(** ** Further facts about JavaScript values *)

Module ValueFacts.
Import JS JSFacts Component Notions.

Lemma trimStart_nil (s : jsstring) :
  trimStart s = [] <-> forallb isWhiteSpace s = true.
Proof.
  induction s as [|c s IH]; simpl; [tauto|].
  destruct (isWhiteSpace c); simpl; [exact IH|].
  split; discriminate.
Qed.

Lemma trimStart_head (s : jsstring) c s' :
  trimStart s = c :: s' -> isWhiteSpace c = false.
Proof.
  induction s as [|d s IH]; simpl; [discriminate|].
  destruct (isWhiteSpace d) eqn:E; [exact IH|].
  intros H. inversion H; subst. exact E.
Qed.

Lemma forallb_rev {A} (f : A -> bool) (l : list A) :
  forallb f (rev l) = forallb f l.
Proof.
  induction l as [|a l IH]; simpl; [reflexivity|].
  rewrite forallb_app, IH. simpl. rewrite andb_true_r. apply andb_comm.
Qed.

(** A string trims to the empty string exactly when it holds white space
    only. *)
Lemma trim_empty (s : jsstring) :
  truthy (trim s) = false <-> forallb isWhiteSpace s = true.
Proof.
  unfold trim, trimEnd.
  assert (H : truthy (rev (trimStart (rev (trimStart s)))) = false
              <-> trimStart (rev (trimStart s)) = []).
  { destruct (trimStart (rev (trimStart s))) as [|c l] eqn:E.
    - simpl. tauto.
    - split; [|discriminate]. simpl. destruct (rev l ++ [c]) eqn:E'.
      + destruct (rev l); discriminate.
      + discriminate. }
  rewrite H, trimStart_nil, forallb_rev.
  destruct (trimStart s) as [|c l] eqn:E.
  - apply trimStart_nil in E. rewrite E. simpl. tauto.
  - pose proof (trimStart_head s E) as Hc. simpl. rewrite Hc. simpl.
    split; [discriminate|]. intros Hall.
    assert (Hn : trimStart s = []) by (apply trimStart_nil; exact Hall).
    rewrite Hn in E. discriminate.
Qed.

(** *** The order of numbers *)

Lemma compare_lex (x y : number) :
  is_nan x = false -> is_nan y = false ->
  (SFcompare x y = Some Lt <-> lex_lt (rank x) (rank y)).
Proof.
  destruct x as [sx|sx| |sx mx ex], y as [sy|sy| |sy my ey];
    try discriminate; intros _ _;
    try destruct sx; try destruct sy; simpl;
    try (split; [intros H; try discriminate; lia
                | intros H; try reflexivity; exfalso; lia]).
  - destruct (Z.compare_spec ex ey) as [E|E|E]; simpl.
    + subst. rewrite Pos.compare_cont_spec. simpl.
      destruct (Pos.compare_spec mx my) as [F|F|F]; simpl;
        (split; [intros H; try discriminate; lia
                | intros H; try reflexivity; exfalso; lia]).
    + split; [intros H; discriminate | intros H; exfalso; lia].
    + split; [intros _; lia | reflexivity].
  - destruct (Z.compare_spec ex ey) as [E|E|E]; simpl.
    + subst. rewrite Pos.compare_cont_spec. simpl.
      destruct (Pos.compare_spec mx my) as [F|F|F]; simpl;
        (split; [intros H; try discriminate; lia
                | intros H; try reflexivity; exfalso; lia]).
    + split; [intros _; lia | reflexivity].
    + split; [intros H; discriminate | intros H; exfalso; lia].
Qed.

Lemma gt_lex (a b : number) :
  is_nan a = false -> is_nan b = false ->
  (gt a b = true <-> lex_lt (rank b) (rank a)).
Proof.
  intros Ha Hb. unfold gt, SFltb.
  rewrite <- (compare_lex b a Hb Ha).
  destruct (SFcompare b a) as [[| |]|]; split; congruence.
Qed.

Lemma lex_lt_asym a b : lex_lt a b -> lex_lt b a -> False.
Proof.
  destruct a as [[a1 a2] a3], b as [[b1 b2] b3]. unfold lex_lt. lia.
Qed.

Lemma lex_le_trans a b c :
  ~ lex_lt b a -> ~ lex_lt c b -> ~ lex_lt c a.
Proof.
  destruct a as [[a1 a2] a3], b as [[b1 b2] b3], c as [[c1 c2] c3].
  unfold lex_lt. lia.
Qed.

(** The reduction keeps an entry that no entry seen so far exceeds. *)
Lemma fold_larger (l : list (jsstring * number)) (acc : jsstring * number) :
  is_nan (snd acc) = false ->
  forallb (fun p => negb (is_nan (snd p))) l = true ->
  In (fold_left larger l acc) (acc :: l) /\
  is_nan (snd (fold_left larger l acc)) = false /\
  forall p, In p (acc :: l) -> gt (snd p) (snd (fold_left larger l acc)) = false.
Proof.
  revert acc. induction l as [|b l IH]; intros acc Hacc Hl.
  - simpl. repeat split; auto. intros p [<-|[]].
    destruct (gt (snd acc) (snd acc)) eqn:E; [|reflexivity].
    apply (gt_lex _ _ Hacc Hacc) in E. exfalso. exact (lex_lt_asym _ _ E E).
  - cbn [forallb] in Hl. apply andb_true_iff in Hl. destruct Hl as [Hb Hl].
    apply negb_true_iff in Hb. cbn [fold_left].
    assert (Hn : is_nan (snd (larger acc b)) = false)
      by (unfold larger; destruct (gt (snd acc) (snd b)); assumption).
    destruct (IH (larger acc b) Hn Hl) as (Hin & Hnan & Hmax).
    split; [|split; [exact Hnan|]].
    + destruct Hin as [Hin|Hin]; [|right; right; exact Hin].
      rewrite <- Hin. unfold larger.
      destruct (gt (snd acc) (snd b)); [left | right; left]; reflexivity.
    + set (m := fold_left larger l (larger acc b)) in *.
      assert (Hstep : gt (snd (larger acc b)) (snd m) = false)
        by (apply Hmax; left; reflexivity).
      assert (Hle : forall q : jsstring * number, is_nan (snd q) = false ->
                gt (snd q) (snd (larger acc b)) = false ->
                gt (snd q) (snd m) = false).
      { intros q Hq Hqa.
        destruct (gt (snd q) (snd m)) eqn:E; [|reflexivity]. exfalso.
        apply (gt_lex _ _ Hq Hnan) in E.
        assert (H1 : ~ lex_lt (rank (snd (larger acc b))) (rank (snd q))).
        { intros H. apply (gt_lex _ _ Hq Hn) in H. congruence. }
        assert (H2 : ~ lex_lt (rank (snd m)) (rank (snd (larger acc b)))).
        { intros H. apply (gt_lex _ _ Hn Hnan) in H. congruence. }
        exact (@lex_le_trans _ _ _ H1 H2 E). }
      intros p [<-|[<-|Hp]].
      * apply Hle; [exact Hacc|]. unfold larger.
        destruct (gt (snd acc) (snd b)) eqn:E.
        -- destruct (gt (snd acc) (snd acc)) eqn:E'; [|reflexivity].
           apply (gt_lex _ _ Hacc Hacc) in E'.
           exfalso. exact (lex_lt_asym _ _ E' E').
        -- exact E.
      * apply Hle; [exact Hb|]. unfold larger.
        destruct (gt (snd acc) (snd b)) eqn:E.
        -- destruct (gt (snd b) (snd acc)) eqn:E'; [|reflexivity].
           apply (gt_lex _ _ Hacc Hb) in E. apply (gt_lex _ _ Hb Hacc) in E'.
           exfalso. exact (lex_lt_asym _ _ E E').
        -- destruct (gt (snd b) (snd b)) eqn:E'; [|reflexivity].
           apply (gt_lex _ _ Hb Hb) in E'.
           exfalso. exact (lex_lt_asym _ _ E' E').
      * apply Hmax. right. exact Hp.
Qed.

End ValueFacts.

(* ================================================================== *)
(** ** The component before its first processed frame *)

Module IdleFacts.
Import JS JSFacts Component Maintained Triples Run HandlerFacts Notions.

Section OnTable.

Variable t0 : Backend.Table.

Local Abbreviation keeps := (keeps (IdleOn t0) quiet).

Ltac k_quiet := apply keeps_emit; [split; reflexivity | exact Logic.I].

Lemma keeps_skip : keeps (ret tt) (fun _ => True).
Proof. apply keeps_ret. exact Logic.I. Qed.

Lemma keeps_setState_idle (f : State -> State) :
  (forall s,
      isCameraOn (f s) = isCameraOn s /\ faceCount (f s) = faceCount s /\
      currentEmotion (f s) = currentEmotion s /\
      matchedFace (f s) = matchedFace s /\
      showSaveInput (f s) = showSaveInput s /\ faceName (f s) = faceName s) ->
  keeps (setState f) (fun _ => True).
Proof.
  intros Hf. apply keeps_modify; [|exact Logic.I].
  intros w [(H1 & H2 & H3 & H4 & H5 & H6 & H7 & H8 & H9) Ht].
  destruct (Hf (state w)) as (F1 & F2 & F3 & F4 & F5 & F6).
  split; [|exact Ht]. unfold Idle.
  cbn [state with_state raf currentDescriptorRef videoRef streamRef].
  rewrite F1, F2, F3, F4, F5, F6. repeat split; assumption.
Qed.

Ltac k_state :=
  apply keeps_setState_idle;
  let s := fresh "s" in intros s; repeat split; reflexivity.

Lemma exec_removes_only uid srv q (t : Backend.Table) :
  removes_only q -> incl (fst (Backend.exec uid srv q t)) t.
Proof.
  destruct q as [fs o|v|p fs|fs]; intros Hq; try destruct Hq;
    unfold Backend.exec; cbn [fst].
  - apply incl_refl.
  - apply incl_filter.
Qed.

Lemma keeps_supabase_idle svc q :
  removes_only q -> keeps (supabase svc q) (fun _ => True).
Proof.
  intros Hq w [Hw Ht].
  change (snd (fst (supabase svc q w))) with (world_after (supabase svc q) w).
  change (snd (supabase svc q w)) with (events_of (supabase svc q) w).
  rewrite world_supabase, events_supabase. split; [split|split].
  - exact Hw.
  - cbn [faces with_faces]. unfold Backend.call.
    destruct (Backend.fault svc); cbn [fst]; [exact Ht|].
    eapply incl_tran; [apply exec_removes_only; exact Hq | exact Ht].
  - constructor; [|constructor]. split; [reflexivity|].
    destruct q; try destruct Hq; reflexivity.
  - exact Logic.I.
Qed.

Lemma keeps_toast_idle t : keeps (toast t) (fun _ => True).
Proof. k_quiet. Qed.

Lemma keeps_console_idle what e : keeps (console_error what e) (fun _ => True).
Proof. k_quiet. Qed.

Lemma keeps_loadModels_idle thrown : keeps (loadModels thrown) (fun _ => True).
Proof.
  unfold loadModels. apply keeps_then.
  - apply keeps_forEach. intros n _. k_quiet.
  - destruct thrown.
    + apply keeps_then; [apply keeps_console_idle | apply keeps_toast_idle].
    + apply keeps_then; [unfold setIsModelLoaded; k_state | apply keeps_toast_idle].
Qed.

Lemma keeps_loadSavedFaces_idle r svc :
  keeps (loadSavedFaces r svc) (fun _ => True).
Proof.
  unfold loadSavedFaces. destruct (session r) as [s|]; [|apply keeps_skip].
  eapply keeps_bind; [apply keeps_supabase_idle; exact Logic.I|].
  intros resp _. destruct (Backend.error resp).
  - apply keeps_console_idle.
  - destruct (Backend.data resp); [|apply keeps_skip].
    unfold setSavedFaces. k_state.
Qed.

Lemma keeps_stopCamera_idle : keeps stopCamera (fun _ => True).
Proof.
  intros w [(H1 & H2 & (v & Hv & Hsrc & Hcl) & H4 & H5 & H6 & H7 & H8 & H9) Ht].
  change (snd (fst (stopCamera w))) with (world_after stopCamera w).
  change (snd (stopCamera w)) with (events_of stopCamera w).
  rewrite stopCamera_events, stopCamera_world.
  split; [|split; [|exact Logic.I]].
  - destruct (streamRef w) as [stream|] eqn:Es; cbv zeta;
      cbn [videoRef with_streamRef with_ended]; rewrite Hv;
      (split; [|exact Ht]);
      unfold Idle; cbn; rewrite ?Es, ?H1, ?H2, ?H8, ?H9;
      repeat split; try reflexivity;
      (eexists; split; [reflexivity|]; split; [reflexivity | exact Hcl]).
  - apply Forall_forall. intros e He. apply in_map_iff in He.
    destruct He as (tr & <- & _). split; reflexivity.
Qed.

Lemma keeps_startCamera_idle r granted :
  closure_off r -> keeps (startCamera r granted) (fun _ => True).
Proof.
  intros Hr. destruct granted as [error|stream].
  - unfold startCamera. apply keeps_then; [k_quiet|].
    apply keeps_then; [apply keeps_console_idle | apply keeps_toast_idle].
  - intros w [(H1 & H2 & (v & Hv & Hsrc & Hcl) & H4 & H5 & H6 & H7 & H8 & H9) Ht].
    unfold startCamera, bind, emit, get, modify, setIsCameraOn, setState, ret.
    cbn. rewrite Hv. cbn.
    split; [split; [|exact Ht]|split; [|exact Logic.I]].
    + unfold Idle. cbn. rewrite ?H1, ?H2, ?H5, ?H6, ?H7, ?H8, ?H9.
      repeat split; try reflexivity.
      eexists; split; [reflexivity|]. split; [reflexivity | exact Hr].
    + constructor; [split; reflexivity | constructor].
Qed.

Section WithModel.

Variable detectAllFaces : Detect.
Variable resizeResults : Resize.
Variable findBestMatch : Match.

Lemma keeps_detectFaces_idle r :
  closure_off r ->
  keeps (detectFaces detectAllFaces resizeResults findBestMatch r)
        (fun _ => True).
Proof.
  intros Hr w Hw.
  rewrite (@detectFaces_idle detectAllFaces resizeResults findBestMatch r w)
    by (right; right; exact Hr).
  cbn [fst snd]. split; [exact Hw|]. split; [constructor | exact Logic.I].
Qed.

Lemma keeps_startDetection_idle r :
  closure_off r ->
  keeps (startDetection detectAllFaces resizeResults findBestMatch r)
        (fun _ => True).
Proof.
  intros Hr. unfold startDetection.
  eapply keeps_bind; [apply keeps_get|]. intros w _.
  destruct (videoRef w); [|apply keeps_skip].
  destruct (canvasRef w); [|apply keeps_skip].
  destruct (negb (isModelLoaded r)); [apply keeps_skip|].
  apply keeps_then; [unfold setIsDetecting; k_state|].
  apply keeps_detectFaces_idle. exact Hr.
Qed.

Lemma keeps_toggleCamera_idle r granted :
  keeps (toggleCamera r granted) (fun _ => True).
Proof.
  unfold toggleCamera. destruct (isCameraOn r) eqn:E.
  - apply keeps_stopCamera_idle.
  - apply keeps_startCamera_idle. exact E.
Qed.

Lemma keeps_handleSaveFace_idle r ins sel :
  keeps (handleSaveFace r ins sel) (fun _ => True).
Proof.
  unfold handleSaveFace. destruct (session r); [|apply keeps_toast_idle].
  eapply keeps_bind; [apply keeps_get|]. intros w [Hw _].
  destruct Hw as (_ & Hd & _). rewrite Hd. apply keeps_toast_idle.
Qed.

Lemma keeps_handleDeleteFace_idle r id del sel :
  keeps (handleDeleteFace r id del sel) (fun _ => True).
Proof.
  unfold handleDeleteFace.
  eapply keeps_bind; [apply keeps_supabase_idle; exact Logic.I|].
  intros resp _. destruct (Backend.error resp).
  - apply keeps_then; [apply keeps_console_idle | apply keeps_toast_idle].
  - apply keeps_then; [apply keeps_toast_idle | apply keeps_loadSavedFaces_idle].
Qed.

Lemma keeps_step_idle a :
  keeps (step detectAllFaces resizeResults findBestMatch a) (fun _ => True).
Proof.
  unfold step. eapply keeps_bind; [apply keeps_get|]. intros w Hw.
  destruct Hw as [(H1 & H2 & (v & Hv & Hsrc & Hcl) & H4 & H5 & H6 & H7 & H8 & H9) Ht].
  destruct a.
  - apply keeps_then.
    { apply keeps_modify; [|exact Logic.I]. intros w0 [Hw0 Ht0].
      split; [exact Hw0 | exact Ht0]. }
    apply keeps_then; [unfold setSession; k_state|].
    eapply keeps_bind; [apply keeps_get|]. intros w' _.
    apply keeps_loadSavedFaces_idle.
  - apply keeps_loadModels_idle.
  - apply keeps_when. apply keeps_toggleCamera_idle.
  - rewrite Hv. destruct (onloadedmetadata v) as [r'|]; [|apply keeps_skip].
    apply keeps_startDetection_idle. exact Hcl.
  - rewrite H1. apply keeps_skip.
  - apply keeps_modify; [|exact Logic.I].
    intros w0 [(G1 & G2 & (v0 & Gv & Gsrc & Gcl) & G4 & G5 & G6 & G7 & G8 & G9) Gt].
    split; [|exact Gt]. unfold Idle.
    cbn [raf currentDescriptorRef videoRef streamRef state with_videoRef].
    rewrite Gv. cbn [option_map].
    repeat split; try assumption.
    eexists; split; [reflexivity|]. split; [exact Gsrc | exact Gcl].
  - rewrite H8. apply keeps_skip.
  - rewrite H2. cbn [isSome]. rewrite !andb_false_r. apply keeps_skip.
  - rewrite H8. apply keeps_skip.
  - apply keeps_when. apply keeps_handleDeleteFace_idle.
Qed.

Lemma keeps_run_idle l :
  keeps (run detectAllFaces resizeResults findBestMatch l) (fun _ => True).
Proof.
  unfold run. apply keeps_forEach. intros a _. apply keeps_step_idle.
Qed.

End WithModel.

End OnTable.

(** A page just mounted with fresh elements is idle. *)
Lemma mounted_idle (v : Video) (c : Canvas) (t : Backend.Table) :
  srcObject v = None -> onloadedmetadata v = None ->
  IdleOn t (mounted v c t).
Proof.
  intros Hs Hm. split; [|apply incl_refl].
  unfold Idle, mounted. cbn. repeat split; try reflexivity.
  exists v. rewrite Hs, Hm. repeat split; reflexivity.
Qed.

Lemma run_from_mounted
      (detectAllFaces : Detect) (resizeResults : Resize)
      (findBestMatch : Match)
      (v : Video) (c : Canvas) (t : Backend.Table) (acts : list Action) :
  srcObject v = None -> onloadedmetadata v = None ->
  IdleOn t (world_after (run detectAllFaces resizeResults findBestMatch acts)
                        (mounted v c t)) /\
  Forall quiet (events_of (run detectAllFaces resizeResults findBestMatch acts)
                          (mounted v c t)).
Proof.
  intros Hs Hm.
  destruct (@keeps_run_idle t detectAllFaces resizeResults findBestMatch acts
              (mounted v c t) (mounted_idle v c t Hs Hm)) as (H1 & H2 & _).
  split; [exact H1 | exact H2].
Qed.

End IdleFacts.

(* ================================================================== *)
(** ** Further properties: the component as a machine *)

Import ValueFacts IdleFacts.



(** X4. The detection loop never processes a frame. "Start Camera" hands
    the video element the [startDetection] of the render of the click, in
    which [isCameraOn] is still false, so [detectFaces] returns at its
    guard: in every run of a freshly mounted component there is no call
    into the model library, no canvas call and no animation frame request,
    and face count, emotion and match label keep their initial values. *)
Theorem detection_never_runs
        (detectAllFaces : Detect) (resizeResults : Resize)
        (findBestMatch : Match)
        (v : Video) (c : Canvas) (t : Backend.Table) (acts : list Action) :
  srcObject v = None -> onloadedmetadata v = None ->
  Forall (fun e => detection_event e = false)
         (events_of (run detectAllFaces resizeResults findBestMatch acts)
                    (mounted v c t)) /\
  raf (world_after (run detectAllFaces resizeResults findBestMatch acts)
                   (mounted v c t)) = [] /\
  faceCount (state (world_after
                      (run detectAllFaces resizeResults findBestMatch acts)
                      (mounted v c t))) = 0%nat /\
  currentEmotion (state (world_after
                      (run detectAllFaces resizeResults findBestMatch acts)
                      (mounted v c t))) = [] /\
  matchedFace (state (world_after
                      (run detectAllFaces resizeResults findBestMatch acts)
                      (mounted v c t))) = [].
Proof.
  intros Hs Hm.
  destruct (@run_from_mounted detectAllFaces resizeResults findBestMatch
              v c t acts Hs Hm) as [[Hi _] He].
  destruct Hi as (H1 & _ & _ & _ & H5 & H6 & H7 & _).
  split; [|repeat split; assumption].
  revert He. apply Forall_impl. intros e [He _]. exact He.
Qed.

Lemma detection_never_runs_witness :
  srcObject Sample.video = None /\
  Forall (fun e => detection_event e = false)
         (events_of
            (run Sample.detectAllFaces Sample.resizeResults Sample.findBestMatch
                 [ModelsSettled None; ClickCamera (inr [7%N]); LoadedMetadata;
                  AnimationFrame])
            (mounted Sample.video Sample.canvas [])).
Proof.
  split; [reflexivity|].
  exact (proj1 (@detection_never_runs
                  Sample.detectAllFaces Sample.resizeResults Sample.findBestMatch
                  Sample.video Sample.canvas []
                  [ModelsSettled None; ClickCamera (inr [7%N]); LoadedMetadata;
                   AnimationFrame]
                  eq_refl eq_refl)).
Defined.

(** X5. As no frame is processed, no descriptor is ever captured: in every
    run of a freshly mounted component [currentDescriptorRef] stays null,
    the save input is never shown, no insert is sent to the backend, and
    the table holds no row that it did not hold at mount. *)
Theorem nothing_is_ever_saved
        (detectAllFaces : Detect) (resizeResults : Resize)
        (findBestMatch : Match)
        (v : Video) (c : Canvas) (t : Backend.Table) (acts : list Action) :
  srcObject v = None -> onloadedmetadata v = None ->
  Forall (fun e => insert_event e = false)
         (events_of (run detectAllFaces resizeResults findBestMatch acts)
                    (mounted v c t)) /\
  currentDescriptorRef
    (world_after (run detectAllFaces resizeResults findBestMatch acts)
                 (mounted v c t)) = None /\
  showSaveInput
    (state (world_after (run detectAllFaces resizeResults findBestMatch acts)
                        (mounted v c t))) = false /\
  incl (faces (world_after (run detectAllFaces resizeResults findBestMatch acts)
                           (mounted v c t))) t.
Proof.
  intros Hs Hm.
  destruct (@run_from_mounted detectAllFaces resizeResults findBestMatch
              v c t acts Hs Hm) as [[Hi Ht] He].
  destruct Hi as (_ & H2 & _ & _ & _ & _ & _ & H8 & _).
  split; [|repeat split; assumption].
  revert He. apply Forall_impl. intros e [_ He]. exact He.
Qed.

Lemma nothing_is_ever_saved_witness :
  onloadedmetadata Sample.video = None /\
  faces (world_after
           (run Sample.detectAllFaces Sample.resizeResults Sample.findBestMatch
                [ModelsSettled None;
                 AuthStateChange (Some Sample.alice) (Sample.srv "f1" 1);
                 ClickCamera (inr [7%N]); LoadedMetadata; ClickSaveFace;
                 ChangeFaceName (str "Ann");
                 ClickSave (Sample.srv "f1" 2) (Sample.srv "f1" 3)])
           (mounted Sample.video Sample.canvas []))
  = [].
Proof.
  split; [reflexivity|].
  apply incl_l_nil.
  exact (proj2 (proj2 (proj2
    (@nothing_is_ever_saved
       Sample.detectAllFaces Sample.resizeResults Sample.findBestMatch
       Sample.video Sample.canvas []
       [ModelsSettled None;
        AuthStateChange (Some Sample.alice) (Sample.srv "f1" 1);
        ClickCamera (inr [7%N]); LoadedMetadata; ClickSaveFace;
        ChangeFaceName (str "Ann");
        ClickSave (Sample.srv "f1" 2) (Sample.srv "f1" 3)]
       eq_refl eq_refl)))).
Defined.

(** X6. The camera flag tells whether a stream is held: in every run of a
    freshly mounted component, [isCameraOn] is true exactly when
    [streamRef] holds a stream, and the video element shows that very
    stream. *)
Theorem camera_flag_tracks_stream
        (detectAllFaces : Detect) (resizeResults : Resize)
        (findBestMatch : Match)
        (v : Video) (c : Canvas) (t : Backend.Table) (acts : list Action) :
  srcObject v = None -> onloadedmetadata v = None ->
  isCameraOn
    (state (world_after (run detectAllFaces resizeResults findBestMatch acts)
                        (mounted v c t)))
  = isSome (streamRef
              (world_after (run detectAllFaces resizeResults findBestMatch acts)
                           (mounted v c t))) /\
  option_map srcObject
    (videoRef (world_after (run detectAllFaces resizeResults findBestMatch acts)
                           (mounted v c t)))
  = Some (streamRef
            (world_after (run detectAllFaces resizeResults findBestMatch acts)
                         (mounted v c t))).
Proof.
  intros Hs Hm.
  destruct (@run_from_mounted detectAllFaces resizeResults findBestMatch
              v c t acts Hs Hm) as [[Hi _] _].
  destruct Hi as (_ & _ & (v' & Hv & Hsrc & _) & H4 & _).
  split; [exact H4|]. rewrite Hv. cbn [option_map]. rewrite Hsrc. reflexivity.
Qed.

Lemma camera_flag_tracks_stream_witness :
  srcObject Sample.video = None /\
  streamRef
    (world_after
       (run Sample.detectAllFaces Sample.resizeResults Sample.findBestMatch
            [ModelsSettled None; ClickCamera (inr [7%N; 8%N])])
       (mounted Sample.video Sample.canvas []))
  = Some [7%N; 8%N] /\
  isCameraOn
    (state (world_after
       (run Sample.detectAllFaces Sample.resizeResults Sample.findBestMatch
            [ModelsSettled None; ClickCamera (inr [7%N; 8%N])])
       (mounted Sample.video Sample.canvas [])))
  = isSome (streamRef
       (world_after
          (run Sample.detectAllFaces Sample.resizeResults Sample.findBestMatch
               [ModelsSettled None; ClickCamera (inr [7%N; 8%N])])
          (mounted Sample.video Sample.canvas []))).
Proof.
  split; [reflexivity|]. split; [reflexivity|].
  exact (proj1 (@camera_flag_tracks_stream
                  Sample.detectAllFaces Sample.resizeResults Sample.findBestMatch
                  Sample.video Sample.canvas []
                  [ModelsSettled None; ClickCamera (inr [7%N; 8%N])]
                  eq_refl eq_refl)).
Defined.

(* ================================================================== *)
(** ** Further facts about the handlers *)

Module SaveLoadFacts.
Import JS JSFacts Component Maintained Run HandlerFacts Notions TableFacts.

Lemma as_saved_face_same (face : Row) : as_saved_face face = face.
Proof. destruct face. reflexivity. Qed.

Lemma map_as_saved_face (l : list Row) : List.map as_saved_face l = l.
Proof.
  induction l as [|a l IH]; simpl; [reflexivity|].
  rewrite as_saved_face_same, IH. reflexivity.
Qed.

Lemma with_faces_same (w : World) : with_faces (faces w) w = w.
Proof. destruct w. reflexivity. Qed.

(** What [loadSavedFaces] leaves behind, by the answer of the backend. *)
Lemma loadSavedFaces_world r s svc w :
  session r = Some s ->
  world_after (loadSavedFaces r svc) w
  = match Backend.fault svc with
    | Some _ => w
    | None =>
        world_after
          (setSavedFaces
             (Backend.order_by (Some false)
                (filter (fun row =>
                           Backend.policy_select (Auth.uid (auth w)) row
                           && Backend.matches
                                [(Backend.col_user_id, Auth.id (Auth.user s))]
                                row)
                        (faces w))))
          w
    end.
Proof.
  intros Hs. unfold loadSavedFaces. rewrite Hs.
  rewrite world_bind, result_supabase, world_supabase.
  unfold Backend.call. destruct (Backend.fault svc) as [e|].
  - cbn [fst snd Backend.failed Backend.error]. rewrite world_console_error.
    apply with_faces_same.
  - cbn [Backend.exec select_faces fst snd Backend.ok Backend.error
         Backend.data].
    rewrite with_faces_same, map_as_saved_face. reflexivity.
Qed.

Lemma loadSavedFaces_faces r svc w :
  faces (world_after (loadSavedFaces r svc) w) = faces w.
Proof.
  destruct (session r) as [s|] eqn:Hs.
  - rewrite (loadSavedFaces_world r svc w Hs).
    destruct (Backend.fault svc); reflexivity.
  - unfold loadSavedFaces. rewrite Hs. reflexivity.
Qed.

Lemma loadSavedFaces_events r s svc w :
  session r = Some s ->
  events_of (loadSavedFaces r svc) w
  = Fetch (Auth.uid (auth w)) (select_faces s)
    :: match Backend.fault svc with
       | Some e => [ConsoleError (str "Error loading faces:") e]
       | None => []
       end.
Proof.
  intros Hs. unfold loadSavedFaces. rewrite Hs.
  rewrite events_bind, result_supabase, events_supabase.
  unfold Backend.call. destruct (Backend.fault svc) as [e|]; reflexivity.
Qed.

(** [loadSavedFaces] touches the list of saved faces only. *)
Lemma loadSavedFaces_keeps r svc w :
  faceName (state (world_after (loadSavedFaces r svc) w)) = faceName (state w) /\
  showSaveInput (state (world_after (loadSavedFaces r svc) w))
  = showSaveInput (state w) /\
  currentDescriptorRef (world_after (loadSavedFaces r svc) w)
  = currentDescriptorRef w /\
  auth (world_after (loadSavedFaces r svc) w) = auth w.
Proof.
  destruct (session r) as [s|] eqn:Hs.
  - rewrite (loadSavedFaces_world r svc w Hs).
    destruct (Backend.fault svc); repeat split; reflexivity.
  - unfold loadSavedFaces. rewrite Hs. repeat split; reflexivity.
Qed.

(** What the table holds after a delete request of [handleDeleteFace]
    that the service executes. *)
Lemma delete_call (svc : Backend.Service) (uid : option Auth.uuid)
      (id : jsstring) (t : Backend.Table) :
  Backend.fault svc = None ->
  Backend.call svc uid (delete_face id) t
  = (filter (fun row => negb (Backend.uid_is_owner uid row
                              && jseqb (Backend.id row) id)) t,
     Backend.ok None).
Proof.
  intros Hf. unfold Backend.call, delete_face, Backend.exec. rewrite Hf.
  f_equal. apply filter_ext. intros row.
  unfold Backend.policy_select, Backend.policy_delete, Backend.matches.
  cbn [forallb fst snd Backend.column].
  destruct (Backend.uid_is_owner uid row), (jseqb (Backend.id row) id);
    reflexivity.
Qed.

Lemma handleDeleteFace_world r id del sel w :
  Backend.fault del = None ->
  world_after (handleDeleteFace r id del sel) w
  = world_after (loadSavedFaces r sel)
      (with_faces
         (filter (fun row => negb (Backend.uid_is_owner (Auth.uid (auth w)) row
                                   && jseqb (Backend.id row) id))
                 (faces w))
         w).
Proof.
  intros Hf. unfold handleDeleteFace.
  rewrite world_bind, result_supabase, world_supabase, (delete_call del _ id _ Hf).
  cbn [fst snd Backend.ok Backend.error].
  rewrite world_bind, world_toast. reflexivity.
Qed.

Lemma handleDeleteFace_events r id del sel w :
  Backend.fault del = None ->
  firstn 2 (events_of (handleDeleteFace r id del sel) w)
  = [Fetch (Auth.uid (auth w)) (delete_face id);
     Toast {| title := check_mark ++ str " Face Deleted";
              description := str "Face removed successfully";
              variant := default |}].
Proof.
  intros Hf. unfold handleDeleteFace.
  rewrite events_bind, result_supabase, events_supabase, (delete_call del _ id _ Hf).
  cbn [fst snd Backend.ok Backend.error].
  rewrite events_bind, events_toast. reflexivity.
Qed.

End SaveLoadFacts.

(* ================================================================== *)
(** ** Further properties: the handlers *)

Import SaveLoadFacts.

(** X7. With a session and a captured descriptor, [handleSaveFace] answers
    "Name Required" exactly when the typed name holds white space only (the
    empty name included). *)
Theorem name_required_iff_blank
        (r : State) (w : World) (s : Session) (d : Float32Array)
        (ins sel : Backend.Service) :
  session r = Some s ->
  currentDescriptorRef w = Some d ->
  (events_of (handleSaveFace r ins sel) w
   = [Toast {| title := str "Name Required";
               description := str "Please enter a name for this face";
               variant := destructive |}]
   <-> forallb isWhiteSpace (faceName r) = true).
Proof.
  intros Hs Hd. unfold handleSaveFace. rewrite Hs.
  rewrite events_bind, result_get, world_get, events_get, Hd. cbn [app].
  rewrite <- trim_empty.
  destruct (truthy (trim (faceName r))); cbn [negb].
  - rewrite events_bind, events_supabase. cbn [app].
    split; discriminate.
  - split; reflexivity.
Qed.

Lemma name_required_iff_blank_witness :
  currentDescriptorRef Sample.aliceReady = Some Sample.descriptor0 /\
  events_of
    (handleSaveFace
       (with_faceName_of [32%N; 9%N; 160%N] (Sample.cameraOn (Some Sample.alice) []))
       (Sample.srv "f1" 1) (Sample.srv "f1" 2))
    Sample.aliceReady
  = [Toast {| title := str "Name Required";
              description := str "Please enter a name for this face";
              variant := destructive |}].
Proof.
  split; [reflexivity|].
  exact (proj2
    (@name_required_iff_blank
       (with_faceName_of [32%N; 9%N; 160%N] (Sample.cameraOn (Some Sample.alice) []))
       Sample.aliceReady Sample.alice Sample.descriptor0
       (Sample.srv "f1" 1) (Sample.srv "f1" 2) eq_refl eq_refl)
    eq_refl).
Defined.

(** X8. A save under another identity is refused by the INSERT policy: if
    the supabase client is not signed in as the user of the render's
    session, [handleSaveFace] shows "Save Failed" with the policy's message
    and changes nothing, the table and the typed name included. *)
Theorem save_refused_for_other_identity
        (r : State) (w : World) (s : Session) (d : Float32Array)
        (ins sel : Backend.Service) :
  session r = Some s ->
  currentDescriptorRef w = Some d ->
  truthy (trim (faceName r)) = true ->
  Backend.fault ins = None ->
  Auth.uid (auth w) <> Some (Auth.id (Auth.user s)) ->
  world_after (handleSaveFace r ins sel) w = w /\
  events_of (handleSaveFace r ins sel) w
  = [Fetch (Auth.uid (auth w)) (insert_face s (faceName r) d);
     ConsoleError (str "Error saving face:") Backend.rls_violation;
     Toast {| title := str "Save Failed";
              description := Backend.message Backend.rls_violation;
              variant := destructive |}].
Proof.
  intros Hs Hd Hn Hf Hid.
  assert (Hcall : Backend.call ins (Auth.uid (auth w))
                    (insert_face s (faceName r) d) (faces w)
                  = (faces w, Backend.failed Backend.rls_violation)).
  { unfold Backend.call, insert_face, Backend.exec. rewrite Hf.
    unfold Backend.policy_insert, Backend.uid_is_owner, Backend.new_row.
    cbn [Backend.user_id Backend.v_user_id].
    destruct (Auth.uid (auth w)) as [u|]; [|reflexivity].
    rewrite jseqb_neq; [reflexivity|]. intros E. apply Hid. rewrite E.
    reflexivity. }
  unfold handleSaveFace. rewrite Hs.
  rewrite world_bind, events_bind, result_get, world_get, events_get, Hd, Hn.
  cbn [negb app].
  rewrite world_bind, events_bind, result_supabase, world_supabase,
    events_supabase, Hcall.
  cbn [fst snd Backend.failed Backend.error]. rewrite with_faces_same.
  split; reflexivity.
Qed.

Lemma save_refused_for_other_identity_witness :
  Auth.uid (auth (with_auth (Some Sample.bob) Sample.aliceReady))
  <> Some (Auth.id (Auth.user Sample.alice)) /\
  world_after
    (handleSaveFace Sample.namingAnn (Sample.srv "f1" 1) (Sample.srv "f1" 2))
    (with_auth (Some Sample.bob) Sample.aliceReady)
  = with_auth (Some Sample.bob) Sample.aliceReady.
Proof.
  split; [discriminate|].
  exact (proj1
    (@save_refused_for_other_identity
       Sample.namingAnn (with_auth (Some Sample.bob) Sample.aliceReady)
       Sample.alice Sample.descriptor0 (Sample.srv "f1" 1) (Sample.srv "f1" 2)
       eq_refl eq_refl eq_refl eq_refl ltac:(discriminate))).
Defined.

(** X9. A save that the backend accepts tells the user so with the name as
    typed, empties and hides the name input, asks the backend for the
    user's faces again, and keeps the captured descriptor. *)
Theorem accepted_save_clears_the_input
        (r : State) (w : World) (s : Session) (d : Float32Array)
        (ins sel : Backend.Service) :
  session r = Some s ->
  auth w = Some s ->
  currentDescriptorRef w = Some d ->
  truthy (trim (faceName r)) = true ->
  Backend.fault ins = None ->
  existsb (fun row => jseqb (Backend.id row)
                            (Backend.fresh_id (Backend.server ins)))
          (faces w) = false ->
  events_of (handleSaveFace r ins sel) w
  = [Fetch (Some (Auth.id (Auth.user s))) (insert_face s (faceName r) d);
     Toast {| title := check_mark ++ str " Face Saved";
              description := faceName r ++ str " has been saved successfully";
              variant := default |};
     Fetch (Some (Auth.id (Auth.user s))) (select_faces s)]
    ++ match Backend.fault sel with
       | Some e => [ConsoleError (str "Error loading faces:") e]
       | None => []
       end /\
  faceName (state (world_after (handleSaveFace r ins sel) w)) = [] /\
  showSaveInput (state (world_after (handleSaveFace r ins sel) w)) = false /\
  currentDescriptorRef (world_after (handleSaveFace r ins sel) w) = Some d.
Proof.
  intros Hs Ha Hd Hn Hfi Hfresh.
  assert (Hcall : Backend.call ins (Auth.uid (auth w))
                    (insert_face s (faceName r) d) (faces w)
                  = (faces w ++ [Backend.new_row (Backend.server ins)
                        {| Backend.v_user_id := Auth.id (Auth.user s);
                           Backend.v_name := faceName r;
                           Backend.v_descriptor := Array_from d |}],
                     Backend.ok None)).
  { unfold Backend.call, insert_face, Backend.exec. rewrite Hfi, Ha.
    unfold Backend.policy_insert, Backend.uid_is_owner, Auth.uid,
      Backend.new_row.
    cbn [Backend.user_id Backend.id Backend.v_user_id].
    rewrite jseqb_refl. cbn [negb]. rewrite Hfresh. reflexivity. }
  unfold handleSaveFace. rewrite Hs.
  rewrite world_bind, events_bind, result_get, world_get, events_get, Hd, Hn.
  cbn [negb app].
  rewrite world_bind, events_bind, result_supabase, world_supabase,
    events_supabase, Hcall.
  cbn [fst snd Backend.ok Backend.error].
  rewrite !world_bind, !events_bind, (loadSavedFaces_events r sel _ Hs).
  destruct (loadSavedFaces_keeps r sel
              (world_after (setShowSaveInput false)
                 (world_after (setFaceName [])
                    (world_after
                       (toast
                          {| title := check_mark ++ str " Face Saved";
                             description :=
                               faceName r ++ str " has been saved successfully";
                             variant := default |})
                       (with_faces
                          (faces w ++
                           [Backend.new_row (Backend.server ins)
                              {| Backend.v_user_id := Auth.id (Auth.user s);
                                 Backend.v_name := faceName r;
                                 Backend.v_descriptor := Array_from d |}])
                          w)))))
    as (K1 & K2 & K3 & _).
  cbv beta. rewrite K1, K2, K3.
  split; [|split; [|split]]; try reflexivity.
  - cbn. rewrite Ha. reflexivity.
  - cbn. exact Hd.
Qed.

Lemma accepted_save_clears_the_input_witness :
  truthy (trim (faceName Sample.namingAnn)) = true /\
  faceName
    (state (world_after
              (handleSaveFace Sample.namingAnn
                              (Sample.srv "f1" 1) (Sample.srv "f1" 2))
              Sample.aliceReady))
  = [].
Proof.
  split; [reflexivity|].
  exact (proj1 (proj2
    (@accepted_save_clears_the_input
       Sample.namingAnn Sample.aliceReady Sample.alice Sample.descriptor0
       (Sample.srv "f1" 1) (Sample.srv "f1" 2)
       eq_refl eq_refl eq_refl eq_refl eq_refl eq_refl))).
Defined.

(** X10. Deleting one's own face removes it. When the signed-in user
    deletes by id and the backend answers both calls, the table loses
    exactly that user's rows with that id, the reloaded list of saved faces
    holds no face with that id, and the user is told "Face Deleted". *)
Theorem delete_removes_the_callers_row
        (r : State) (w : World) (s : Session) (id : jsstring)
        (del sel : Backend.Service) :
  session r = Some s ->
  auth w = Some s ->
  Backend.fault del = None ->
  Backend.fault sel = None ->
  faces (world_after (handleDeleteFace r id del sel) w)
  = filter (fun row => negb (jseqb (Backend.user_id row) (Auth.id (Auth.user s))
                             && jseqb (Backend.id row) id))
           (faces w) /\
  Forall (fun face => jseqb (Backend.id face) id = false)
         (savedFaces (state (world_after (handleDeleteFace r id del sel) w))) /\
  firstn 2 (events_of (handleDeleteFace r id del sel) w)
  = [Fetch (Some (Auth.id (Auth.user s))) (delete_face id);
     Toast {| title := check_mark ++ str " Face Deleted";
              description := str "Face removed successfully";
              variant := default |}].
Proof.
  intros Hs Ha Hfd Hfs.
  rewrite (handleDeleteFace_events r id del sel w Hfd),
    (handleDeleteFace_world r id del sel w Hfd), Ha.
  cbn [Auth.uid].
  split; [|split; [|reflexivity]].
  - rewrite loadSavedFaces_faces. cbn [faces with_faces].
    apply filter_ext. intros row. unfold Backend.uid_is_owner.
    rewrite (jseqb_sym (Auth.id (Auth.user s)) (Backend.user_id row)).
    reflexivity.
  - rewrite (loadSavedFaces_world r sel _ Hs), Hfs.
    unfold setSavedFaces. rewrite world_setState.
    cbn [state with_state savedFaces auth faces with_faces]. rewrite Ha.
    apply Forall_forall. intros face Hface.
    apply BackendFacts.In_order_by, filter_In in Hface.
    destruct Hface as [Hin Hpass]. apply filter_In in Hin.
    destruct Hin as [_ Hkept].
    apply andb_true_iff in Hpass. destruct Hpass as [Hown _].
    unfold Backend.policy_select, Auth.uid in Hown.
    rewrite Hown in Hkept. cbn [andb] in Hkept.
    apply negb_true_iff in Hkept. exact Hkept.
Qed.

Lemma delete_removes_the_callers_row_witness :
  auth Sample.aliceAndBob = Some Sample.alice /\
  faces (world_after
           (handleDeleteFace (Sample.cameraOn (Some Sample.alice) []) (str "f1")
                             (Sample.srv "f3" 8) (Sample.srv "f3" 9))
           Sample.aliceAndBob)
  = [Sample.row "f2" "bob"].
Proof.
  split; [reflexivity|].
  exact (proj1
    (@delete_removes_the_callers_row
       (Sample.cameraOn (Some Sample.alice) []) Sample.aliceAndBob Sample.alice
       (str "f1") (Sample.srv "f3" 8) (Sample.srv "f3" 9)
       eq_refl eq_refl eq_refl eq_refl)).
Defined.

(** X11. [handleDeleteFace] reports success whenever the backend returns no
    error, also when nothing was deleted: if the caller owns no row with
    the given id (the id is unknown, the row is another user's, or the
    client is signed out), the table stays as it was and the user is still
    told "Face Deleted". *)
Theorem delete_reports_success_without_deleting
        (r : State) (w : World) (id : jsstring) (del sel : Backend.Service) :
  Backend.fault del = None ->
  forallb (fun row => negb (Backend.uid_is_owner (Auth.uid (auth w)) row
                            && jseqb (Backend.id row) id))
          (faces w) = true ->
  faces (world_after (handleDeleteFace r id del sel) w) = faces w /\
  firstn 2 (events_of (handleDeleteFace r id del sel) w)
  = [Fetch (Auth.uid (auth w)) (delete_face id);
     Toast {| title := check_mark ++ str " Face Deleted";
              description := str "Face removed successfully";
              variant := default |}].
Proof.
  intros Hf Hnone.
  rewrite (handleDeleteFace_events r id del sel w Hf),
    (handleDeleteFace_world r id del sel w Hf).
  split; [|reflexivity].
  rewrite loadSavedFaces_faces. cbn [faces with_faces].
  rewrite forallb_forall in Hnone.
  induction (faces w) as [|row t IH]; cbn [filter]; [reflexivity|].
  rewrite (Hnone row (or_introl eq_refl)), IH; [reflexivity|].
  intros x Hx. apply Hnone. right. exact Hx.
Qed.

Lemma delete_reports_success_without_deleting_witness :
  Backend.fault (Sample.srv "f3" 8) = None /\
  faces (world_after
           (handleDeleteFace (Sample.cameraOn (Some Sample.alice) []) (str "f2")
                             (Sample.srv "f3" 8) (Sample.srv "f3" 9))
           Sample.aliceAndBob)
  = [Sample.row "f1" "alice"; Sample.row "f2" "bob"].
Proof.
  split; [reflexivity|].
  exact (proj1
    (@delete_reports_success_without_deleting
       (Sample.cameraOn (Some Sample.alice) []) Sample.aliceAndBob
       (str "f2") (Sample.srv "f3" 8) (Sample.srv "f3" 9) eq_refl eq_refl)).
Defined.

(** X14. What [loadSavedFaces] shows. When the client is signed in as the
    session's user and the backend answers, the saved faces become exactly
    the rows of the table that belong to that user, each once, ordered
    newest first; the table itself is not changed. *)
Theorem loadSavedFaces_lists_own_rows_newest_first
        (r : State) (w : World) (s : Session) (sel : Backend.Service) :
  session r = Some s ->
  auth w = Some s ->
  Backend.fault sel = None ->
  Permutation (savedFaces (state (world_after (loadSavedFaces r sel) w)))
              (Backend.owned_by (Auth.id (Auth.user s)) (faces w)) /\
  StronglySorted newer_or_equal
                 (savedFaces (state (world_after (loadSavedFaces r sel) w))) /\
  faces (world_after (loadSavedFaces r sel) w) = faces w.
Proof.
  intros Hs Ha Hf.
  split; [|split; [|apply loadSavedFaces_faces]];
    rewrite (loadSavedFaces_world r sel w Hs), Hf, Ha;
    unfold setSavedFaces; rewrite world_setState;
    cbn [state with_state savedFaces Auth.uid].
  - rewrite own_select_filter. apply order_by_perm.
  - apply newest_first_sorted.
Qed.

Lemma loadSavedFaces_lists_own_rows_newest_first_witness :
  auth Sample.aliceAndBob = Some Sample.alice /\
  Permutation
    (savedFaces
       (state (world_after
                 (loadSavedFaces (Sample.cameraOn (Some Sample.alice) [])
                                 (Sample.srv "f3" 9))
                 Sample.aliceAndBob)))
    [Sample.row "f1" "alice"].
Proof.
  split; [reflexivity|].
  exact (proj1
    (@loadSavedFaces_lists_own_rows_newest_first
       (Sample.cameraOn (Some Sample.alice) []) Sample.aliceAndBob Sample.alice
       (Sample.srv "f3" 9) eq_refl eq_refl eq_refl)).
Defined.

(** X15. A reload that cannot be made changes nothing: without a session,
    or when the backend service answers with an error of its own,
    [loadSavedFaces] leaves the world as it was, so the faces loaded before
    stay on display. *)
Theorem failed_reload_keeps_saved_faces
        (r : State) (w : World) (sel : Backend.Service) :
  session r = None \/ Backend.fault sel <> None ->
  world_after (loadSavedFaces r sel) w = w.
Proof.
  intros H. destruct (session r) as [s|] eqn:Hs.
  - destruct H as [H|H]; [discriminate|].
    rewrite (loadSavedFaces_world r sel w Hs).
    destruct (Backend.fault sel); [reflexivity | contradiction].
  - unfold loadSavedFaces. rewrite Hs. reflexivity.
Qed.

Lemma failed_reload_keeps_saved_faces_witness :
  Backend.fault (Sample.down "offline") <> None /\
  world_after
    (loadSavedFaces (Sample.cameraOn (Some Sample.alice) [])
                    (Sample.down "offline"))
    Sample.aliceAndBob
  = Sample.aliceAndBob.
Proof.
  assert (H : Backend.fault (Sample.down "offline") <> None) by discriminate.
  split; [exact H|].
  exact (@failed_reload_keeps_saved_faces
           (Sample.cameraOn (Some Sample.alice) []) Sample.aliceAndBob
           (Sample.down "offline") (or_intror H)).
Defined.

(* ================================================================== *)
(** ** Further properties: camera, emotion, sign-in page *)

Module CameraFacts.
Import JS Component Maintained Run HandlerFacts.

(** The world in which a granted stream has been stored. *)
Lemma startCamera_granted (r : State) (stream : MediaStream) (w : World)
      (v : Video) :
  videoRef w = Some v ->
  startCamera r (inr stream) w
  = (tt,
     with_videoRef
       (Some (with_onloadedmetadata (Some r) (with_srcObject (Some stream) v)))
       (world_after (setIsCameraOn true) (with_streamRef (Some stream) w)),
     [GetUserMedia]).
Proof.
  intros Hv.
  unfold startCamera, bind, emit, get, modify, setIsCameraOn, setState, ret,
    world_after.
  cbn. rewrite Hv. cbn. reflexivity.
Qed.

End CameraFacts.

Import CameraFacts.

(** X12. Start then stop releases the camera. With the video element
    mounted, [startCamera] puts the granted stream both in [streamRef] and
    on the video element, turns [isCameraOn] on and leaves the render of the
    click as the one whose [startDetection] the metadata handler will call;
    [stopCamera] right after stops every track of that stream, empties the
    ref and the element, and turns the flag off. *)
Theorem start_then_stop_releases_camera
        (r : State) (w : World) (v : Video) (stream : MediaStream) :
  videoRef w = Some v ->
  streamRef (world_after (startCamera r (inr stream)) w) = Some stream /\
  option_map srcObject (videoRef (world_after (startCamera r (inr stream)) w))
  = Some (Some stream) /\
  option_map onloadedmetadata
             (videoRef (world_after (startCamera r (inr stream)) w))
  = Some (Some r) /\
  isCameraOn (state (world_after (startCamera r (inr stream)) w)) = true /\
  Forall (fun t =>
            In t (ended (world_after (startCamera r (inr stream) ;; stopCamera) w)))
         stream /\
  streamRef (world_after (startCamera r (inr stream) ;; stopCamera) w) = None /\
  option_map srcObject
    (videoRef (world_after (startCamera r (inr stream) ;; stopCamera) w))
  = Some None /\
  isCameraOn
    (state (world_after (startCamera r (inr stream) ;; stopCamera) w)) = false /\
  events_of (startCamera r (inr stream) ;; stopCamera) w
  = GetUserMedia :: List.map TrackStop stream.
Proof.
  intros Hv.
  assert (HW : world_after (startCamera r (inr stream)) w
               = with_videoRef
                   (Some (with_onloadedmetadata (Some r)
                            (with_srcObject (Some stream) v)))
                   (world_after (setIsCameraOn true)
                                (with_streamRef (Some stream) w)))
    by (unfold world_after at 1; rewrite (startCamera_granted r stream w Hv);
        reflexivity).
  assert (HE : events_of (startCamera r (inr stream)) w = [GetUserMedia])
    by (unfold events_of; rewrite (startCamera_granted r stream w Hv);
        reflexivity).
  rewrite world_bind, events_bind, stopCamera_events, stopCamera_world, HW, HE.
  cbn. repeat split; try reflexivity.
  apply Forall_forall. intros t Ht. apply in_or_app. left.
  apply in_rev in Ht. exact Ht.
Qed.

Lemma start_then_stop_releases_camera_witness :
  videoRef Sample.page = Some Sample.video /\
  ended (world_after
           (startCamera initialState (inr [7%N; 8%N]) ;; stopCamera) Sample.page)
  = [8%N; 7%N] /\
  streamRef (world_after
               (startCamera initialState (inr [7%N; 8%N]) ;; stopCamera)
               Sample.page)
  = None.
Proof.
  split; [reflexivity|]. split; [reflexivity|].
  exact (proj1 (proj2 (proj2 (proj2 (proj2 (proj2
    (@start_then_stop_releases_camera
       initialState Sample.page Sample.video [7%N; 8%N] eq_refl))))))).
Defined.

(** X13. [startCamera] changes nothing unless a stream is granted and the
    video element is mounted. When access is refused the error is written
    to the console and the user is shown the fixed text "Please allow
    camera access"; when the element is missing the granted stream is
    stored nowhere, so that no later [stopCamera] can stop its tracks. *)
Theorem startCamera_needs_grant_and_video
        (r : State) (w : World) (granted : Error + MediaStream) :
  match granted with inl _ => True | inr _ => videoRef w = None end ->
  world_after (startCamera r granted) w = w /\
  events_of (startCamera r granted) w
  = match granted with
    | inl error =>
        [GetUserMedia;
         ConsoleError (str "Error accessing camera:") error;
         Toast {| title := str "Camera Access Denied";
                  description := str "Please allow camera access";
                  variant := destructive |}]
    | inr _ => [GetUserMedia]
    end.
Proof.
  intros H. destruct granted as [error|stream].
  - split; reflexivity.
  - unfold startCamera, world_after, events_of, bind, emit, get, ret.
    cbn. rewrite H. split; reflexivity.
Qed.

Lemma startCamera_needs_grant_and_video_witness :
  videoRef (with_videoRef None Sample.page) = None /\
  world_after (startCamera initialState (inr [7%N]))
              (with_videoRef None Sample.page)
  = with_videoRef None Sample.page.
Proof.
  split; [reflexivity|].
  exact (proj1 (@startCamera_needs_grant_and_video
                  initialState (with_videoRef None Sample.page) (inr [7%N])
                  eq_refl)).
Defined.

(** X16. The displayed emotion is a most probable one. If none of the
    seven expression values is NaN, the entry that the reduction picks is
    one of the entries and no entry has a greater value. *)
Theorem dominant_emotion_is_maximal (e : FaceExpressions) :
  forallb (fun p => negb (is_nan (snd p))) (entries e) = true ->
  In (maxExpression e) (entries e) /\
  Forall (fun p => gt (snd p) (snd (maxExpression e)) = false) (entries e).
Proof.
  unfold entries, maxExpression. cbn [forallb]. intros H.
  apply andb_true_iff in H. destruct H as [Hfirst Hothers].
  apply negb_true_iff in Hfirst.
  destruct (fold_larger (other_entries e) (first_entry e) Hfirst Hothers)
    as (Hin & _ & Hmax).
  split; [exact Hin|]. apply Forall_forall. exact Hmax.
Qed.

Lemma dominant_emotion_is_maximal_witness :
  forallb (fun p => negb (is_nan (snd p)))
          (entries (expressions Sample.face0)) = true /\
  In (maxExpression (expressions Sample.face0))
     (entries (expressions Sample.face0)).
Proof.
  split; [reflexivity|].
  exact (proj1 (@dominant_emotion_is_maximal (expressions Sample.face0) eq_refl)).
Defined.

(** X17. What submitting the sign-in form does. The auth service is
    contacted exactly when both fields are non-empty; [email], [password]
    and [isLogin] are never changed; [loading] is off afterwards unless the
    fields were rejected while it was already on; exactly one toast is
    shown, and its description is never empty. That toast is: "Please
    fill in all fields" when a field is empty; when the service answers
    with an error, an "Error" toast with the error's message, or with "An
    error occurred" when the error has no message or an empty one; and a
    "Success" toast, worded after the mode of the form, only when the
    service answers without error. *)
Theorem handleAuth_outcome
        (origin : jsstring) (reply : option AuthPage.AuthError)
        (s : AuthPage.State) :
  AuthPage.email (fst (AuthPage.handleAuth origin reply s)) = AuthPage.email s /\
  AuthPage.password (fst (AuthPage.handleAuth origin reply s))
  = AuthPage.password s /\
  AuthPage.isLogin (fst (AuthPage.handleAuth origin reply s))
  = AuthPage.isLogin s /\
  AuthPage.loading (fst (AuthPage.handleAuth origin reply s))
  = (AuthPage.loading s
     && negb (truthy (AuthPage.email s) && truthy (AuthPage.password s)))%bool /\
  existsb AuthPage.contacts_service (snd (AuthPage.handleAuth origin reply s))
  = (truthy (AuthPage.email s) && truthy (AuthPage.password s))%bool /\
  List.length (filter AuthPage.is_toast (snd (AuthPage.handleAuth origin reply s)))
  = 1%nat /\
  Forall (fun e => match e with
                   | AuthPage.Toast t => truthy (description t) = true
                   | _ => True
                   end)
         (snd (AuthPage.handleAuth origin reply s)) /\
  filter AuthPage.is_toast (snd (AuthPage.handleAuth origin reply s))
  = [AuthPage.Toast
       (match AuthPage.email s, AuthPage.password s, reply with
        | _ :: _, _ :: _, Some error =>
            {| title := str "Error";
               description :=
                 match AuthPage.message error with
                 | Some (c :: m) => c :: m
                 | _ => str "An error occurred"
                 end;
               variant := destructive |}
        | _ :: _, _ :: _, None =>
            {| title := str "Success";
               description :=
                 if AuthPage.isLogin s then str "Logged in successfully"
                 else str "Account created successfully";
               variant := default |}
        | _, _, _ =>
            {| title := str "Error";
               description := str "Please fill in all fields";
               variant := destructive |}
        end)].
Proof.
  unfold AuthPage.handleAuth.
  destruct (AuthPage.email s) as [|c1 e1] eqn:Ee;
    [cbn [truthy negb orb andb fst snd filter AuthPage.is_toast
          existsb AuthPage.contacts_service List.length];
     rewrite Ee, andb_true_r;
     repeat split; repeat constructor|].
  destruct (AuthPage.password s) as [|c2 p2] eqn:Ep;
    [cbn [truthy negb orb andb fst snd filter AuthPage.is_toast
          existsb AuthPage.contacts_service List.length];
     rewrite Ee, Ep, andb_true_r;
     repeat split; repeat constructor|].
  cbn [truthy negb orb andb fst snd AuthPage.setLoading AuthPage.email
       AuthPage.password AuthPage.isLogin AuthPage.loading].
  rewrite Ee, Ep, andb_false_r.
  split; [reflexivity|]. split; [reflexivity|]. split; [reflexivity|].
  split; [reflexivity|].
  split; [destruct (AuthPage.isLogin s); reflexivity|].
  split; [destruct (AuthPage.isLogin s); reflexivity|].
  split.
  - constructor; [destruct (AuthPage.isLogin s); exact Logic.I|].
    constructor; [|constructor].
    destruct reply as [error|]; cbn [description].
    + unfold AuthPage.shown_message.
      destruct (AuthPage.message error) as [m|]; [|reflexivity].
      destruct (truthy m) eqn:E; [exact E | reflexivity].
    + destruct (AuthPage.isLogin s); reflexivity.
  - destruct (AuthPage.isLogin s); cbn [filter AuthPage.is_toast];
      (destruct reply as [error|]; [|reflexivity]);
      unfold AuthPage.shown_message;
      (destruct (AuthPage.message error) as [[|c m]|]; reflexivity).
Qed.

(** X19. A frame stays on the page: whatever its closure and the world,
    one run of [detectFaces] sends nothing to the backend, shows no toast,
    stops no track, and leaves the table, the client's identity, the held
    stream, the saved faces, the session and the typed name as they were. *)
Theorem detectFaces_stays_on_the_page
        (detectAllFaces : Detect) (resizeResults : Resize)
        (findBestMatch : Match) (r : State) (w : World) :
  Forall (fun e => outward_event e = false)
         (events_of (detectFaces detectAllFaces resizeResults findBestMatch r) w)
  /\
  faces (world_after
           (detectFaces detectAllFaces resizeResults findBestMatch r) w)
  = faces w /\
  auth (world_after
          (detectFaces detectAllFaces resizeResults findBestMatch r) w)
  = auth w /\
  streamRef (world_after
               (detectFaces detectAllFaces resizeResults findBestMatch r) w)
  = streamRef w /\
  ended (world_after
           (detectFaces detectAllFaces resizeResults findBestMatch r) w)
  = ended w /\
  savedFaces (state (world_after
           (detectFaces detectAllFaces resizeResults findBestMatch r) w))
  = savedFaces (state w) /\
  session (state (world_after
           (detectFaces detectAllFaces resizeResults findBestMatch r) w))
  = session (state w) /\
  faceName (state (world_after
           (detectFaces detectAllFaces resizeResults findBestMatch r) w))
  = faceName (state w).
Proof.
  assert (Hidle : detectFaces detectAllFaces resizeResults findBestMatch r w
                  = (tt, w, []) ->
                  Forall (fun e => outward_event e = false)
                    (events_of
                       (detectFaces detectAllFaces resizeResults findBestMatch r)
                       w) /\
                  world_after
                    (detectFaces detectAllFaces resizeResults findBestMatch r) w
                  = w).
  { intros E. unfold events_of, world_after. rewrite E. split; [constructor|].
    reflexivity. }
  destruct (videoRef w) as [video|] eqn:Hv;
    [|destruct (Hidle (detectFaces_idle detectAllFaces resizeResults
                         findBestMatch r w (or_introl Hv))) as [He ->];
      repeat split; try reflexivity; exact He].
  destruct (canvasRef w) as [canvas|] eqn:Hc;
    [|destruct (Hidle (detectFaces_idle detectAllFaces resizeResults
                         findBestMatch r w (or_intror (or_introl Hc))))
        as [He ->];
      repeat split; try reflexivity; exact He].
  destruct (isCameraOn r) eqn:Hon;
    [|destruct (Hidle (detectFaces_idle detectAllFaces resizeResults
                         findBestMatch r w (or_intror (or_intror Hon))))
        as [He ->];
      repeat split; try reflexivity; exact He].
  clear Hidle. split.
  - rewrite (detectFaces_events detectAllFaces resizeResults findBestMatch
               r w Hv Hc Hon).
    repeat (apply Forall_app; split); repeat constructor.
    + unfold clear_events. destruct (has2d canvas); repeat constructor.
    + unfold match_events.
      destruct (resizeResults _ _); [constructor|].
      destruct (savedFaces r); [constructor|].
      destruct (session r); repeat constructor.
    + unfold draw_events. destruct (has2d canvas); [|constructor].
      apply Forall_forall. intros e He. apply in_flat_map in He.
      destruct He as (d & _ & He). apply in_map_iff in He.
      destruct He as (c & <- & _). reflexivity.
  - rewrite (detectFaces_world detectAllFaces resizeResults findBestMatch
               r w Hv Hc Hon).
    unfold processFirstDetection.
    destruct (resizeResults _ _) as [|detection rest].
    + repeat split; reflexivity.
    + destruct (savedFaces r); [repeat split; reflexivity|].
      destruct (session r); repeat split; reflexivity.
Qed.
